(** * A shallow embedding of the bitcoin ledger core

    The development follows the Python package [bitcoin]: [utils.py]
    (hash helpers), [merkle_tree.py], [transaction.py] (UTXO model),
    [blockchain.py] (blocks, proof of work, the ledger) and
    [difficulty_adjustment.py].

    Conventions.
    - A Python [str] is a Rocq [string] holding its UTF-8 bytes, so
      [s.encode()] is the identity.
    - Python [int] is [Z]; amounts, timestamps of headers and difficulties
      of the adjustment module, which the source types as [float], are
      exact rationals [Q] in the ledger. Where a result depends on how
      binary64 rounds a sum of amounts (the fee, the cover of the outputs,
      the selection of UTXOs), the function is embedded over the
      primitive [float] in the module [Binary64], and the properties of
      those results are stated there.
    - What the package takes from outside itself (hashlib's SHA-256, the
      json serialiser, the ECDSA and Base58 codecs) is a field of the class
      [Host]; a reading of the wall clock is an argument of the function
      that takes it.
    - A call that can raise returns [Py.res]; console output is left out. *)

From Stdlib Require Import Ascii String QArith Lqa PrimFloat.
From stdpp Require Import gmap strings list pretty.
From Equations Require Import Equations.

Local Open Scope string_scope.
Local Open Scope Z_scope.
Local Set Warnings "-register-all".
Local Set Warnings "-inexact-float".

(** ** Python results *)

Module Py.

Inductive exn : Type :=
| NameError (name : string)
| AttributeError
| IndexError
| ZeroDivisionError.

Inductive res (A : Type) : Type :=
| Ok (a : A)
| Raise (e : exn).
Arguments Ok {A} a.
Arguments Raise {A} e.

Definition bind {A B} (r : res A) (k : A -> res B) : res B :=
  match r with
  | Ok a => k a
  | Raise e => Raise e
  end.

End Py.

#[global] Instance res_ret : MRet Py.res := @Py.Ok.
#[global] Instance res_bind : MBind Py.res := fun A B k r => Py.bind r k.

(** ** What the package imports from outside *)

(** The values [json.dumps] is applied to. *)
Inductive json : Type :=
| JNull
| JInt (n : Z)
| JNum (q : Q)
| JStr (s : string)
| JList (l : list json)
| JDict (d : list (string * json)).

Class Host := {
  (** [hashlib.sha256(b).digest()] *)
  sha256 : string -> string;
  (** [json.dumps(v, sort_keys=True)] *)
  json_dumps : json -> string;
  (** [AddressValidator.verify_signature_static(message, sig, pubkey)]:
      the ecdsa check, [False] on any decoding error *)
  verify_signature_static : string -> string -> string -> bool;
  (** [AddressValidator.derive_address_from_public_key(pubkey)]: SHA-256,
      RIPEMD-160, version byte, checksum, Base58 *)
  derive_address_from_public_key : string -> string
}.

(** ** Numbers *)

(** [sum(xs)]: from 0, left to right. *)
Definition py_sum (xs : list Q) : Q := fold_left Qplus xs 0%Q.

(** [max(a, b)] and [min(a, b)]: the first argument unless the second is
    strictly larger (smaller). *)
Definition py_max (a b : Q) : Q := if Qle_bool b a then a else b.
Definition py_min (a b : Q) : Q := if Qle_bool a b then a else b.

(** ** Strings *)

(** [s[:n]] for any Python int [n]: the first [n] characters, and for a
    negative [n] all but the last [-n]. *)
Definition str_prefix (n : Z) (s : string) : string :=
  let len := Z.of_nat (String.length s) in
  let stop := if n <? 0 then Z.max 0 (len + n) else Z.min n len in
  String.substring 0 (Z.to_nat stop) s.

(** ["0" * n]; empty for [n <= 0]. *)
Fixpoint zeros_nat (n : nat) : string :=
  match n with
  | O => ""
  | S k => String "0"%char (zeros_nat k)
  end.

Definition zeros (n : Z) : string := zeros_nat (Z.to_nat n).

(** ** merkle_tree.py *)

Module Merkle.

(** The dataclass [MerkleNode]. *)
Inductive MerkleNode : Type :=
| Node (hash_value : string) (left right : option MerkleNode)
       (data : option string).

Definition hash_value (n : MerkleNode) : string :=
  match n with Node h _ _ _ => h end.
Definition left (n : MerkleNode) : option MerkleNode :=
  match n with Node _ l _ _ => l end.
Definition right (n : MerkleNode) : option MerkleNode :=
  match n with Node _ _ r _ => r end.
Definition data (n : MerkleNode) : option string :=
  match n with Node _ _ _ d => d end.

Definition is_leaf (n : MerkleNode) : bool :=
  match left n, right n with
  | None, None => true
  | _, _ => false
  end.

Definition opt_str_eqb (a b : option string) : bool :=
  match a, b with
  | Some x, Some y => String.eqb x y
  | None, None => true
  | _, _ => false
  end.

(** The [__eq__] a dataclass generates: field by field, so two nodes are
    equal when they are the same tree, not the same object. *)
Fixpoint node_eq (a b : MerkleNode) : bool :=
  match a, b with
  | Node h1 l1 r1 d1, Node h2 l2 r2 d2 =>
      String.eqb h1 h2
      && match l1, l2 with
         | Some x, Some y => node_eq x y
         | None, None => true
         | _, _ => false
         end
      && match r1, r2 with
         | Some x, Some y => node_eq x y
         | None, None => true
         | _, _ => false
         end
      && opt_str_eqb d1 d2
  end.

(** The dataclass [MerkleProof]. *)
Record MerkleProof : Type := mkProof {
  target_hash : string;
  merkle_root : string;
  proof_hashes : list string;
  proof_directions : list bool
}.

(** [bytes.hex()]. *)
Definition hex_digit (n : N) : ascii :=
  ascii_of_N (if (n <? 10)%N then 48 + n else 87 + n)%N.

Fixpoint hex (bs : string) : string :=
  match bs with
  | EmptyString => EmptyString
  | String c rest =>
      let n := N_of_ascii c in
      String (hex_digit (n / 16)) (String (hex_digit (n mod 16)) (hex rest))
  end.

Section WithHost.

Context `{host : Host}.

Definition _double_sha256 (d : string) : string :=
  let first_hash := sha256 d in
  let second_hash := sha256 first_hash in
  hex second_hash.

Definition make_leaf (tx_hash : string) : MerkleNode :=
  Node (_double_sha256 tx_hash) None None (Some tx_hash).

Definition make_parent (left_node right_node : MerkleNode) : MerkleNode :=
  Node (_double_sha256 (hash_value left_node +:+ hash_value right_node))
       (Some left_node) (Some right_node) None.

(** One pass of [for i in range(0, len(current_level), 2)]: a last node
    without a partner is paired with itself. *)
Fixpoint next_level (current_level : list MerkleNode) : list MerkleNode :=
  match current_level with
  | [] => []
  | [left_node] => [make_parent left_node left_node]
  | left_node :: right_node :: rest =>
      make_parent left_node right_node :: next_level rest
  end.

Lemma next_level_length (l : list MerkleNode) :
  (length (next_level l) <= length l)%nat
  /\ ((2 <= length l)%nat -> (length (next_level l) < length l)%nat).
Proof.
  remember (length l) as n eqn:Hn.
  revert l Hn.
  induction n as [n IH] using lt_wf_ind; intros l ->.
  destruct l as [|a [|b rest]]; simpl; try lia.
  destruct (IH (length rest)) with (l := rest) as [H1 _];
    [simpl; lia | reflexivity | lia].
Qed.

(** [while len(current_level) > 1: current_level = next_level]. *)
Equations? reduce_levels (current_level : list MerkleNode)
  : list MerkleNode by wf (length current_level) lt :=
  reduce_levels current_level with le_lt_dec (length current_level) 1 => {
    | Specif.left _ := current_level;
    | Specif.right _ := reduce_levels (next_level current_level) }.
Proof. apply next_level_length. lia. Qed.

(** The state of a [MerkleTree] object. *)
Record MerkleTree : Type := mkTree {
  transactions : list string;
  root : option MerkleNode;
  leaves : list MerkleNode
}.

Definition build_tree (txs : list string) : MerkleTree :=
  match txs with
  | [] => mkTree txs None []
  | _ =>
      let lvs := map make_leaf txs in
      mkTree txs (head (reduce_levels lvs)) lvs
  end.

(** [MerkleTree(transactions)]. *)
Definition new_tree (txs : list string) : MerkleTree := build_tree txs.

Definition get_merkle_root (t : MerkleTree) : option string :=
  match root t with
  | Some r => Some (hash_value r)
  | None => None
  end.

Definition push (acc : list string * list bool) (h : string) (d : bool)
  : list string * list bool :=
  ((acc.1 ++ [h])%list, (acc.2 ++ [d])%list).

(** [_build_proof_path]: the two lists the source appends to are
    threaded through as [acc]; the result is the returned flag and the
    lists after the call. *)
Fixpoint _build_proof_path (node target : MerkleNode)
    (acc : list string * list bool) : bool * (list string * list bool) :=
  if node_eq node target then (true, acc)
  else if is_leaf node then (false, acc)
  else
    match node with
    | Node _ node_left node_right _ =>
        let in_left :=
          match node_left with
          | Some l => _build_proof_path l target acc
          | None => (false, acc)
          end in
        if in_left.1 then
          (true, match node_right with
                 | Some r => push in_left.2 (hash_value r) true
                 | None => in_left.2
                 end)
        else
          let in_right :=
            match node_right with
            | Some r => _build_proof_path r target in_left.2
            | None => (false, in_left.2)
            end in
          if in_right.1 then
            (true, match node_left with
                   | Some l => push in_right.2 (hash_value l) false
                   | None => in_right.2
                   end)
          else (false, in_right.2)
    end.

Definition leaf_has_data (tx_hash : string) (leaf : MerkleNode) : bool :=
  opt_str_eqb (data leaf) (Some tx_hash).

Definition get_merkle_proof (t : MerkleTree) (tx_hash : string)
  : Py.res (option MerkleProof) :=
  if negb (existsb (String.eqb tx_hash) (transactions t)) then Py.Ok None
  else
    match List.find (leaf_has_data tx_hash) (leaves t) with
    | None => Py.Ok None
    | Some target_leaf =>
        match root t with
        | None => Py.Raise Py.AttributeError
        | Some r =>
            let path := (_build_proof_path r target_leaf ([], [])).2 in
            Py.Ok (Some (mkProof tx_hash (hash_value r) path.1 path.2))
        end
    end.

Definition combine_step (current_hash sibling_hash : string)
    (is_right : bool) : string :=
  if is_right then current_hash +:+ sibling_hash
  else sibling_hash +:+ current_hash.

(** The loop of [verify_merkle_proof] over
    [zip(proof_hashes, proof_directions)]. *)
Fixpoint climb (current_hash : string) (hs : list string) (ds : list bool)
  : string :=
  match hs, ds with
  | sibling_hash :: hs', is_right :: ds' =>
      climb (_double_sha256 (combine_step current_hash sibling_hash is_right))
            hs' ds'
  | _, _ => current_hash
  end.

Definition verify_merkle_proof (proof : MerkleProof) : bool :=
  String.eqb
    (climb (_double_sha256 (target_hash proof))
           (proof_hashes proof) (proof_directions proof))
    (merkle_root proof).

(** The strings [verify_merkle_proof] hashes on its way up, one per
    level. *)
Fixpoint climb_inputs (current_hash : string) (hs : list string)
    (ds : list bool) : list string :=
  match hs, ds with
  | sibling_hash :: hs', is_right :: ds' =>
      let combined := combine_step current_hash sibling_hash is_right in
      combined :: climb_inputs (_double_sha256 combined) hs' ds'
  | _, _ => []
  end.

Definition hashed_inputs (proof : MerkleProof) : list string :=
  climb_inputs (_double_sha256 (target_hash proof))
               (proof_hashes proof) (proof_directions proof).

(** No double-SHA-256 collision between two verifications, level by
    level. *)
Definition no_collision (p q : MerkleProof) : Prop :=
  forall i x y,
    hashed_inputs p !! i = Some x ->
    hashed_inputs q !! i = Some y ->
    _double_sha256 x = _double_sha256 y -> x = y.

Definition with_proof_hashes (p : MerkleProof) (hs : list string)
  : MerkleProof :=
  mkProof (target_hash p) (merkle_root p) hs (proof_directions p).

(** The nodes [build_tree] makes. *)
Inductive built : MerkleNode -> Prop :=
| built_leaf tx_hash : built (make_leaf tx_hash)
| built_parent l r : built l -> built r -> built (make_parent l r).

(** [target] is met by the depth-first search below a node. *)
Inductive occurs (target : MerkleNode) : MerkleNode -> Prop :=
| occurs_here n : node_eq n target = true -> occurs target n
| occurs_left h l r d : occurs target l -> occurs target (Node h (Some l) r d)
| occurs_right h l r d : occurs target r -> occurs target (Node h l (Some r) d).

End WithHost.

(** [_get_node_height]: 1 on a leaf, else one more than the higher
    child. *)
Fixpoint _get_node_height (node : MerkleNode) : Z :=
  if is_leaf node then 1
  else
    match node with
    | Node _ node_left node_right _ =>
        let left_height :=
          match node_left with
          | Some l => _get_node_height l
          | None => 0
          end in
        let right_height :=
          match node_right with
          | Some r => _get_node_height r
          | None => 0
          end in
        Z.max left_height right_height + 1
    end.

Definition get_tree_height (t : MerkleTree) : Z :=
  match root t with
  | None => 0
  | Some r => _get_node_height r
  end.

(** The dict [get_statistics] returns. *)
Record statistics : Type := mkStats {
  transaction_count : Z;
  tree_height : Z;
  stats_merkle_root : option string;
  leaf_count : Z
}.

Definition get_statistics (t : MerkleTree) : statistics :=
  mkStats (Z.of_nat (length (transactions t))) (get_tree_height t)
          (get_merkle_root t) (Z.of_nat (length (leaves t))).

Section Rebuilding.

Context `{host : Host}.

(** [MerkleTree.add_transaction]: append the id and build the tree
    anew. *)
Definition add_transaction (t : MerkleTree) (tx_hash : string) : MerkleTree :=
  build_tree (transactions t ++ [tx_hash])%list.

(** A node all of whose leaves lie [k - 1] steps below it. *)
Inductive perfect : nat -> MerkleNode -> Prop :=
| perfect_leaf tx_hash : perfect 1 (make_leaf tx_hash)
| perfect_parent k l r :
    perfect k l -> perfect k r -> perfect (S k) (make_parent l r).

End Rebuilding.

End Merkle.

(** The class [SPVClient] of merkle_tree.py. *)
Module SPVClient.

(** One entry of [block_headers]. *)
Record header : Type := mkHeader {
  merkle_root : string;
  block_height : Z;
  timestamp : Z
}.

Record t : Type := mk {
  block_headers : gmap string header;
  merkle_proofs : gmap string Merkle.MerkleProof
}.

Definition new : t := mk ∅ ∅.

Definition add_block_header (c : t) (block_hash merkle_root : string)
    (block_height timestamp : Z) : t :=
  mk (<[block_hash := mkHeader merkle_root block_height timestamp]>
        (block_headers c))
     (merkle_proofs c).

Section WithHost.

Context `{host : Host}.

Definition verify_transaction_inclusion (c : t) (tx_hash block_hash : string)
    (merkle_proof : Merkle.MerkleProof) : bool :=
  match block_headers c !! block_hash with
  | None => false
  | Some block_header =>
      if negb (String.eqb (Merkle.merkle_root merkle_proof)
                          (merkle_root block_header))
      then false
      else if negb (Merkle.verify_merkle_proof merkle_proof) then false
      else if negb (String.eqb (Merkle.target_hash merkle_proof) tx_hash)
      then false
      else true
  end.

End WithHost.

End SPVClient.

(** ** utils.py *)

Module HashUtils.

Section WithHost.

Context `{host : Host}.

(** [calculate_sha256] on a string: [hashlib.sha256(s.encode()).hexdigest()]. *)
Definition calculate_sha256 (data_string : string) : string :=
  Merkle.hex (sha256 data_string).

(** [calculate_sha256] on a dict. *)
Definition calculate_sha256_dict (d : json) : string :=
  calculate_sha256 (json_dumps d).

Definition calculate_block_hash (index : Z) (merkle_root previous_hash
    timestamp : string) (nonce : Z) : string :=
  let block_data := JDict [
    ("index", JInt index);
    ("merkle_root", JStr merkle_root);
    ("previous_hash", JStr previous_hash);
    ("timestamp", JStr timestamp);
    ("nonce", JInt nonce)
  ] in
  calculate_sha256_dict block_data.

Definition calculate_transaction_hash (transaction_data : string) : string :=
  calculate_sha256 transaction_data.

End WithHost.

End HashUtils.

(** ** transaction.py *)

(** [f"{transaction_id}:{output_index}"] *)
Definition utxo_id_of (transaction_id : string) (output_index : Z) : string :=
  transaction_id +:+ ":" +:+ pretty output_index.

Module UTXO.

Record t : Type := mk {
  transaction_id : string;
  output_index : Z;
  amount : Q;
  recipient_address : string;
  is_spent : bool
}.

(** [UTXO(transaction_id, output_index, amount, recipient_address)] *)
Definition new (transaction_id : string) (output_index : Z) (amount : Q)
    (recipient_address : string) : t :=
  mk transaction_id output_index amount recipient_address false.

Definition get_utxo_id (u : t) : string :=
  utxo_id_of (transaction_id u) (output_index u).

End UTXO.

Module TransactionInput.

Record t : Type := mk {
  transaction_id : string;
  output_index : Z;
  signature : string;
  public_key : string
}.

Definition get_utxo_id (i : t) : string :=
  utxo_id_of (transaction_id i) (output_index i).

Definition to_dict (i : t) : json :=
  JDict [
    ("transaction_id", JStr (transaction_id i));
    ("output_index", JInt (output_index i));
    ("signature", JStr (signature i));
    ("public_key", JStr (public_key i))
  ].

End TransactionInput.

Module TransactionOutput.

Record t : Type := mk {
  amount : Q;
  recipient_address : string
}.

Definition to_dict (o : t) : json :=
  JDict [
    ("amount", JNum (amount o));
    ("recipient_address", JStr (recipient_address o))
  ].

End TransactionOutput.

(** The dict [UTXOSet.utxos], which [utxo_id in utxo_set] and
    [utxo_set[utxo_id]] read. *)
Abbreviation utxo_dict := (gmap string UTXO.t).

(** The record a transaction is persisted as ([Transaction.to_dict]); a
    dict met in a block may lack its ['transaction_id']. The keys
    ['inputs'], ['outputs'] and ['timestamp'] are always there: a dict
    without one of them, on which the source raises [KeyError], is not a
    value of this type. *)
Module TxDict.

Record t : Type := mk {
  transaction_id : option string;
  inputs : list TransactionInput.t;
  outputs : list TransactionOutput.t;
  timestamp : string;
  block_height : option Z
}.

Definition to_json (d : t) : json :=
  JDict (
    match transaction_id d with
    | Some i => [("transaction_id", JStr i)]
    | None => []
    end ++
    [("inputs", JList (map TransactionInput.to_dict (inputs d)));
     ("outputs", JList (map TransactionOutput.to_dict (outputs d)));
     ("timestamp", JStr (timestamp d))] ++
    match block_height d with
    | Some h => [("block_height", JInt h)]
    | None => []
    end)%list.

End TxDict.

Module Transaction.

Record t : Type := mk {
  inputs : list TransactionInput.t;
  outputs : list TransactionOutput.t;
  timestamp : string;
  block_height : option Z;
  transaction_id : string
}.

Definition is_coinbase (tx : t) : bool :=
  match inputs tx with
  | [] => true
  | _ =>
      forallb (fun input_tx =>
                 String.eqb (TransactionInput.transaction_id input_tx) "")
              (inputs tx)
  end.

Definition get_total_output_value (tx : t) : Q :=
  py_sum (map TransactionOutput.amount (outputs tx)).

(** The loop of [get_total_input_value]: add the amount of every input
    whose UTXO id is in the set. *)
Fixpoint add_input_values (utxo_set : utxo_dict)
    (ins : list TransactionInput.t) (total : Q) : Q :=
  match ins with
  | [] => total
  | input_tx :: rest =>
      let utxo_id := TransactionInput.get_utxo_id input_tx in
      match utxo_set !! utxo_id with
      | Some utxo => add_input_values utxo_set rest (total + UTXO.amount utxo)%Q
      | None => add_input_values utxo_set rest total
      end
  end.

Definition get_total_input_value (tx : t) (utxo_set : utxo_dict) : Q :=
  if is_coinbase tx then 0%Q
  else add_input_values utxo_set (inputs tx) 0%Q.

Definition calculate_fee (tx : t) (utxo_set : utxo_dict) : Q :=
  if is_coinbase tx then 0%Q
  else
    let total_input := get_total_input_value tx utxo_set in
    let total_output := get_total_output_value tx in
    py_max 0%Q (total_input - total_output)%Q.

(** The loop of [_validate_utxo_constraints]; [None] is its early
    [return False]. *)
Fixpoint sum_unspent_inputs (utxo_set : utxo_dict)
    (ins : list TransactionInput.t) (total_input : Q) : option Q :=
  match ins with
  | [] => Some total_input
  | input_tx :: rest =>
      let utxo_id := TransactionInput.get_utxo_id input_tx in
      match utxo_set !! utxo_id with
      | None => None
      | Some utxo =>
          if UTXO.is_spent utxo then None
          else sum_unspent_inputs utxo_set rest (total_input + UTXO.amount utxo)%Q
      end
  end.

Definition _validate_utxo_constraints (tx : t) (utxo_set : utxo_dict) : bool :=
  match sum_unspent_inputs utxo_set (inputs tx) 0%Q with
  | None => false
  | Some total_input =>
      let total_output := get_total_output_value tx in
      Qle_bool total_output total_input
  end.

Definition to_dict (tx : t) : TxDict.t :=
  TxDict.mk (Some (transaction_id tx)) (inputs tx) (outputs tx)
            (timestamp tx) (block_height tx).

Section WithHost.

Context `{host : Host}.

Definition signature_dict (ins : list TransactionInput.t)
    (outs : list TransactionOutput.t) (ts : string)
    (height : option Z) (coinbase : bool) : json :=
  JDict ([
    ("inputs",
     JList (map (fun inp =>
                   JDict [("transaction_id",
                           JStr (TransactionInput.transaction_id inp));
                          ("output_index",
                           JInt (TransactionInput.output_index inp))])
                ins));
    ("outputs", JList (map TransactionOutput.to_dict outs));
    ("timestamp", JStr ts)] ++
    match height with
    | Some h => if coinbase then [("block_height", JInt h)] else []
    | None => []
    end)%list.

Definition get_transaction_data_for_signature (tx : t) : string :=
  json_dumps (signature_dict (inputs tx) (outputs tx) (timestamp tx)
                             (block_height tx) (is_coinbase tx)).

Definition _calculate_hash (tx : t) : string :=
  HashUtils.calculate_transaction_hash
    (get_transaction_data_for_signature tx).

(** [Transaction(inputs, outputs, block_height)], the clock reading
    [str(int(time.time()))] passed as [now]. *)
Definition new (ins : list TransactionInput.t)
    (outs : list TransactionOutput.t) (height : option Z) (now : string) : t :=
  let fresh := mk ins outs now height "" in
  mk ins outs now height (_calculate_hash fresh).

Definition create_coinbase_transaction (miner_address : string)
    (reward : Q) (height : option Z) (now : string) : t :=
  let output := TransactionOutput.mk reward miner_address in
  new [] [output] height now.

Definition _get_input_signature_data (tx : t) (input_index : nat) : string :=
  let base_data := get_transaction_data_for_signature tx in
  base_data +:+ ":input_" +:+ pretty input_index.

Definition _verify_input_address (input_tx : TransactionInput.t)
    (utxo_set : utxo_dict) : bool :=
  let utxo_id := TransactionInput.get_utxo_id input_tx in
  match utxo_set !! utxo_id with
  | None => false
  | Some utxo =>
      let expected_address := UTXO.recipient_address utxo in
      let derived_address :=
        derive_address_from_public_key (TransactionInput.public_key input_tx) in
      String.eqb derived_address expected_address
  end.

(** The loop of [verify_signature] over [enumerate(self.inputs)]. *)
Fixpoint verify_inputs (tx : t) (utxo_set : option utxo_dict) (i : nat)
    (ins : list TransactionInput.t) : bool :=
  match ins with
  | [] => true
  | input_tx :: rest =>
      if String.eqb (TransactionInput.signature input_tx) ""
         || String.eqb (TransactionInput.public_key input_tx) ""
      then false
      else if match utxo_set with
              | Some s => negb (_verify_input_address input_tx s)
              | None => false
              end
      then false
      else if negb (verify_signature_static
                      (_get_input_signature_data tx i)
                      (TransactionInput.signature input_tx)
                      (TransactionInput.public_key input_tx))
      then false
      else verify_inputs tx utxo_set (S i) rest
  end.

Definition verify_signature (tx : t) (utxo_set : option utxo_dict) : bool :=
  if is_coinbase tx then true
  else verify_inputs tx utxo_set 0%nat (inputs tx).

(** [is_valid(utxo_set)]; a [UTXOSet] object is always truthy, so
    [Some s] stands for a supplied set and [None] for the default. *)
Definition is_valid (tx : t) (utxo_set : option utxo_dict) : bool :=
  match outputs tx with
  | [] => false
  | _ =>
      if existsb (fun output => Qle_bool (TransactionOutput.amount output) 0%Q)
                 (outputs tx)
      then false
      else if is_coinbase tx then (0 <? Z.of_nat (length (outputs tx)))
      else
        match inputs tx with
        | [] => false
        | _ =>
            if negb (verify_signature tx utxo_set) then false
            else if match utxo_set with
                    | Some s => negb (_validate_utxo_constraints tx s)
                    | None => false
                    end
            then false
            else true
        end
  end.

(** [Transaction.from_dict]. The constructor runs first, on the clock
    reading [now], and its timestamp and id are then overwritten from
    the dict; [None] is the [KeyError] of a dict without
    ['transaction_id']. *)
Definition from_dict (data : TxDict.t) (now : string) : option t :=
  let transaction :=
    new (TxDict.inputs data) (TxDict.outputs data) (TxDict.block_height data)
        now in
  match TxDict.transaction_id data with
  | None => None
  | Some transaction_id =>
      Some (mk (inputs transaction) (outputs transaction)
               (TxDict.timestamp data) (block_height transaction)
               transaction_id)
  end.

End WithHost.

(** The attributes of a [Wallet] that the ledger reads. *)
Record Wallet : Type := mkWallet {
  private_key_hex : string;
  public_key_hex : string;
  address : string
}.

Definition with_inputs (tx : t) (ins : list TransactionInput.t) : t :=
  mk ins (outputs tx) (timestamp tx) (block_height tx) (transaction_id tx).

Section Signing.

Context `{host : Host}.

(** [Wallet.sign_message]: the ECDSA signature, in hex, of a message
    under the wallet's private key. *)
Variable sign_message : string -> string -> string.

(** The loop of [sign_transaction] over [enumerate(self.inputs)]:
    [signed] are the inputs already given a signature, [todo] the ones
    still to come. *)
Fixpoint sign_inputs (wallet : Wallet) (tx : t)
    (signed todo : list TransactionInput.t) : t :=
  match todo with
  | [] => with_inputs tx signed
  | input_tx :: rest =>
      let current := with_inputs tx (signed ++ todo) in
      let input_data := _get_input_signature_data current (length signed) in
      let signature := sign_message (private_key_hex wallet) input_data in
      let input_tx' :=
        TransactionInput.mk (TransactionInput.transaction_id input_tx)
          (TransactionInput.output_index input_tx) signature
          (public_key_hex wallet) in
      sign_inputs wallet tx (signed ++ [input_tx']) rest
  end.

Definition sign_transaction (tx : t) (wallet : Wallet) : t :=
  if is_coinbase tx then tx
  else sign_inputs wallet tx [] (inputs tx).

(** The UTXO an input references. *)
Definition reference (input_tx : TransactionInput.t) : string * Z :=
  (TransactionInput.transaction_id input_tx,
   TransactionInput.output_index input_tx).

(** Input number [i] as [sign_transaction] leaves it. *)
Definition signed_input (wallet : Wallet) (tx : t) (i : nat)
    (input_tx : TransactionInput.t) : TransactionInput.t :=
  TransactionInput.mk (TransactionInput.transaction_id input_tx)
    (TransactionInput.output_index input_tx)
    (sign_message (private_key_hex wallet) (_get_input_signature_data tx i))
    (public_key_hex wallet).

End Signing.

End Transaction.

Module UTXOSet.

(** The object's one attribute, the dict [utxos]. *)
Abbreviation t := utxo_dict.

Definition empty : t := ∅.

Definition add_utxo (s : t) (utxo : UTXO.t) : t :=
  let utxo_id := UTXO.get_utxo_id utxo in
  <[utxo_id := utxo]> s.

Definition remove_utxo (s : t) (utxo_id : string) : t :=
  match s !! utxo_id with
  | Some _ => delete utxo_id s
  | None => s
  end.

Definition get_utxo (s : t) (utxo_id : string) : option UTXO.t :=
  s !! utxo_id.

Definition contains (s : t) (utxo_id : string) : bool :=
  bool_decide (is_Some (s !! utxo_id)).

(** The comprehension runs over the values in the map's order of keys,
    where Python runs in order of insertion. *)
Definition get_utxos_by_address (s : t) (address : string) : list UTXO.t :=
  List.filter
    (fun utxo => String.eqb (UTXO.recipient_address utxo) address
                 && negb (UTXO.is_spent utxo))
    (map snd (map_to_list s)).

Definition get_balance (s : t) (address : string) : Q :=
  py_sum (map UTXO.amount (get_utxos_by_address s address)).

(** First loop of [update_from_transaction]: the inputs' UTXOs are
    marked spent and deleted. *)
Fixpoint spend_inputs (s : t) (ins : list TransactionInput.t) : t :=
  match ins with
  | [] => s
  | input_tx :: rest =>
      let utxo_id := TransactionInput.get_utxo_id input_tx in
      match s !! utxo_id with
      | Some _ => spend_inputs (delete utxo_id s) rest
      | None => spend_inputs s rest
      end
  end.

(** Second loop, over [enumerate(transaction.outputs)] from [index]. *)
Fixpoint add_outputs (s : t) (transaction_id : string) (index : nat)
    (outs : list TransactionOutput.t) : t :=
  match outs with
  | [] => s
  | output :: rest =>
      let utxo :=
        UTXO.new transaction_id (Z.of_nat index)
                 (TransactionOutput.amount output)
                 (TransactionOutput.recipient_address output) in
      add_outputs (add_utxo s utxo) transaction_id (S index) rest
  end.

Definition update_from_transaction (s : t) (transaction : Transaction.t) : t :=
  let s1 := spend_inputs s (Transaction.inputs transaction) in
  add_outputs s1 (Transaction.transaction_id transaction) 0%nat
              (Transaction.outputs transaction).

(** The test of [get_utxos_by_address]. *)
Definition owned_unspent (address : string) (utxo : UTXO.t) : bool :=
  String.eqb (UTXO.recipient_address utxo) address && negb (UTXO.is_spent utxo).

(** Every UTXO is stored under its own id and is not marked spent. *)
Definition well_keyed (s : t) : Prop :=
  forall k utxo, s !! k = Some utxo ->
    UTXO.get_utxo_id utxo = k /\ UTXO.is_spent utxo = false.

End UTXOSet.

(** ** blockchain.py *)

Module Block.

Record t : Type := mk {
  index : Z;
  transactions : list TxDict.t;
  previous_hash : string;
  timestamp : string;
  nonce : Z;
  merkle_tree : option Merkle.MerkleTree;
  merkle_root : string;
  hash : string
}.

Definition set_nonce_hash (b : t) (n : Z) (h : string) : t :=
  mk (index b) (transactions b) (previous_hash b) (timestamp b) n
     (merkle_tree b) (merkle_root b) h.

Definition get_merkle_proof (b : t) (transaction_id : string)
  : Py.res (option Merkle.MerkleProof) :=
  match merkle_tree b with
  | None => Py.Ok None
  | Some tree => Merkle.get_merkle_proof tree transaction_id
  end.

Definition get_transaction_count (b : t) : Z :=
  Z.of_nat (length (transactions b)).

(** The dict of [Block.to_dict]; a dict read back may lack
    ['merkle_root'] and ['merkle_tree_stats']. *)
Record dict : Type := mkDict {
  d_index : Z;
  d_transactions : list TxDict.t;
  d_merkle_root : option string;
  d_previous_hash : string;
  d_timestamp : string;
  d_nonce : Z;
  d_hash : string;
  d_merkle_tree_stats : option Merkle.statistics
}.

Definition to_dict (b : t) : dict :=
  mkDict (index b) (transactions b) (Some (merkle_root b)) (previous_hash b)
         (timestamp b) (nonce b) (hash b)
         (match merkle_tree b with
          | Some tree => Some (Merkle.get_statistics tree)
          | None => None
          end).

Section WithHost.

Context `{host : Host}.

(** The loop of [_calculate_merkle_root]. The module never imports
    [hashlib], so the branch for a dict without ['transaction_id']
    stops at the name lookup, after [json.dumps] has run. *)
Fixpoint collect_hashes (txs : list TxDict.t) (transaction_hashes : list string)
  : Py.res (list string) :=
  match txs with
  | [] => Py.Ok transaction_hashes
  | tx_data :: rest =>
      match TxDict.transaction_id tx_data with
      | Some i => collect_hashes rest (transaction_hashes ++ [i])%list
      | None =>
          let tx_str := json_dumps (TxDict.to_json tx_data) in
          Py.Raise (Py.NameError "hashlib")
      end
  end.

(** Returns the tree stored in [self.merkle_tree] with the root. *)
Definition _calculate_merkle_root (txs : list TxDict.t)
  : Py.res (option Merkle.MerkleTree * string) :=
  match txs with
  | [] => Py.Ok (None, zeros 64)
  | _ =>
      transaction_hashes ← collect_hashes txs [];
      let tree := Merkle.new_tree transaction_hashes in
      Py.Ok (Some tree,
             match Merkle.get_merkle_root tree with
             | Some r => if String.eqb r "" then zeros 64 else r
             | None => zeros 64
             end)
  end.

Definition calculate_hash (b : t) : string :=
  HashUtils.calculate_block_hash (index b) (merkle_root b)
    (previous_hash b) (timestamp b) (nonce b).

(** [Block(index, transactions, previous_hash, timestamp, nonce)];
    [now] is the clock reading used when no timestamp is given. *)
Definition new (index : Z) (transactions : list TxDict.t)
    (previous_hash : string) (timestamp : option string) (nonce : Z)
    (now : string) : Py.res t :=
  let ts := match timestamp with
            | Some s => if String.eqb s "" then now else s
            | None => now
            end in
  tree_root ← _calculate_merkle_root transactions;
  let b := mk index transactions previous_hash ts nonce
              tree_root.1 tree_root.2 "" in
  Py.Ok (set_nonce_hash b nonce (calculate_hash b)).

Definition meets_target (difficulty : Z) (h : string) : bool :=
  String.eqb (str_prefix difficulty h) (zeros difficulty).

(** [mine_block]: [fuel] bounds the number of passes through the
    [while]; [None] when it runs out before the loop exits. *)
Fixpoint mine_block (fuel : nat) (difficulty : Z) (b : t) : option t :=
  if meets_target difficulty (hash b) then Some b
  else
    match fuel with
    | O => None
    | S fuel' =>
        let b1 := set_nonce_hash b (nonce b + 1) (hash b) in
        let b2 := set_nonce_hash b1 (nonce b1) (calculate_hash b1) in
        mine_block fuel' difficulty b2
    end.

Definition verify_transaction_inclusion (b : t) (transaction_id : string)
    (merkle_proof : Merkle.MerkleProof) : bool :=
  if negb (String.eqb (Merkle.merkle_root merkle_proof) (merkle_root b))
  then false
  else if negb (String.eqb (Merkle.target_hash merkle_proof) transaction_id)
  then false
  else Merkle.verify_merkle_proof merkle_proof.

(** [Block.from_dict] on the record below; an absent ['merkle_root']
    keeps the root the constructor computed. *)
Definition from_fields (index : Z) (transactions : list TxDict.t)
    (stored_root : option string) (previous_hash timestamp : string)
    (nonce : Z) (stored_hash : string) (now : string) : Py.res t :=
  block ← new index transactions previous_hash (Some timestamp) nonce now;
  let block := set_nonce_hash block (Block.nonce block) stored_hash in
  Py.Ok (mk (Block.index block) (Block.transactions block)
            (Block.previous_hash block) (Block.timestamp block)
            (Block.nonce block) (merkle_tree block)
            (match stored_root with
             | Some r => r
             | None => merkle_root block
             end)
            (hash block)).

(** One pass through the [while] body. *)
Definition next_try (b : t) : t :=
  let b1 := set_nonce_hash b (nonce b + 1) (hash b) in
  set_nonce_hash b1 (nonce b1) (calculate_hash b1).

(** The header hash of [b] with its nonce advanced [n] times. *)
Definition hash_at (b : t) (n : nat) : string :=
  calculate_hash (set_nonce_hash b (nonce b + Z.of_nat n) "").

Definition from_dict (data : dict) (now : string) : Py.res t :=
  from_fields (d_index data) (d_transactions data) (d_merkle_root data)
              (d_previous_hash data) (d_timestamp data) (d_nonce data)
              (d_hash data) now.

End WithHost.

End Block.

(** One dict of a history list ([_create_history_entry]). *)
Module HistoryEntry.

Record t : Type := mk {
  block_index : Z;
  transaction_id : string;
  inputs : nat;
  outputs : nat;
  sent_amount : Q;
  received_amount : Q;
  net_amount : Q;
  fee : Q;
  timestamp : string;
  type : string;
  is_coinbase : bool;
  from_address : option string;
  to_address : option string
}.

End HistoryEntry.

Module TransactionHistoryCache.

Record t : Type := mk {
  cache : gmap string (list HistoryEntry.t);
  last_block_index : Z
}.

Definition new : t := mk ∅ (-1).

Definition invalidate_cache (c : t) : t := mk ∅ (-1).

End TransactionHistoryCache.

Module Blockchain.

Record t : Type := mk {
  difficulty : Z;
  pending_transactions : list Transaction.t;
  mining_reward : Q;
  utxo_set : UTXOSet.t;
  history_cache : TransactionHistoryCache.t;
  transaction_index : gmap string (Z * nat);
  chain : list Block.t
}.

Definition set_pending (bc : t) (pending : list Transaction.t)
    (c : TransactionHistoryCache.t) : t :=
  mk (difficulty bc) pending (mining_reward bc) (utxo_set bc) c
     (transaction_index bc) (chain bc).

(** [pending_used_utxos]: the UTXO ids the mempool's inputs name. *)
Definition pending_used_utxos (pending : list Transaction.t) : gset string :=
  list_to_set
    (flat_map (fun pending_tx =>
                 map TransactionInput.get_utxo_id (Transaction.inputs pending_tx))
              pending).

(** The loop of [_validate_transaction_utxos] over the inputs; [None] is
    an early [return False]. *)
Fixpoint check_inputs (utxo_set : UTXOSet.t) (used : gset string)
    (ins : list TransactionInput.t) (total_input : Q) : option Q :=
  match ins with
  | [] => Some total_input
  | input_tx :: rest =>
      let utxo_id := TransactionInput.get_utxo_id input_tx in
      match utxo_set !! utxo_id with
      | None => None
      | Some utxo =>
          if bool_decide (utxo_id ∈ used) then None
          else if UTXO.is_spent utxo then None
          else check_inputs utxo_set used rest (total_input + UTXO.amount utxo)%Q
      end
  end.

Definition _validate_transaction_utxos (bc : t) (transaction : Transaction.t)
  : bool :=
  let used := pending_used_utxos (pending_transactions bc) in
  match check_inputs (utxo_set bc) used (Transaction.inputs transaction) 0%Q with
  | None => false
  | Some total_input =>
      let total_output :=
        py_sum (map TransactionOutput.amount (Transaction.outputs transaction)) in
      Qle_bool total_output total_input
  end.

Fixpoint _update_utxo_set (s : UTXOSet.t) (transactions : list Transaction.t)
  : UTXOSet.t :=
  match transactions with
  | [] => s
  | transaction :: rest =>
      _update_utxo_set (UTXOSet.update_from_transaction s transaction) rest
  end.

(** The loop of [_update_transaction_index] over
    [enumerate(block.transactions)] from [tx_index]. *)
Fixpoint index_transactions (idx : gmap string (Z * nat)) (block_index : Z)
    (tx_index : nat) (txs : list TxDict.t) : gmap string (Z * nat) :=
  match txs with
  | [] => idx
  | tx_data :: rest =>
      let idx' :=
        match TxDict.transaction_id tx_data with
        | Some transaction_id =>
            if String.eqb transaction_id "" then idx
            else <[transaction_id := (block_index, tx_index)]> idx
        | None => idx
        end in
      index_transactions idx' block_index (S tx_index) rest
  end.

Definition _update_transaction_index (idx : gmap string (Z * nat))
    (block : Block.t) : gmap string (Z * nat) :=
  index_transactions idx (Block.index block) 0%nat (Block.transactions block).

Definition get_balance (bc : t) (address : string) : Q :=
  UTXOSet.get_balance (utxo_set bc) address.

(** [self.chain[-1]]; the chain holds the genesis block from
    construction on. *)
Definition get_latest_block (bc : t) : option Block.t := last (chain bc).

Section WithHost.

Context `{host : Host}.

Definition add_transaction (bc : t) (transaction : Transaction.t) : bool * t :=
  if negb (Transaction.is_valid transaction (Some (utxo_set bc)))
  then (false, bc)
  else
    if match Transaction.inputs transaction with
       | [] => false
       | _ => negb (_validate_transaction_utxos bc transaction)
       end
    then (false, bc)
    else
      (true,
       set_pending bc (pending_transactions bc ++ [transaction])%list
         (TransactionHistoryCache.invalidate_cache (history_cache bc))).

Definition total_fees (bc : t) : Q :=
  py_sum (map (fun tx => Transaction.calculate_fee tx (utxo_set bc))
              (pending_transactions bc)).

(** The first two statements of [mine_pending_transactions]: the fees
    are summed and the coinbase transaction is created for the reward
    plus the fees, with the length of the chain as its block height. *)
Definition reward_transaction (now_tx : string) (bc : t)
    (mining_reward_address : string) : Transaction.t :=
  let total_fees := total_fees bc in
  Transaction.create_coinbase_transaction mining_reward_address
    (mining_reward bc + total_fees)%Q
    (Some (Z.of_nat (length (chain bc)))) now_tx.

(** [mine_pending_transactions]. [now_tx] and [now_block] are the two
    clock readings (coinbase transaction, block); [fuel] bounds the
    proof-of-work loop and the outer [None] means it ran out. On an
    empty chain [self.chain[-1]] raises; no ledger built by the
    constructor has one. *)
Definition mine_pending_transactions (fuel : nat) (now_tx now_block : string)
    (bc : t) (mining_reward_address : string)
  : option (Py.res (Block.t * t)) :=
  let height := Z.of_nat (length (chain bc)) in
  let reward_transaction := reward_transaction now_tx bc mining_reward_address in
  let transactions_data :=
    (map Transaction.to_dict (pending_transactions bc)
     ++ [Transaction.to_dict reward_transaction])%list in
  match get_latest_block bc with
  | None => Some (Py.Raise Py.IndexError)
  | Some latest =>
      match Block.new height transactions_data (Block.hash latest)
                      None 0 now_block with
      | Py.Raise e => Some (Py.Raise e)
      | Py.Ok block0 =>
          match Block.mine_block fuel (difficulty bc) block0 with
          | None => None
          | Some block =>
              let chain' := (chain bc ++ [block])%list in
              let utxo' :=
                _update_utxo_set (utxo_set bc)
                  (pending_transactions bc ++ [reward_transaction])%list in
              let index' :=
                _update_transaction_index (transaction_index bc) block in
              Some (Py.Ok (block,
                mk (difficulty bc) [] (mining_reward bc) utxo'
                   (TransactionHistoryCache.invalidate_cache (history_cache bc))
                   index' chain'))
          end
      end
  end.

(** The body of the [try] in [is_chain_valid] for one transaction dict;
    [false] is a [return False], also taken when [from_dict] raises. *)
Definition transaction_shape_ok (tx_data : TxDict.t) (now : string) : bool :=
  match Transaction.from_dict tx_data now with
  | None => false
  | Some transaction =>
      if match Transaction.inputs transaction with
         | [] => negb (Transaction.is_coinbase transaction)
         | _ => false
         end
      then false
      else if existsb (fun output =>
                         Qle_bool (TransactionOutput.amount output) 0%Q)
                      (Transaction.outputs transaction)
      then false
      else if Transaction.is_coinbase transaction
              && (Z.of_nat (length (Transaction.outputs transaction)) =? 0)
      then false
      else true
  end.

(** One pass of the loop of [is_chain_valid], for the block after
    [previous_block]. *)
Definition block_ok (difficulty : Z) (previous_block current_block : Block.t)
    (now : string) : bool :=
  if negb (String.eqb (Block.hash current_block)
                      (Block.calculate_hash current_block))
  then false
  else if negb (String.eqb (Block.previous_hash current_block)
                           (Block.hash previous_block))
  then false
  else if negb (String.eqb (str_prefix difficulty (Block.hash current_block))
                           (zeros difficulty))
  then false
  else forallb (fun tx_data => transaction_shape_ok tx_data now)
               (Block.transactions current_block).

(** [for i in range(1, len(self.chain))]. *)
Fixpoint blocks_ok (difficulty : Z) (previous_block : Block.t)
    (rest : list Block.t) (now : string) : bool :=
  match rest with
  | [] => true
  | current_block :: rest' =>
      if block_ok difficulty previous_block current_block now
      then blocks_ok difficulty current_block rest' now
      else false
  end.

(** [is_chain_valid]; [now] is the clock reading of the transactions it
    rebuilds. *)
Definition is_chain_valid (bc : t) (now : string) : bool :=
  match chain bc with
  | [] => true
  | first :: rest => blocks_ok (difficulty bc) first rest now
  end.

(** [Blockchain(difficulty, mining_reward)], with [create_genesis_block]
    and [_rebuild_transaction_index] in line; [now_tx] and [now_block]
    are the clock readings of the genesis transaction and block. *)
Definition new (difficulty : Z) (mining_reward : Q) (now_tx now_block : string)
  : Py.res t :=
  let genesis_transaction :=
    Transaction.create_coinbase_transaction "genesis" 0%Q None now_tx in
  genesis_block ←
    Block.new 0 [Transaction.to_dict genesis_transaction] "0" None 0 now_block;
  let genesis_block :=
    Block.set_nonce_hash genesis_block (Block.nonce genesis_block)
                         (Block.calculate_hash genesis_block) in
  let utxo_set := _update_utxo_set UTXOSet.empty [genesis_transaction] in
  let index := _update_transaction_index ∅ genesis_block in
  let chain := [genesis_block] in
  let index := fold_left _update_transaction_index chain ∅ in
  Py.Ok (mk difficulty [] mining_reward utxo_set TransactionHistoryCache.new
            index chain).

Definition verify_transaction_with_merkle_proof (bc : t)
    (transaction_id : string) (block_index : Z)
    (merkle_proof : Merkle.MerkleProof) : bool :=
  if (block_index <? 0) || (Z.of_nat (length (chain bc)) <=? block_index)
  then false
  else
    match chain bc !! Z.to_nat block_index with
    | Some block =>
        Block.verify_transaction_inclusion block transaction_id merkle_proof
    | None => false
    end.

End WithHost.

End Blockchain.

(** ** difficulty_adjustment.py *)

Module BlockHeader.

Record t : Type := mk {
  height : Z;
  timestamp : Q;
  difficulty : Q;
  target : string;
  hash_value : string;
  previous_hash : string;
  nonce : Z
}.

End BlockHeader.

Module DifficultyAdjustment.

Definition ADJUSTMENT_INTERVAL : Z := 2016.
Definition TARGET_TIMESPAN : Z := 14 * 24 * 60 * 60.
Definition TARGET_BLOCK_TIME : Z := 10 * 60.
Definition MAX_ADJUSTMENT_FACTOR : Q := 4.
Definition MIN_ADJUSTMENT_FACTOR : Q := 1 # 4.

(** One dict of [difficulty_history]. *)
Record adjustment_info : Type := mk_info {
  info_height : Z;
  info_timestamp : Q;
  old_difficulty : Q;
  new_difficulty : Q;
  actual_timespan : Q;
  target_timespan : Z;
  adjustment_ratio : Q;
  reason : string
}.

Record t : Type := mk {
  initial_difficulty : Q;
  block_headers : list BlockHeader.t;
  difficulty_history : list adjustment_info
}.

Definition new (initial_difficulty : Q) : t := mk initial_difficulty [] [].

Definition add_block_header (da : t) (header : BlockHeader.t) : t :=
  mk (initial_difficulty da) (block_headers da ++ [header])%list
     (difficulty_history da).

Definition should_adjust_difficulty (height : Z) : bool :=
  (0 <? height) && (height mod ADJUSTMENT_INTERVAL =? 0).

Definition find_block_by_height (da : t) (height : Z) : option BlockHeader.t :=
  List.find (fun header => BlockHeader.height header =? height)
            (block_headers da).

(** [_get_adjustment_reason]; the thresholds are 1.5, 1.1, 0.67 and 0.9. *)
Definition _get_adjustment_reason (ratio : Q) : string :=
  if negb (Qle_bool ratio (3 # 2)) then "网络算力下降，提高难度"
  else if negb (Qle_bool ratio (11 # 10)) then "网络算力轻微下降，小幅提高难度"
  else if negb (Qle_bool (67 # 100) ratio) then "网络算力大幅增加，降低难度"
  else if negb (Qle_bool (9 # 10) ratio) then "网络算力增加，小幅降低难度"
  else "网络算力稳定，微调难度".

(** [self.block_headers[-1].difficulty if self.block_headers else
    self.initial_difficulty] *)
Definition last_or_initial_difficulty (da : t) : Q :=
  match last (block_headers da) with
  | Some header => BlockHeader.difficulty header
  | None => initial_difficulty da
  end.

(** [a / b] on numbers: raises when [b] is zero. *)
Definition py_div (a b : Q) : Py.res Q :=
  if Qeq_bool b 0 then Py.Raise Py.ZeroDivisionError else Py.Ok (a / b)%Q.

(** [calculate_next_difficulty(current_height)]; [now] is [time.time()]
    for the history record. Returns the value and the object's state
    after the call. *)
Definition calculate_next_difficulty (da : t) (current_height : Z) (now : Q)
  : Py.res (Q * t) :=
  if negb (should_adjust_difficulty current_height) then
    Py.Ok (last_or_initial_difficulty da, da)
  else
    let adjustment_start_height := current_height - ADJUSTMENT_INTERVAL in
    match find_block_by_height da adjustment_start_height,
          find_block_by_height da (current_height - 1) with
    | Some start_block, Some end_block =>
        let actual_timespan :=
          (BlockHeader.timestamp end_block - BlockHeader.timestamp start_block)%Q in
        ratio ← py_div (inject_Z TARGET_TIMESPAN) actual_timespan;
        let adjustment_ratio :=
          py_max MIN_ADJUSTMENT_FACTOR (py_min MAX_ADJUSTMENT_FACTOR ratio) in
        let current_difficulty := BlockHeader.difficulty end_block in
        let new_difficulty := (current_difficulty * adjustment_ratio)%Q in
        let info :=
          mk_info current_height now current_difficulty new_difficulty
                  actual_timespan TARGET_TIMESPAN adjustment_ratio
                  (_get_adjustment_reason adjustment_ratio) in
        Py.Ok (new_difficulty,
               mk (initial_difficulty da) (block_headers da)
                  (difficulty_history da ++ [info])%list)
    | _, _ => Py.Ok (last_or_initial_difficulty da, da)
    end.

(** The dict [predict_next_adjustment] returns. *)
Record prediction : Type := mk_prediction {
  blocks_until_adjustment : Z;
  current_cycle_time : Q;
  estimated_total_cycle_time : Q;
  avg_block_time_this_cycle : Q;
  predicted_adjustment_ratio : Q;
  current_difficulty : Q;
  predicted_difficulty : Q;
  adjustment_direction : string
}.

(** [predict_next_adjustment]; the inner [None] is its [return None]. *)
Definition predict_next_adjustment (da : t) : Py.res (option prediction) :=
  match last (block_headers da) with
  | None => Py.Ok None
  | Some last_header =>
      let current_height := BlockHeader.height last_header in
      let blocks_until_adjustment :=
        ADJUSTMENT_INTERVAL - current_height mod ADJUSTMENT_INTERVAL in
      let blocks_until_adjustment :=
        if blocks_until_adjustment =? ADJUSTMENT_INTERVAL then 0
        else blocks_until_adjustment in
      let cycle_start_height :=
        current_height - current_height mod ADJUSTMENT_INTERVAL in
      match find_block_by_height da cycle_start_height with
      | None => Py.Ok None
      | Some cycle_start_block =>
          let current_cycle_time :=
            (BlockHeader.timestamp last_header
             - BlockHeader.timestamp cycle_start_block)%Q in
          let blocks_in_cycle := current_height - cycle_start_height + 1 in
          if 0 <? blocks_in_cycle then
            avg_time_per_block ←
              py_div current_cycle_time (inject_Z blocks_in_cycle);
            let estimated_cycle_time :=
              (avg_time_per_block * inject_Z ADJUSTMENT_INTERVAL)%Q in
            predicted_ratio ←
              py_div (inject_Z TARGET_TIMESPAN) estimated_cycle_time;
            let predicted_ratio :=
              py_max MIN_ADJUSTMENT_FACTOR
                     (py_min MAX_ADJUSTMENT_FACTOR predicted_ratio) in
            let current_difficulty := BlockHeader.difficulty last_header in
            let predicted_difficulty :=
              (current_difficulty * predicted_ratio)%Q in
            Py.Ok (Some
              (mk_prediction blocks_until_adjustment current_cycle_time
                 estimated_cycle_time avg_time_per_block predicted_ratio
                 current_difficulty predicted_difficulty
                 (if negb (Qle_bool predicted_ratio 1) then "increase"
                  else "decrease")))
          else Py.Ok None
      end
  end.

(** The spec's [clamp(x, lo, hi)]. *)
Definition clamp (x lo hi : Q) : Q :=
  if Qlt_le_dec x lo then lo
  else if Qlt_le_dec hi x then hi
  else x.

End DifficultyAdjustment.

(** ** A host to run the embedding on

    A stand-in for the imported functions, used where a statement is
    evaluated on data: the serialiser prints the value without sorting
    keys, the digest is the input behind a one-byte checksum (so that it
    has no collisions and the leading hex digits vary with the input), a
    signature is accepted when it is the key spelled backwards. *)

Module Demo.

Definition join (sep : string) (parts : list string) : string :=
  match parts with
  | [] => ""
  | p :: rest => fold_left (fun acc q => acc +:+ sep +:+ q) rest p
  end.

Fixpoint dumps (v : json) : string :=
  match v with
  | JNull => "null"
  | JInt n => pretty n
  | JNum q => pretty (Qnum q) +:+ "/" +:+ pretty (Zpos (Qden q))
  | JStr s => "'" +:+ s +:+ "'"
  | JList l => "[" +:+ join ", " (map dumps l) +:+ "]"
  | JDict d =>
      "{" +:+ join ", " (map (fun kv => "'" +:+ kv.1 +:+ "': " +:+ dumps kv.2) d)
          +:+ "}"
  end.

Fixpoint checksum (s : string) : N :=
  match s with
  | EmptyString => 0
  | String c rest => (N_of_ascii c + checksum rest) mod 256
  end%N.

Definition digest (s : string) : string :=
  String (ascii_of_N (checksum s)) s.

Definition host : Host := {|
  sha256 := digest;
  json_dumps := dumps;
  verify_signature_static := fun message sig key => String.eqb sig (String.rev key);
  derive_address_from_public_key := fun key => "addr-" +:+ key
|}.

(** A ledger in which the address of key ["key"] owns one output of 50,
    and two transactions that spend it. *)
Definition genesis : Block.t :=
  Block.mk 0 [] "0" "1700000000" 0 None (zeros 64) "00ab".

Definition ledger : Blockchain.t :=
  Blockchain.mk 1 [] 50
    {[ "t0:0" := UTXO.new "t0" 0 50 "addr-key" ]}
    TransactionHistoryCache.new ∅ [genesis].

Definition funding_input : TransactionInput.t :=
  TransactionInput.mk "t0" 0 "yek" "key".

Definition spend : Transaction.t :=
  Transaction.mk [funding_input]
    [TransactionOutput.mk 20 "bob"; TransactionOutput.mk 29 "addr-key"]
    "1700000100" None "t1".

Definition respend : Transaction.t :=
  Transaction.mk [funding_input] [TransactionOutput.mk 50 "carol"]
    "1700000101" None "t2".

(** A transaction record whose input names the transaction's own first
    output, as [Transaction.from_dict] builds from a dict saying so. *)
Definition own_output_input : TransactionInput.t :=
  TransactionInput.mk "a" 0 "" "".

Definition spends_own_output : Transaction.t :=
  Transaction.mk [own_output_input] [TransactionOutput.mk 5 "x"]
    "1700000103" None "a".

(** A block as [Block.from_dict] restores it from a record whose ['hash']
    is not the hash of the header. *)
Definition forged : Block.t :=
  Block.mk 1 [] "00ab" "1700010299" 7 None (zeros 64) "0".

(** A block with the header of [forged] at nonce 0 and its true hash, as
    the constructor leaves it. *)
Definition candidate : Block.t :=
  let b := Block.set_nonce_hash forged 0 "" in
  Block.set_nonce_hash b 0 (Block.calculate_hash (host := host) b).

(** Two output-only transactions, one restored with an empty id, and the
    ledger after the first is submitted twice and the second once. *)
Definition gift : Transaction.t :=
  Transaction.mk [] [TransactionOutput.mk 5 "x"] "1700000400" None "g".

Definition nameless : Transaction.t :=
  Transaction.mk [] [TransactionOutput.mk 5 "y"] "1700000401" None "".

Definition crowded : Blockchain.t :=
  Blockchain.set_pending ledger [gift; gift; nameless]
    TransactionHistoryCache.new.

(** The ledger with [spend] in the mempool. *)
Definition busy : Blockchain.t :=
  Blockchain.set_pending ledger [spend] TransactionHistoryCache.new.

(** The wallet of key ["key"], a signer that suits the host (the
    signature is the key backwards), and [spend] before it is signed. *)
Definition wallet : Transaction.Wallet :=
  Transaction.mkWallet "key" "key" "addr-key".

Definition signer (private_key message : string) : string :=
  String.rev private_key.


(** A transaction dict without ['transaction_id']. *)
Definition anonymous_dict : TxDict.t :=
  TxDict.mk None [] [TransactionOutput.mk 5 "x"] "1700000300" None.

(** Headers of a window of 2016 blocks whose first and last carry the
    same timestamp. *)
Definition first_header : BlockHeader.t :=
  BlockHeader.mk 0 1000 2 "00ff" "h0" "0" 0.

Definition last_header : BlockHeader.t :=
  BlockHeader.mk 2015 1000 2 "00ff" "h2015" "h2014" 0.

Definition stalled : DifficultyAdjustment.t :=
  DifficultyAdjustment.mk 1 [first_header; last_header] [].


(** A window of 2016 blocks that took exactly two weeks. *)
Definition punctual_header : BlockHeader.t :=
  BlockHeader.mk 2015 1210600 2 "00ff" "h2015" "h2014" 0.

Definition on_time : DifficultyAdjustment.t :=
  DifficultyAdjustment.mk 1 [first_header; punctual_header] [].

(** A transaction without outputs, which [is_valid] refuses. *)
Definition hollow : Transaction.t :=
  Transaction.mk [funding_input] [] "1700000102" None "t3".

End Demo.

(** ** The specification's vocabulary *)

Module Spec.

(** The sum of a list of amounts. *)
Definition total (xs : list Q) : Q := fold_right Qplus 0%Q xs.

Definition output_amounts (tx : Transaction.t) : list Q :=
  map TransactionOutput.amount (Transaction.outputs tx).

(** What the unspent UTXOs of [address] among [utxos] add up to. *)
Definition balance_of (address : string) (utxos : list UTXO.t) : Q :=
  total (map UTXO.amount
             (List.filter (UTXOSet.owned_unspent address) utxos)).

(** What a list of UTXOs adds up to. *)
Definition funds (utxos : list UTXO.t) : Q := total (map UTXO.amount utxos).

End Spec.

(** ** Amounts in binary64

    The ledger above takes an amount as a rational number, which is
    enough where a result does not depend on how a sum is rounded. The
    source computes with Python floats, IEEE 754 binary64 numbers, and
    here the functions whose results do depend on the rounding are
    embedded over [float]: [a + b] is [PrimFloat.add a b] and [a - b] is
    [PrimFloat.sub a b], both rounded to nearest, ties to even; [a >= b]
    is [PrimFloat.leb b a] and [a < b] is [PrimFloat.ltb a b], both
    false as soon as one side is NaN. *)

Module Binary64.

(** [max(a, b)]: the first argument unless the second is greater. *)
Definition py_max (a b : float) : float := if PrimFloat.ltb a b then b else a.

(** [a >= b] *)
Definition py_ge (a b : float) : bool := PrimFloat.leb b a.

Module UTXO.

Record t : Type := mk {
  transaction_id : string;
  output_index : Z;
  amount : float;
  recipient_address : string;
  is_spent : bool
}.

Definition get_utxo_id (u : t) : string :=
  utxo_id_of (transaction_id u) (output_index u).

End UTXO.

Module TransactionOutput.

Record t : Type := mk {
  amount : float;
  recipient_address : string
}.

End TransactionOutput.

(** The dict [UTXOSet.utxos], which [utxo_id in utxo_set] and
    [utxo_set[utxo_id]] read. *)
Abbreviation utxo_dict := (gmap string UTXO.t).

Module Transaction.

Record t : Type := mk {
  inputs : list TransactionInput.t;
  outputs : list TransactionOutput.t;
  timestamp : string;
  block_height : option Z;
  transaction_id : string
}.

Definition is_coinbase (tx : t) : bool :=
  match inputs tx with
  | [] => true
  | _ =>
      forallb (fun input_tx =>
                 String.eqb (TransactionInput.transaction_id input_tx) "")
              (inputs tx)
  end.

Section Builtins.

(** The builtin [sum] on a list of floats. CPython adds from 0, left to
    right; from version 3.12 on it also carries a compensation for the
    rounding errors, so what it returns depends on the interpreter. The
    functions below take it as it is. *)
Variable sum : list float -> float.

Definition get_total_output_value (tx : t) : float :=
  sum (map TransactionOutput.amount (outputs tx)).

(** The loop of [get_total_input_value], which starts from [0.0]: add
    the amount of every input whose UTXO id is in the set. *)
Fixpoint add_input_values (utxo_set : utxo_dict)
    (ins : list TransactionInput.t) (total : float) : float :=
  match ins with
  | [] => total
  | input_tx :: rest =>
      let utxo_id := TransactionInput.get_utxo_id input_tx in
      match utxo_set !! utxo_id with
      | Some utxo =>
          add_input_values utxo_set rest
                           (PrimFloat.add total (UTXO.amount utxo))
      | None => add_input_values utxo_set rest total
      end
  end.

Definition get_total_input_value (tx : t) (utxo_set : utxo_dict) : float :=
  if is_coinbase tx then 0%float
  else add_input_values utxo_set (inputs tx) 0%float.

Definition calculate_fee (tx : t) (utxo_set : utxo_dict) : float :=
  if is_coinbase tx then 0%float
  else
    let total_input := get_total_input_value tx utxo_set in
    let total_output := get_total_output_value tx in
    py_max 0%float (PrimFloat.sub total_input total_output).

(** The loop of [_validate_utxo_constraints]; [None] is its early
    [return False]. *)
Fixpoint sum_unspent_inputs (utxo_set : utxo_dict)
    (ins : list TransactionInput.t) (total_input : float) : option float :=
  match ins with
  | [] => Some total_input
  | input_tx :: rest =>
      let utxo_id := TransactionInput.get_utxo_id input_tx in
      match utxo_set !! utxo_id with
      | None => None
      | Some utxo =>
          if UTXO.is_spent utxo then None
          else sum_unspent_inputs utxo_set rest
                 (PrimFloat.add total_input (UTXO.amount utxo))
      end
  end.

Definition _validate_utxo_constraints (tx : t) (utxo_set : utxo_dict) : bool :=
  match sum_unspent_inputs utxo_set (inputs tx) 0%float with
  | None => false
  | Some total_input =>
      let total_output := get_total_output_value tx in
      py_ge total_input total_output
  end.

End Builtins.

End Transaction.




Module UTXOFilter.


End UTXOFilter.

Module UTXOSet.

(** [values] is [self.utxos.values()], the UTXOs of the dict in the
    order in which their keys were first inserted. *)
Definition get_utxos_by_address (values : list UTXO.t) (address : string)
  : list UTXO.t :=
  List.filter
    (fun utxo => String.eqb (UTXO.recipient_address utxo) address
                 && negb (UTXO.is_spent utxo))
    values.


End UTXOSet.

(** The specification's vocabulary, in binary64. *)
Module Spec.

(** The sum of a list of amounts taken from [0.0], left to right, every
    partial sum rounded. *)
Definition running_sum (xs : list float) : float :=
  fold_left PrimFloat.add xs 0%float.

(** The amounts of the UTXOs in [s] that the inputs of [tx] reference,
    one per input whose UTXO id is in [s]. *)
Definition referenced_amounts (s : utxo_dict) (tx : Transaction.t)
  : list float :=
  omap (fun input_tx =>
          UTXO.amount <$> s !! TransactionInput.get_utxo_id input_tx)
       (Transaction.inputs tx).

Definition output_amounts (tx : Transaction.t) : list float :=
  map TransactionOutput.amount (Transaction.outputs tx).

(** The fee as the specification words it; the inputs are summed as
    they come, the outputs by the builtin [sum]. *)
Definition fee (sum : list float -> float) (tx : Transaction.t) (s : utxo_dict)
  : float :=
  if Transaction.is_coinbase tx then 0%float
  else py_max 0%float
         (PrimFloat.sub (running_sum (referenced_amounts s tx))
                        (sum (output_amounts tx))).

(** What a list of UTXOs adds up to, in the order of the list. *)
Definition funds (utxos : list UTXO.t) : float :=
  running_sum (map UTXO.amount utxos).

End Spec.

(** Data to run the binary64 functions on. *)
Module Demo.

Definition utxo (transaction_id : string) (amount : float) : UTXO.t :=
  UTXO.mk transaction_id 0 amount "w" false.




(** A UTXO of 1e16 and a transaction that pays out 1e16 and 1.0 from
    it. *)
Definition hoard : utxo_dict :=
  {[ "h:0" := utxo "h" 10000000000000000%float ]}.

Definition overdraw : Transaction.t :=
  Transaction.mk [TransactionInput.mk "h" 0 "" ""]
    [TransactionOutput.mk 10000000000000000%float "v";
     TransactionOutput.mk 1%float "v"] "1700000000" None "o".


End Demo.

End Binary64.

(** * Properties *)

(** ** Strings *)

Lemma str_app_cons (c : ascii) (a b : string) :
  String c a +:+ b = String c (a +:+ b).
Proof. reflexivity. Qed.

Lemma str_length_app (a b : string) :
  String.length (a +:+ b) = (String.length a + String.length b)%nat.
Proof.
  induction a as [|c a IH]; [done|].
  rewrite str_app_cons. cbn [String.length Nat.add]. by rewrite IH.
Qed.

Lemma str_app_inj_l (s a b : string) : s +:+ a = s +:+ b -> a = b.
Proof.
  induction s as [|c s IH]; [done|].
  rewrite !str_app_cons. intros [= E]. by apply IH.
Qed.

Lemma str_app_inj_r (s a b : string) : a +:+ s = b +:+ s -> a = b.
Proof.
  revert b. induction a as [|c a IH]; intros [|c' b] E.
  - done.
  - apply (f_equal String.length) in E.
    rewrite !str_length_app in E. cbn [String.length] in E. lia.
  - apply (f_equal String.length) in E.
    rewrite !str_length_app in E. cbn [String.length] in E. lia.
  - rewrite !str_app_cons in E. injection E as -> E. f_equal. by apply IH.
Qed.

(** ** Merkle trees *)

Section MerkleFacts.

Context `{host : Host}.

Lemma node_eq_hash a b :
  Merkle.node_eq a b = true -> Merkle.hash_value a = Merkle.hash_value b.
Proof.
  destruct a as [h1 l1 r1 d1], b as [h2 l2 r2 d2]; simpl.
  rewrite !andb_true_iff. intros [[[Hh _] _] _].
  by apply String.eqb_eq.
Qed.

Lemma node_eq_leaf tx_hash :
  Merkle.node_eq (Merkle.make_leaf tx_hash) (Merkle.make_leaf tx_hash) = true.
Proof.
  unfold Merkle.make_leaf; simpl. by rewrite !String.eqb_refl.
Qed.

Lemma climb_snoc c hs ds h d :
  length hs = length ds ->
  Merkle.climb c (hs ++ [h]) (ds ++ [d])
  = Merkle._double_sha256 (Merkle.combine_step (Merkle.climb c hs ds) h d).
Proof.
  revert c ds. induction hs as [|x hs IH]; intros c [|y ds] Hlen;
    simpl in *; try discriminate; [reflexivity|].
  apply IH. lia.
Qed.

Lemma build_proof_path_unfold node target acc :
  Merkle._build_proof_path node target acc =
  if Merkle.node_eq node target then (true, acc)
  else if Merkle.is_leaf node then (false, acc)
  else
    let in_left :=
      match Merkle.left node with
      | Some l => Merkle._build_proof_path l target acc
      | None => (false, acc)
      end in
    if in_left.1 then
      (true, match Merkle.right node with
             | Some r => Merkle.push in_left.2 (Merkle.hash_value r) true
             | None => in_left.2
             end)
    else
      let in_right :=
        match Merkle.right node with
        | Some r => Merkle._build_proof_path r target in_left.2
        | None => (false, in_left.2)
        end in
      if in_right.1 then
        (true, match Merkle.left node with
               | Some l => Merkle.push in_right.2 (Merkle.hash_value l) false
               | None => in_right.2
               end)
      else (false, in_right.2).
Proof. destruct node; reflexivity. Qed.

Lemma path_found_here n target (acc : list string * list bool) :
  Merkle.node_eq n target = true ->
  exists (hs : list string) (ds : list bool),
    acc = ((acc.1 ++ hs)%list, (acc.2 ++ ds)%list)
    /\ length hs = length ds
    /\ Merkle.climb (Merkle.hash_value target) hs ds = Merkle.hash_value n.
Proof.
  intros E. exists [], []. rewrite !app_nil_r.
  split; [by destruct acc|]. split; [done|].
  simpl. symmetry. by apply node_eq_hash.
Qed.

(** A failed search leaves the lists alone; a successful one appends a
    path along which [climb] goes from the target's hash to the hash of
    the node searched. *)
Lemma build_proof_path_spec n target acc :
  Merkle.built n ->
  let r := Merkle._build_proof_path n target acc in
  (r.1 = false -> r.2 = acc)
  /\ (r.1 = true ->
      exists hs ds,
        r.2 = ((acc.1 ++ hs)%list, (acc.2 ++ ds)%list)
        /\ length hs = length ds
        /\ Merkle.climb (Merkle.hash_value target) hs ds = Merkle.hash_value n).
Proof.
  intros Hb. revert acc. induction Hb as [tx|l r Hl IHl Hr IHr]; intros acc;
    cbv zeta; rewrite build_proof_path_unfold.
  - destruct (Merkle.node_eq _ target) eqn:E.
    + split; [done|]. intros _. by apply path_found_here.
    + cbn. split; [done|discriminate].
  - destruct (Merkle.node_eq _ target) eqn:E.
    + split; [done|]. intros _. by apply path_found_here.
    + cbn [Merkle.is_leaf Merkle.left Merkle.right Merkle.make_parent].
      cbv zeta.
      destruct (IHl acc) as [IHlf IHlt].
      destruct (Merkle._build_proof_path l target acc) as [[|] accl] eqn:El;
        cbn [fst snd] in *.
      * split; [discriminate|]. intros _.
        destruct (IHlt eq_refl) as (hs & ds & -> & Hlen & Hc).
        exists (hs ++ [Merkle.hash_value r])%list, (ds ++ [true])%list.
        unfold Merkle.push; cbn [fst snd]. rewrite !app_assoc.
        split; [done|]. split; [rewrite !length_app; simpl; lia|].
        rewrite climb_snoc by done. rewrite Hc. reflexivity.
      * rewrite (IHlf eq_refl).
        destruct (IHr acc) as [IHrf IHrt].
        destruct (Merkle._build_proof_path r target acc) as [[|] accr] eqn:Er;
          cbn [fst snd] in *.
        -- split; [discriminate|]. intros _.
           destruct (IHrt eq_refl) as (hs & ds & -> & Hlen & Hc).
           exists (hs ++ [Merkle.hash_value l])%list, (ds ++ [false])%list.
           unfold Merkle.push; cbn [fst snd]. rewrite !app_assoc.
           split; [done|]. split; [rewrite !length_app; simpl; lia|].
           rewrite climb_snoc by done. rewrite Hc. reflexivity.
        -- split; [|discriminate]. intros _. by apply IHrf.
Qed.

Lemma build_proof_path_finds n target acc :
  Merkle.built n -> Merkle.occurs target n ->
  (Merkle._build_proof_path n target acc).1 = true.
Proof.
  intros Hb Ho. revert acc.
  induction Ho as [n E|h l r d Ho IH|h l r d Ho IH]; intros acc;
    rewrite build_proof_path_unfold.
  - by rewrite E.
  - inversion Hb as [|l' r' Hl Hr]; subst.
    destruct (Merkle.node_eq _ target); [done|].
    cbn [Merkle.is_leaf Merkle.left Merkle.right]. cbv zeta.
    by rewrite (IH Hl acc).
  - inversion Hb as [|l' r' Hl Hr]; subst.
    destruct (Merkle.node_eq _ target); [done|].
    cbn [Merkle.is_leaf Merkle.left Merkle.right]. cbv zeta.
    destruct (build_proof_path_spec l' target acc Hl) as [Hf _].
    destruct (Merkle._build_proof_path l' target acc) as [[|] accl];
      cbn [fst snd] in *; [done|].
    rewrite (Hf eq_refl). by rewrite (IH Hr acc).
Qed.

Lemma pair_ind (A : Type) (P : list A -> Prop) :
  P [] -> (forall a, P [a]) -> (forall a b l, P l -> P (a :: b :: l)) ->
  forall l, P l.
Proof.
  intros H0 H1 H2.
  refine (fix go l := match l with
                      | [] => H0
                      | [a] => H1 a
                      | a :: b :: rest => H2 a b rest (go rest)
                      end).
Qed.

Lemma next_level_built level :
  Forall Merkle.built level -> Forall Merkle.built (Merkle.next_level level).
Proof.
  induction level as [|a|a b rest IH] using pair_ind; intros Hall; simpl.
  - constructor.
  - inversion_clear Hall. repeat constructor; done.
  - inversion_clear Hall as [|? ? Ha Hrest].
    inversion_clear Hrest as [|? ? Hb Hrest'].
    constructor; [by constructor | by apply IH].
Qed.

Lemma occurs_parent target l r :
  Merkle.occurs target l \/ Merkle.occurs target r ->
  Merkle.occurs target (Merkle.make_parent l r).
Proof.
  intros [Ho|Ho]; [by apply Merkle.occurs_left | by apply Merkle.occurs_right].
Qed.

Lemma next_level_occurs target level :
  Exists (Merkle.occurs target) level ->
  Exists (Merkle.occurs target) (Merkle.next_level level).
Proof.
  induction level as [|a|a b rest IH] using pair_ind; intros Hex; simpl.
  - inversion Hex.
  - inversion_clear Hex as [? ? Ha|? ? Hn]; [|inversion Hn].
    apply Exists_cons_hd, occurs_parent. by left.
  - inversion_clear Hex as [? ? Ha|? ? Hrest].
    { apply Exists_cons_hd, occurs_parent. by left. }
    inversion_clear Hrest as [? ? Hb|? ? Hrest'].
    { apply Exists_cons_hd, occurs_parent. by right. }
    apply Exists_cons_tl. by apply IH.
Qed.

Lemma next_level_nonempty level :
  level <> [] -> Merkle.next_level level <> [].
Proof. by destruct level as [|a [|b rest]]. Qed.

(** The [while] loop ends with one node, the root, which is built from
    the leaves and still holds every leaf. *)
Lemma reduce_levels_spec target level :
  level <> [] ->
  Forall Merkle.built level ->
  Exists (Merkle.occurs target) level ->
  exists r,
    Merkle.reduce_levels level = [r] /\ Merkle.built r /\ Merkle.occurs target r.
Proof.
  funelim (Merkle.reduce_levels level); intros Hne Hall Hex.
  - destruct current_level as [|r [|b rest]]; [done| |simpl in *; lia].
    exists r. split; [done|].
    inversion_clear Hall. inversion_clear Hex as [? ? Hr|? ? Hn];
      [done | inversion Hn].
  - match goal with
    | IH : forall _ : Merkle.MerkleNode, _ |- _ => apply IH
    end.
    + by apply next_level_nonempty.
    + by apply next_level_built.
    + by apply next_level_occurs.
Qed.

Lemma find_leaf (txs : list string) (id : string) :
  id ∈ txs ->
  List.find (Merkle.leaf_has_data id) (map Merkle.make_leaf txs)
  = Some (Merkle.make_leaf id).
Proof.
  induction txs as [|x txs IH]; intros Hin; [by apply elem_of_nil in Hin|].
  simpl. unfold Merkle.leaf_has_data at 1. simpl.
  destruct (String.eqb x id) eqn:E.
  - apply String.eqb_eq in E. by subst.
  - apply IH. apply elem_of_cons in Hin as [->|Hin]; [|done].
    by rewrite String.eqb_refl in E.
Qed.

Lemma existsb_eqb (txs : list string) (id : string) :
  id ∈ txs -> existsb (String.eqb id) txs = true.
Proof.
  intros Hin. apply existsb_exists. exists id.
  split; [by apply list_elem_of_In | apply String.eqb_refl].
Qed.

Lemma combine_step_inj_current c c' h d :
  Merkle.combine_step c h d = Merkle.combine_step c' h d -> c = c'.
Proof.
  destruct d; simpl; [apply str_app_inj_r | apply str_app_inj_l].
Qed.

Lemma combine_step_inj_sibling c h h' d :
  Merkle.combine_step c h d = Merkle.combine_step c h' d -> h = h'.
Proof.
  destruct d; simpl; [apply str_app_inj_l | apply str_app_inj_r].
Qed.

(** Two climbs that start apart stay apart unless a level collides. *)
Lemma climb_diverges hs ds c c' :
  c <> c' ->
  (forall i x y,
     Merkle.climb_inputs c hs ds !! i = Some x ->
     Merkle.climb_inputs c' hs ds !! i = Some y ->
     Merkle._double_sha256 x = Merkle._double_sha256 y -> x = y) ->
  Merkle.climb c hs ds <> Merkle.climb c' hs ds.
Proof.
  revert ds c c'. induction hs as [|h hs IH]; intros [|d ds] c c' Hne Hfree;
    simpl; try done.
  apply IH.
  - intros E. apply Hne.
    apply (combine_step_inj_current _ _ h d).
    by apply (Hfree 0%nat).
  - intros i x y Hx Hy. by apply (Hfree (S i)).
Qed.

Lemma climb_tampered hs ds c k h h' :
  hs !! k = Some h -> h' <> h -> (k < length ds)%nat ->
  (forall i x y,
     Merkle.climb_inputs c hs ds !! i = Some x ->
     Merkle.climb_inputs c (<[k:=h']> hs) ds !! i = Some y ->
     Merkle._double_sha256 x = Merkle._double_sha256 y -> x = y) ->
  Merkle.climb c (<[k:=h']> hs) ds <> Merkle.climb c hs ds.
Proof.
  revert ds c k. induction hs as [|x hs IH]; intros [|d ds] c [|k] Hk Hne Hlen Hfree;
    simpl in *; try done; try lia.
  - injection Hk as ->.
    apply climb_diverges.
    + intros E. apply Hne. apply (combine_step_inj_sibling c _ _ d).
      symmetry. by apply (Hfree 0%nat).
    + intros i a b Ha Hb E. symmetry. apply (Hfree (S i)); done.
  - apply IH; [done|done|lia|].
    intros i a b Ha Hb. by apply (Hfree (S i)).
Qed.

End MerkleFacts.

(** C2. For a list of transaction ids and any id in it, [get_merkle_proof]
    on the tree built from the list returns a proof that
    [verify_merkle_proof] accepts; and a proof that differs from it in one
    element of [proof_hashes] is rejected, as long as the double SHA-256
    of the two verifications does not collide at some level. Neither half
    needs the ids to be distinct, nor the replacement to be 64 hex
    digits. *)
Theorem merkle_proof_round_trip `{host : Host} (txs : list string) (id : string) :
  id ∈ txs ->
  exists p,
    Merkle.get_merkle_proof (Merkle.new_tree txs) id = Py.Ok (Some p)
    /\ Merkle.verify_merkle_proof p = true
    /\ forall (k : nat) (h h' : string),
         Merkle.proof_hashes p !! k = Some h ->
         h' <> h ->
         let q := Merkle.with_proof_hashes p (<[k := h']> (Merkle.proof_hashes p)) in
         Merkle.no_collision p q ->
         Merkle.verify_merkle_proof q = false.
Proof.
  intros Hin.
  assert (Hne : txs <> []) by (intros ->; by apply elem_of_nil in Hin).
  set (target := Merkle.make_leaf id).
  destruct (reduce_levels_spec target (map Merkle.make_leaf txs))
    as (r & Hr & Hbuilt & Hocc).
  - by destruct txs.
  - apply Forall_forall. intros n Hn. apply list_elem_of_In, in_map_iff in Hn.
    destruct Hn as (x & <- & _). constructor.
  - apply Exists_exists. exists target. split.
    + apply list_elem_of_In, in_map. by apply list_elem_of_In.
    + apply Merkle.occurs_here, node_eq_leaf.
  - pose proof (build_proof_path_finds r target ([], []) Hbuilt Hocc) as Hfound.
    destruct (build_proof_path_spec r target ([], []) Hbuilt) as [_ Hpath].
    destruct (Hpath Hfound) as (hs & ds & Hacc & Hlen & Hclimb).
    simpl in Hacc.
    exists (Merkle.mkProof id (Merkle.hash_value r) hs ds).
    split; [|split].
    + unfold Merkle.get_merkle_proof, Merkle.new_tree, Merkle.build_tree.
      destruct txs as [|x txs']; [done|].
      cbn [Merkle.transactions Merkle.leaves Merkle.root].
      rewrite existsb_eqb by done. cbn [negb].
      rewrite find_leaf by done. rewrite Hr. cbn [head].
      fold target. by rewrite Hacc.
    + unfold Merkle.verify_merkle_proof; simpl.
      change (Merkle._double_sha256 id) with (Merkle.hash_value target).
      rewrite Hclimb. apply String.eqb_refl.
    + intros k h h' Hk Hh q Hfree. subst q.
      unfold Merkle.verify_merkle_proof, Merkle.with_proof_hashes; simpl in *.
      apply String.eqb_neq.
      change (Merkle._double_sha256 id) with (Merkle.hash_value target) in *.
      rewrite <- Hclimb.
      apply climb_tampered with (h := h); [done|done| |].
      * rewrite <- Hlen. by apply lookup_lt_Some in Hk.
      * intros i x y Hx Hy. by apply (Hfree i).
Qed.

Lemma merkle_proof_round_trip_witness :
  exists p,
    Merkle.get_merkle_proof (Merkle.new_tree (host := Demo.host) ["a"; "b"; "c"]) "c"
    = Py.Ok (Some p)
    /\ Merkle.verify_merkle_proof (host := Demo.host) p = true
    /\ Merkle.verify_merkle_proof (host := Demo.host)
         (Merkle.with_proof_hashes p (<[0%nat := "c66364"]> (Merkle.proof_hashes p)))
       = false.
Proof.
  destruct (merkle_proof_round_trip (host := Demo.host) ["a"; "b"; "c"] "c")
    as (p & Hget & Hver & Htamper).
  - apply list_elem_of_In. simpl. tauto.
  - exists p. split; [exact Hget|]. split; [exact Hver|].
    vm_compute in Hget. injection Hget as <-.
    apply (Htamper 0%nat "c66363" "c66364").
    + reflexivity.
    + discriminate.
    + intros i x y Hx Hy E.
      destruct i as [|[|i]]; vm_compute in Hx, Hy; try discriminate;
        injection Hx as <-; injection Hy as <-;
        vm_compute in E; discriminate E.
Defined.

(** ** The mempool *)

Section MempoolFacts.

Context `{host : Host}.

Lemma pending_used_utxos_spec (pending : list Transaction.t) (u : string) :
  u ∈ Blockchain.pending_used_utxos pending <->
  exists tx input_tx,
    tx ∈ pending /\ input_tx ∈ Transaction.inputs tx
    /\ TransactionInput.get_utxo_id input_tx = u.
Proof.
  unfold Blockchain.pending_used_utxos.
  rewrite elem_of_list_to_set, list_elem_of_In, in_flat_map. split.
  - intros (tx & Htx & Hu). apply in_map_iff in Hu as (i & <- & Hi).
    exists tx, i. by rewrite !list_elem_of_In.
  - intros (tx & i & Htx & Hi & <-). exists tx.
    rewrite <- list_elem_of_In. split; [done|].
    apply in_map. by apply list_elem_of_In.
Qed.

(** Inputs that pass the loop of [_validate_transaction_utxos] are in
    the UTXO set, unspent, and named by no pending transaction. *)
Lemma check_inputs_Some utxo_set used ins total total' :
  Blockchain.check_inputs utxo_set used ins total = Some total' ->
  forall input_tx, input_tx ∈ ins ->
    let utxo_id := TransactionInput.get_utxo_id input_tx in
    (utxo_id ∉ used)
    /\ exists utxo, utxo_set !! utxo_id = Some utxo /\ UTXO.is_spent utxo = false.
Proof.
  revert total. induction ins as [|i ins IH]; intros total Hc x Hx.
  { by apply elem_of_nil in Hx. }
  simpl in Hc.
  destruct (utxo_set !! TransactionInput.get_utxo_id i) as [utxo|] eqn:Hu;
    [|done].
  case_bool_decide as Hused; [done|].
  destruct (UTXO.is_spent utxo) eqn:Hs; [done|].
  apply elem_of_cons in Hx as [->|Hx].
  - split; [done|]. by exists utxo.
  - by apply (IH _ Hc).
Qed.

Lemma add_transaction_accepted (bc : Blockchain.t) (tx : Transaction.t) :
  (Blockchain.add_transaction bc tx).1 = true ->
  (Blockchain.add_transaction bc tx).2
  = Blockchain.set_pending bc (Blockchain.pending_transactions bc ++ [tx])
      (TransactionHistoryCache.invalidate_cache (Blockchain.history_cache bc))
  /\ (Transaction.inputs tx <> [] ->
      Blockchain._validate_transaction_utxos bc tx = true).
Proof.
  unfold Blockchain.add_transaction.
  destruct (Transaction.is_valid tx _); [|done]. cbn [negb].
  destruct (Transaction.inputs tx) as [|i ins] eqn:Hins; [done|].
  destruct (Blockchain._validate_transaction_utxos bc tx); [done|done].
Qed.

(** The inputs of an accepted transaction name no UTXO that a pending
    transaction names: the mempool never holds two transactions that
    reference the same UTXO. *)
Lemma accepted_inputs_not_pending (bc : Blockchain.t) (tx pending_tx : Transaction.t)
    (input_tx pending_input : TransactionInput.t) :
  (Blockchain.add_transaction bc tx).1 = true ->
  input_tx ∈ Transaction.inputs tx ->
  pending_tx ∈ Blockchain.pending_transactions bc ->
  pending_input ∈ Transaction.inputs pending_tx ->
  TransactionInput.get_utxo_id input_tx
  <> TransactionInput.get_utxo_id pending_input.
Proof.
  intros Hok Hin Hp Hpi Heq.
  destruct (add_transaction_accepted bc tx Hok) as [_ Hval].
  assert (Hne : Transaction.inputs tx <> []).
  { intros E. rewrite E in Hin. by apply elem_of_nil in Hin. }
  specialize (Hval Hne). unfold Blockchain._validate_transaction_utxos in Hval.
  destruct (Blockchain.check_inputs _ _ _ _) as [total|] eqn:Hc; [|done].
  destruct (check_inputs_Some _ _ _ _ _ Hc input_tx Hin) as [Hfree _].
  apply Hfree, pending_used_utxos_spec. by exists pending_tx, pending_input.
Qed.

End MempoolFacts.

(** C1. If two transactions each have an input naming the same UTXO id and
    [add_transaction] accepts the first, it rejects the second when it is
    submitted next. *)
Theorem no_double_spend_in_mempool `{host : Host} (bc : Blockchain.t)
    (t1 t2 : Transaction.t) (i1 i2 : TransactionInput.t) :
  i1 ∈ Transaction.inputs t1 ->
  i2 ∈ Transaction.inputs t2 ->
  TransactionInput.get_utxo_id i1 = TransactionInput.get_utxo_id i2 ->
  (Blockchain.add_transaction bc t1).1 = true ->
  (Blockchain.add_transaction (Blockchain.add_transaction bc t1).2 t2).1 = false.
Proof.
  intros H1 H2 Hid Hok.
  destruct (add_transaction_accepted bc t1 Hok) as [-> _].
  set (bc1 := Blockchain.set_pending _ _ _).
  destruct (Blockchain.add_transaction bc1 t2).1 eqn:E; [|done].
  exfalso.
  destruct (add_transaction_accepted bc1 t2 E) as [_ Hval].
  assert (Hne : Transaction.inputs t2 <> []).
  { intros Heq. rewrite Heq in H2. by apply elem_of_nil in H2. }
  specialize (Hval Hne). unfold Blockchain._validate_transaction_utxos in Hval.
  destruct (Blockchain.check_inputs _ _ _ _) as [total|] eqn:Hc; [|done].
  destruct (check_inputs_Some _ _ _ _ _ Hc i2 H2) as [Hfree _].
  apply Hfree, pending_used_utxos_spec.
  exists t1, i1. split; [|done].
  subst bc1; simpl. apply elem_of_app. right. by apply list_elem_of_singleton.
Qed.

Lemma no_double_spend_in_mempool_witness :
  (Blockchain.add_transaction (host := Demo.host) Demo.ledger Demo.spend).1 = true
  /\ (Blockchain.add_transaction (host := Demo.host)
        (Blockchain.add_transaction (host := Demo.host) Demo.ledger Demo.spend).2
        Demo.respend).1 = false.
Proof.
  split; [vm_compute; reflexivity|].
  apply (no_double_spend_in_mempool (host := Demo.host) Demo.ledger Demo.spend
           Demo.respend Demo.funding_input Demo.funding_input).
  - apply list_elem_of_In. simpl. tauto.
  - apply list_elem_of_In. simpl. tauto.
  - reflexivity.
  - vm_compute. reflexivity.
Defined.

(** C6. When [add_transaction] returns false the ledger is the one it was
    called on: chain, UTXO set and mempool, and with them the index and
    the history cache. *)
Theorem add_transaction_rejected_unchanged `{host : Host} (bc : Blockchain.t)
    (tx : Transaction.t) :
  (Blockchain.add_transaction bc tx).1 = false ->
  let bc' := (Blockchain.add_transaction bc tx).2 in
  Blockchain.chain bc' = Blockchain.chain bc
  /\ Blockchain.utxo_set bc' = Blockchain.utxo_set bc
  /\ Blockchain.pending_transactions bc' = Blockchain.pending_transactions bc
  /\ bc' = bc.
Proof.
  unfold Blockchain.add_transaction.
  destruct (negb (Transaction.is_valid tx _)); [done|].
  destruct (match Transaction.inputs tx with [] => false | _ => _ end);
    [done|discriminate].
Qed.

Lemma add_transaction_rejected_unchanged_witness :
  (Blockchain.add_transaction (host := Demo.host) Demo.ledger Demo.hollow).1 = false
  /\ (Blockchain.add_transaction (host := Demo.host) Demo.ledger Demo.hollow).2
     = Demo.ledger.
Proof.
  split; [reflexivity|].
  apply (add_transaction_rejected_unchanged (host := Demo.host) Demo.ledger
           Demo.hollow).
  reflexivity.
Defined.

(** C9. When [add_transaction] returns true the UTXO set is untouched, so
    every address keeps its balance, the chain is untouched, and the
    mempool is the old one with the transaction appended. *)
Theorem add_transaction_accepted_frame `{host : Host} (bc : Blockchain.t)
    (tx : Transaction.t) :
  (Blockchain.add_transaction bc tx).1 = true ->
  let bc' := (Blockchain.add_transaction bc tx).2 in
  Blockchain.utxo_set bc' = Blockchain.utxo_set bc
  /\ (forall address,
        Blockchain.get_balance bc' address = Blockchain.get_balance bc address)
  /\ Blockchain.chain bc' = Blockchain.chain bc
  /\ Blockchain.pending_transactions bc'
     = (Blockchain.pending_transactions bc ++ [tx])%list.
Proof.
  intros Hok. destruct (add_transaction_accepted bc tx Hok) as [Heq _].
  cbv zeta. rewrite Heq. done.
Qed.

Lemma add_transaction_accepted_frame_witness :
  (Blockchain.add_transaction (host := Demo.host) Demo.ledger Demo.spend).1 = true
  /\ Blockchain.get_balance
       (Blockchain.add_transaction (host := Demo.host) Demo.ledger Demo.spend).2
       "addr-key"
     = Blockchain.get_balance Demo.ledger "addr-key"
  /\ Blockchain.pending_transactions
       (Blockchain.add_transaction (host := Demo.host) Demo.ledger Demo.spend).2
     = [Demo.spend].
Proof.
  split; [vm_compute; reflexivity|].
  destruct (add_transaction_accepted_frame (host := Demo.host) Demo.ledger
              Demo.spend) as (_ & Hbal & _ & Hpend).
  - vm_compute. reflexivity.
  - split; [apply Hbal | exact Hpend].
Defined.

(** ** Fees *)

Lemma py_sum_from (xs : list Q) (acc : Q) :
  (fold_left Qplus xs acc == acc + Spec.total xs)%Q.
Proof.
  revert acc. induction xs as [|x xs IH]; intros acc; simpl.
  - ring.
  - rewrite IH. ring.
Qed.

Lemma py_sum_total (xs : list Q) : (py_sum xs == Spec.total xs)%Q.
Proof. unfold py_sum. rewrite py_sum_from. ring. Qed.




(** ** Updating the UTXO set *)

Lemma utxo_id_of_inj (transaction_id : string) (a b : Z) :
  utxo_id_of transaction_id a = utxo_id_of transaction_id b -> a = b.
Proof.
  unfold utxo_id_of. intros E.
  apply str_app_inj_l, str_app_inj_l in E. by apply pretty_Z_inj in E.
Qed.

Lemma spend_inputs_None (ins : list TransactionInput.t) (s : UTXOSet.t)
    (k : string) :
  s !! k = None -> UTXOSet.spend_inputs s ins !! k = None.
Proof.
  revert s. induction ins as [|i ins IH]; intros s Hk; simpl; [done|].
  destruct (s !! TransactionInput.get_utxo_id i); apply IH; [|done].
  destruct (decide (TransactionInput.get_utxo_id i = k)) as [->|Hne].
  - apply lookup_delete_eq.
  - by rewrite lookup_delete_ne.
Qed.

Lemma spend_inputs_removes (ins : list TransactionInput.t) (s : UTXOSet.t)
    (input_tx : TransactionInput.t) :
  input_tx ∈ ins ->
  UTXOSet.spend_inputs s ins !! TransactionInput.get_utxo_id input_tx = None.
Proof.
  revert s. induction ins as [|i ins IH]; intros s Hin.
  { by apply elem_of_nil in Hin. }
  apply elem_of_cons in Hin as [->|Hin]; simpl.
  - destruct (s !! TransactionInput.get_utxo_id i) eqn:E.
    + apply spend_inputs_None, lookup_delete_eq.
    + by apply spend_inputs_None.
  - destruct (s !! TransactionInput.get_utxo_id i); by apply IH.
Qed.

Lemma add_outputs_other (outs : list TransactionOutput.t) (s : UTXOSet.t)
    (transaction_id : string) (index : nat) (k : string) :
  (forall j, (j < length outs)%nat ->
             k <> utxo_id_of transaction_id (Z.of_nat (index + j))) ->
  UTXOSet.add_outputs s transaction_id index outs !! k = s !! k.
Proof.
  revert s index. induction outs as [|o outs IH]; intros s index Hk; simpl;
    [done|].
  rewrite IH.
  - unfold UTXOSet.add_utxo, UTXO.get_utxo_id, UTXO.new; simpl.
    rewrite lookup_insert_ne; [done|].
    intros E. apply (Hk 0%nat); [simpl; lia|].
    by rewrite Nat.add_0_r.
  - intros j Hj. replace (S index + j)%nat with (index + S j)%nat by lia.
    apply Hk. simpl. lia.
Qed.

Lemma add_outputs_lookup (outs : list TransactionOutput.t) (s : UTXOSet.t)
    (transaction_id : string) (index j : nat) (o : TransactionOutput.t) :
  outs !! j = Some o ->
  UTXOSet.add_outputs s transaction_id index outs
    !! utxo_id_of transaction_id (Z.of_nat (index + j))
  = Some (UTXO.mk transaction_id (Z.of_nat (index + j))
                  (TransactionOutput.amount o)
                  (TransactionOutput.recipient_address o) false).
Proof.
  revert s index j. induction outs as [|x outs IH]; intros s index [|j] Hj;
    simpl in Hj; try done.
  - injection Hj as ->. simpl. rewrite add_outputs_other.
    + rewrite Nat.add_0_r. unfold UTXOSet.add_utxo, UTXO.get_utxo_id, UTXO.new.
      simpl. apply lookup_insert_eq.
    + intros j _ E. apply utxo_id_of_inj in E. lia.
  - simpl. replace (index + S j)%nat with (S index + j)%nat by lia.
    by apply IH.
Qed.

(** C10, as the code has it. [update_from_transaction] is total. After
    it, every UTXO id that an input references and that is not the id of
    one of the transaction's own outputs is absent, and for every output
    index the set holds, under the id made of the transaction id and the
    index, an unspent UTXO with that output's amount and recipient. *)
Theorem update_from_transaction_spec (s : UTXOSet.t) (tx : Transaction.t) :
  let s' := UTXOSet.update_from_transaction s tx in
  (forall input_tx,
     input_tx ∈ Transaction.inputs tx ->
     (forall j, (j < length (Transaction.outputs tx))%nat ->
                TransactionInput.get_utxo_id input_tx
                <> utxo_id_of (Transaction.transaction_id tx) (Z.of_nat j)) ->
     s' !! TransactionInput.get_utxo_id input_tx = None)
  /\ (forall j output,
        Transaction.outputs tx !! j = Some output ->
        s' !! utxo_id_of (Transaction.transaction_id tx) (Z.of_nat j)
        = Some (UTXO.mk (Transaction.transaction_id tx) (Z.of_nat j)
                        (TransactionOutput.amount output)
                        (TransactionOutput.recipient_address output) false)).
Proof.
  unfold UTXOSet.update_from_transaction. split.
  - intros i Hi Hfresh. rewrite add_outputs_other; [by apply spend_inputs_removes|].
    intros j Hj. by apply Hfresh.
  - intros j o Hj. by apply (add_outputs_lookup _ _ _ 0%nat).
Qed.

Lemma update_from_transaction_spec_witness :
  UTXOSet.update_from_transaction (Blockchain.utxo_set Demo.ledger) Demo.spend
    !! "t0:0" = None
  /\ UTXOSet.update_from_transaction (Blockchain.utxo_set Demo.ledger) Demo.spend
       !! "t1:1" = Some (UTXO.mk "t1" 1 29 "addr-key" false).
Proof.
  destruct (update_from_transaction_spec (Blockchain.utxo_set Demo.ledger)
              Demo.spend) as [Hin Hout].
  split.
  - apply (Hin Demo.funding_input).
    + apply list_elem_of_In. simpl. tauto.
    + intros j Hj. simpl in Hj.
      destruct j as [|[|j]]; [discriminate|discriminate|lia].
  - apply (Hout 1%nat (TransactionOutput.mk 29 "addr-key")). reflexivity.
Defined.

(** C10 as worded fails: an input that names the transaction's own output
    is present after the update, put there by the second loop. *)
Lemma update_from_transaction_counterexample :
  Demo.own_output_input ∈ Transaction.inputs Demo.spends_own_output
  /\ UTXOSet.update_from_transaction ∅ Demo.spends_own_output
       !! TransactionInput.get_utxo_id Demo.own_output_input
     = Some (UTXO.mk "a" 0 5 "x" false).
Proof.
  split; [apply list_elem_of_In; simpl; tauto | vm_compute; reflexivity].
Qed.

(** ** Proof of work *)

Section MiningFacts.

Context `{host : Host}.

Lemma calculate_hash_set_hash (b : Block.t) (n : Z) (h h' : string) :
  Block.calculate_hash (Block.set_nonce_hash b n h)
  = Block.calculate_hash (Block.set_nonce_hash b n h').
Proof. reflexivity. Qed.

Lemma next_try_hash (b : Block.t) :
  Block.hash (Block.next_try b) = Block.calculate_hash (Block.next_try b).
Proof. reflexivity. Qed.

Lemma mine_block_unfold (fuel : nat) (d : Z) (b : Block.t) :
  Block.mine_block fuel d b =
  if Block.meets_target d (Block.hash b) then Some b
  else match fuel with
       | O => None
       | S fuel' => Block.mine_block fuel' d (Block.next_try b)
       end.
Proof. destruct fuel; reflexivity. Qed.

(** What holds when the loop exits: the target is met, only the nonce and
    the hash have moved, and the hash is the header's as soon as it was
    on entry or one pass was made. *)
Lemma mine_block_exit (fuel : nat) (d : Z) (b b' : Block.t) :
  Block.mine_block fuel d b = Some b' ->
  Block.meets_target d (Block.hash b') = true
  /\ (Block.nonce b <= Block.nonce b')
  /\ (Block.hash b = Block.calculate_hash b \/ Block.nonce b' <> Block.nonce b ->
      Block.hash b' = Block.calculate_hash b')
  /\ b' = Block.set_nonce_hash b (Block.nonce b') (Block.hash b').
Proof.
  revert b. induction fuel as [|fuel IH]; intros b; rewrite mine_block_unfold;
    destruct (Block.meets_target d (Block.hash b)) eqn:E; try done.
  - intros [= <-]. repeat split; [done|lia| |by destruct b].
    intros [Hh|Hn]; [done|by destruct Hn].
  - intros [= <-]. repeat split; [done|lia| |by destruct b].
    intros [Hh|Hn]; [done|by destruct Hn].
  - intros Hm. destruct (IH _ Hm) as (Ht & Hle & Hh & Hb').
    simpl in Hle. repeat split; [done|lia| |].
    + intros _. apply Hh. left. apply next_try_hash.
    + rewrite Hb'. by destruct b.
Qed.



(** The search ends as soon as some later nonce gives a hash on target. *)
Lemma mine_block_terminates (d : Z) (n : nat) (b : Block.t) :
  Block.hash b = Block.calculate_hash b ->
  Block.meets_target d (Block.hash_at b n) = true ->
  exists b', Block.mine_block n d b = Some b'.
Proof.
  revert b. induction n as [|n IH]; intros b Hb Hn; rewrite mine_block_unfold.
  - replace (Block.hash_at b 0) with (Block.hash b) in Hn.
    + rewrite Hn. by exists b.
    + rewrite Hb. unfold Block.hash_at. rewrite Z.add_0_r. by destruct b.
  - destruct (Block.meets_target d (Block.hash b)); [by exists b|].
    apply IH; [apply next_try_hash|].
    replace (Block.hash_at (Block.next_try b) n) with (Block.hash_at b (S n)); [done|].
    unfold Block.hash_at, Block.next_try; simpl. do 2 f_equal. lia.
Qed.

Lemma meets_target_spec (d : Z) (h : string) :
  Block.meets_target d h = true <-> str_prefix d h = zeros d.
Proof. apply String.eqb_eq. Qed.

End MiningFacts.

Lemma hex_length (bs : string) :
  String.length (Merkle.hex bs) = (2 * String.length bs)%nat.
Proof. induction bs as [|c bs IH]; simpl; [done|]. rewrite IH. lia. Qed.

(** C3, as the code has it. When [mine_block] returns, the first
    [difficulty] characters of the hash are zeros; and the hash is the
    header's recomputed hash provided it was on entry, as it is after
    construction, or the loop advanced the nonce. *)
Theorem mine_block_spec `{host : Host} (fuel : nat) (difficulty : Z)
    (b b' : Block.t) :
  Block.mine_block fuel difficulty b = Some b' ->
  str_prefix difficulty (Block.hash b') = zeros difficulty
  /\ (Block.hash b = Block.calculate_hash b \/ Block.nonce b' <> Block.nonce b ->
      Block.hash b' = Block.calculate_hash b').
Proof.
  intros Hm. destruct (mine_block_exit _ _ _ _ Hm) as (Ht & _ & Hh & _).
  split; [by apply meets_target_spec | done].
Qed.

Lemma mine_block_spec_witness :
  exists b',
    Block.mine_block (host := Demo.host) 3 1 Demo.candidate = Some b'
    /\ Block.nonce b' = 3
    /\ str_prefix 1 (Block.hash b') = "0"
    /\ Block.hash b' = Block.calculate_hash (host := Demo.host) b'.
Proof.
  destruct (Block.mine_block (host := Demo.host) 3 1 Demo.candidate) as [b'|]
    eqn:Hm; [|vm_compute in Hm; discriminate Hm].
  exists b'. split; [reflexivity|].
  destruct (mine_block_spec (host := Demo.host) 3 1 Demo.candidate b' Hm)
    as [Hprefix Hhash].
  split; [|split].
  - vm_compute in Hm. injection Hm as <-. reflexivity.
  - exact Hprefix.
  - apply Hhash. left. reflexivity.
Defined.

(** C3 as worded fails on a block whose stored hash is not its header's
    hash but already meets the target: the loop body never runs. Here the
    stored hash is one character long, and a hex digest never is. *)
Lemma mine_block_counterexample :
  Block.mine_block (host := Demo.host) 0 1 Demo.forged = Some Demo.forged
  /\ str_prefix 1 (Block.hash Demo.forged) = zeros 1
  /\ Block.hash Demo.forged <> Block.calculate_hash (host := Demo.host) Demo.forged.
Proof.
  split; [reflexivity|]. split; [reflexivity|].
  intros E. apply (f_equal String.length) in E.
  unfold Block.calculate_hash, HashUtils.calculate_block_hash,
    HashUtils.calculate_sha256_dict, HashUtils.calculate_sha256 in E.
  rewrite hex_length in E. simpl in E. lia.
Qed.

(** The same on any host: the loop exits at once and leaves the one
    character there. *)
Lemma forged_block_stays_forged `{host : Host} (fuel : nat) :
  Block.mine_block fuel 1 Demo.forged = Some Demo.forged
  /\ Block.hash Demo.forged <> Block.calculate_hash Demo.forged.
Proof.
  split; [by destruct fuel|].
  intros E. apply (f_equal String.length) in E.
  unfold Block.calculate_hash, HashUtils.calculate_block_hash,
    HashUtils.calculate_sha256_dict, HashUtils.calculate_sha256 in E.
  rewrite hex_length in E. simpl in E. lia.
Qed.

(** ** Block construction *)

Section BlockFacts.

Context `{host : Host}.

Lemma collect_hashes_with_ids (txs : list TxDict.t) (acc : list string) :
  Forall (fun d => is_Some (TxDict.transaction_id d)) txs ->
  Block.collect_hashes txs acc
  = Py.Ok (acc ++ omap TxDict.transaction_id txs)%list.
Proof.
  revert acc. induction txs as [|d txs IH]; intros acc Hall; simpl.
  - by rewrite app_nil_r.
  - inversion_clear Hall as [|? ? [i Hi] Hrest]. rewrite Hi.
    rewrite IH by done. by rewrite <- app_assoc.
Qed.

Lemma collect_hashes_without_id (txs : list TxDict.t) (acc : list string) :
  Exists (fun d => TxDict.transaction_id d = None) txs ->
  Block.collect_hashes txs acc = Py.Raise (Py.NameError "hashlib").
Proof.
  revert acc. induction txs as [|d txs IH]; intros acc Hex; simpl.
  - inversion Hex.
  - destruct (TxDict.transaction_id d) as [i|] eqn:Hi; [|done].
    apply IH. inversion_clear Hex as [? ? Hd|]; [congruence|done].
Qed.

(** With an id in every dict the constructor returns a block whose Merkle
    root is taken from the tree over the ids and whose hash is the hash of
    its header. *)
Lemma block_new_with_ids (index : Z) (txs : list TxDict.t)
    (previous_hash : string) (timestamp : option string) (nonce : Z)
    (now : string) :
  Forall (fun d => is_Some (TxDict.transaction_id d)) txs ->
  exists b,
    Block.new index txs previous_hash timestamp nonce now = Py.Ok b
    /\ Block.index b = index
    /\ Block.transactions b = txs
    /\ Block.previous_hash b = previous_hash
    /\ Block.nonce b = nonce
    /\ Block.hash b = Block.calculate_hash b
    /\ (Block._calculate_merkle_root txs
        = Py.Ok (Block.merkle_tree b, Block.merkle_root b))
    /\ (txs <> [] ->
        Block.merkle_tree b
        = Some (Merkle.new_tree (omap TxDict.transaction_id txs))).
Proof.
  intros Hall. unfold Block.new, Block._calculate_merkle_root.
  destruct txs as [|d txs'] eqn:Htxs.
  - eexists. split; [reflexivity|]. by repeat split.
  - rewrite <- Htxs in *. rewrite collect_hashes_with_ids by done.
    eexists. split; [reflexivity|]. by repeat split.
Qed.

Lemma block_new_without_id (index : Z) (txs : list TxDict.t)
    (previous_hash : string) (timestamp : option string) (nonce : Z)
    (now : string) :
  Exists (fun d => TxDict.transaction_id d = None) txs ->
  Block.new index txs previous_hash timestamp nonce now
  = Py.Raise (Py.NameError "hashlib").
Proof.
  intros Hex. unfold Block.new, Block._calculate_merkle_root.
  destruct txs as [|d txs'] eqn:Htxs; [inversion Hex|].
  rewrite <- Htxs in *. by rewrite collect_hashes_without_id.
Qed.

End BlockFacts.

(** C8, at the failing input. Building a block from a list that holds a
    dict without ['transaction_id'] does not return: the content-hash
    branch of [_calculate_merkle_root] names [hashlib], which
    [blockchain.py] does not import. *)
Theorem block_new_raises_on_missing_id (host : Host) :
  Block.new 1 [Demo.anonymous_dict] "00ab" None 0 "1700000300"
  = Py.Raise (Py.NameError "hashlib").
Proof. reflexivity. Qed.

(** ** Mining the mempool *)




Section LedgerFacts.

Context `{host : Host}.

Lemma to_dict_has_id (txs : list Transaction.t) :
  Forall (fun d => is_Some (TxDict.transaction_id d)) (map Transaction.to_dict txs).
Proof. apply Forall_forall. intros d Hd. apply list_elem_of_In, in_map_iff in Hd.
  destruct Hd as (tx & <- & _). by eexists. Qed.

(** Whatever fuel lets the call end, it ends with the same block and the
    same ledger, which are these. *)
Lemma mine_pending_transactions_result (fuel : nat) (now_tx now_block : string)
    (bc : Blockchain.t) (address : string) (r : Py.res (Block.t * Blockchain.t)) :
  Blockchain.chain bc <> [] ->
  Blockchain.mine_pending_transactions fuel now_tx now_block bc address = Some r ->
  exists block,
    r = Py.Ok (block,
          Blockchain.mk (Blockchain.difficulty bc) [] (Blockchain.mining_reward bc)
            (Blockchain._update_utxo_set (Blockchain.utxo_set bc)
               (Blockchain.pending_transactions bc
                ++ [Blockchain.reward_transaction now_tx bc address]))
            (TransactionHistoryCache.invalidate_cache (Blockchain.history_cache bc))
            (Blockchain._update_transaction_index (Blockchain.transaction_index bc)
               block)
            (Blockchain.chain bc ++ [block]))
    /\ Block.index block = Z.of_nat (length (Blockchain.chain bc))
    /\ Block.transactions block
       = (map Transaction.to_dict (Blockchain.pending_transactions bc)
          ++ [Transaction.to_dict (Blockchain.reward_transaction now_tx bc address)])%list
    /\ Block.meets_target (Blockchain.difficulty bc) (Block.hash block) = true
    /\ Block.hash block = Block.calculate_hash block.
Proof.
  intros Hchain. unfold Blockchain.mine_pending_transactions.
  unfold Blockchain.get_latest_block.
  destruct (last (Blockchain.chain bc)) as [latest|] eqn:Hlast;
    [|by apply last_None in Hlast].
  set (txs := (map Transaction.to_dict (Blockchain.pending_transactions bc)
               ++ [Transaction.to_dict (Blockchain.reward_transaction now_tx bc address)])%list).
  destruct (block_new_with_ids (Z.of_nat (length (Blockchain.chain bc))) txs
              (Block.hash latest) None 0 now_block)
    as (b0 & -> & Hidx & Htxs & _ & _ & Hhash & _).
  { subst txs. apply Forall_app. split; [apply to_dict_has_id|].
    apply (to_dict_has_id [_]). }
  destruct (Block.mine_block fuel (Blockchain.difficulty bc) b0) as [block|]
    eqn:Hm; [|done].
  intros [= <-]. exists block. split; [done|].
  destruct (mine_block_exit _ _ _ _ Hm) as (Ht & _ & Hh & Hb).
  rewrite Hb; simpl. rewrite Hidx, Htxs. repeat split; [done|].
  rewrite Hb in Hh. simpl in Hh. apply Hh. by left.
Qed.

End LedgerFacts.


(** The proof-of-work search of [mine_pending_transactions] ends when some
    nonce brings the hash of the new block on target. *)
Lemma mine_pending_transactions_terminates `{host : Host}
    (n : nat) (now_tx now_block : string) (bc : Blockchain.t)
    (address : string) (latest b0 : Block.t) :
  Blockchain.get_latest_block bc = Some latest ->
  Block.new (Z.of_nat (length (Blockchain.chain bc)))
    (map Transaction.to_dict (Blockchain.pending_transactions bc)
     ++ [Transaction.to_dict (Blockchain.reward_transaction now_tx bc address)])%list
    (Block.hash latest) None 0 now_block = Py.Ok b0 ->
  Block.meets_target (Blockchain.difficulty bc) (Block.hash_at b0 n) = true ->
  exists r,
    Blockchain.mine_pending_transactions n now_tx now_block bc address = Some r.
Proof.
  intros Hlast Hnew Hn. unfold Blockchain.mine_pending_transactions.
  cbv zeta. rewrite Hlast, Hnew.
  destruct (mine_block_terminates (Blockchain.difficulty bc) n b0) as [b' ->];
    [|done|by eexists].
  destruct (block_new_with_ids (Z.of_nat (length (Blockchain.chain bc)))
    (map Transaction.to_dict (Blockchain.pending_transactions bc)
     ++ [Transaction.to_dict (Blockchain.reward_transaction now_tx bc address)])%list
    (Block.hash latest) None 0 now_block) as (b & Hb & _ & _ & _ & _ & Hh & _).
  { apply Forall_app. split; [apply to_dict_has_id|apply (to_dict_has_id [_])]. }
  congruence.
Qed.






(** The same on any host, whatever it hashes to: if the call on the
    crowded ledger ends, it ends with [gift]'s id indexed at position 1
    and the empty id not indexed. *)
Lemma crowded_index_on_any_host `{host : Host} (fuel : nat)
    (now_tx now_block : string) (r : Py.res (Block.t * Blockchain.t)) :
  Blockchain.mine_pending_transactions fuel now_tx now_block Demo.crowded "miner"
  = Some r ->
  exists block bc',
    r = Py.Ok (block, bc')
    /\ TxDict.transaction_id <$> Block.transactions block !! 0%nat
       = Some (Some "g")
    /\ Blockchain.transaction_index bc' !! "g" = Some (1, 1%nat)
    /\ Blockchain.transaction_index bc' !! "" = None.
Proof.
  intros Hrun.
  assert (Hchain : Blockchain.chain Demo.crowded <> []) by done.
  destruct (mine_pending_transactions_result _ _ _ _ _ _ Hchain Hrun)
    as (block & -> & Hidx & Htxs & _ & _).
  eexists block, _. split; [reflexivity|].
  cbn [Blockchain.transaction_index]. unfold Blockchain._update_transaction_index.
  rewrite Hidx, Htxs.
  set (reward := Blockchain.reward_transaction now_tx Demo.crowded "miner").
  assert (Hodd : Transaction.transaction_id reward <> "g").
  { intros E. apply (f_equal String.length) in E.
    unfold reward, Blockchain.reward_transaction,
      Transaction.create_coinbase_transaction, Transaction.new,
      Transaction._calculate_hash, HashUtils.calculate_transaction_hash,
      HashUtils.calculate_sha256 in E.
    cbn [Transaction.transaction_id] in E. rewrite hex_length in E.
    simpl in E. lia. }
  split; [reflexivity|].
  cbn -[reward]. destruct (String.eqb (Transaction.transaction_id reward) "") eqn:E.
  - split; [|reflexivity]. by rewrite lookup_insert_eq.
  - apply String.eqb_neq in E. split.
    + rewrite lookup_insert_ne by done. by rewrite lookup_insert_eq.
    + rewrite lookup_insert_ne by done. reflexivity.
Qed.

(** ** Difficulty adjustment *)

Lemma should_adjust_difficulty_spec (height : Z) :
  DifficultyAdjustment.should_adjust_difficulty height = true
  <-> 0 < height /\ height mod DifficultyAdjustment.ADJUSTMENT_INTERVAL = 0.
Proof.
  unfold DifficultyAdjustment.should_adjust_difficulty.
  rewrite andb_true_iff, Z.ltb_lt, Z.eqb_eq. tauto.
Qed.

Lemma py_clamp (x : Q) :
  (py_max DifficultyAdjustment.MIN_ADJUSTMENT_FACTOR
     (py_min DifficultyAdjustment.MAX_ADJUSTMENT_FACTOR x)
   == DifficultyAdjustment.clamp x DifficultyAdjustment.MIN_ADJUSTMENT_FACTOR
        DifficultyAdjustment.MAX_ADJUSTMENT_FACTOR)%Q.
Proof.
  unfold py_max, py_min, DifficultyAdjustment.clamp,
    DifficultyAdjustment.MIN_ADJUSTMENT_FACTOR,
    DifficultyAdjustment.MAX_ADJUSTMENT_FACTOR.
  destruct (Qle_bool 4 x) eqn:Ehi.
  - apply Qle_bool_iff in Ehi. simpl.
    destruct (Qlt_le_dec x (1 # 4)) as [Hlo|Hlo].
    + exfalso. apply (Qlt_irrefl x). eapply Qlt_le_trans; [exact Hlo|].
      eapply Qle_trans; [|exact Ehi]. discriminate.
    + destruct (Qlt_le_dec 4 x) as [Hgt|Hle]; [reflexivity|].
      by apply Qle_antisym.
  - assert (Hlt : (x < 4)%Q).
    { apply Qnot_le_lt. intros Hle. apply Qle_bool_iff in Hle. congruence. }
    destruct (Qle_bool x (1 # 4)) eqn:Elo.
    + apply Qle_bool_iff in Elo.
      destruct (Qlt_le_dec x (1 # 4)) as [Hlo|Hlo]; [reflexivity|].
      destruct (Qlt_le_dec 4 x) as [Hgt|Hle].
      * exfalso. apply (Qlt_irrefl x). by eapply Qlt_trans.
      * by apply Qle_antisym.
    + assert (Hgt : (1 # 4 < x)%Q).
      { apply Qnot_le_lt. intros Hle. apply Qle_bool_iff in Hle. congruence. }
      destruct (Qlt_le_dec x (1 # 4)) as [Hlo|Hlo].
      * exfalso. apply (Qlt_irrefl x). by eapply Qlt_trans.
      * destruct (Qlt_le_dec 4 x) as [Hgt'|Hle]; [|reflexivity].
        exfalso. apply (Qlt_irrefl x). by eapply Qlt_trans.
Qed.

(** Off a boundary the call returns the difficulty of the last header, or
    the initial one when there is none, and changes nothing. *)
Lemma calculate_next_difficulty_off_boundary (da : DifficultyAdjustment.t)
    (height : Z) (now : Q) :
  ~ (0 < height /\ height mod DifficultyAdjustment.ADJUSTMENT_INTERVAL = 0) ->
  DifficultyAdjustment.calculate_next_difficulty da height now
  = Py.Ok (DifficultyAdjustment.last_or_initial_difficulty da, da).
Proof.
  intros Hoff. unfold DifficultyAdjustment.calculate_next_difficulty.
  destruct (DifficultyAdjustment.should_adjust_difficulty height) eqn:E; [|done].
  by apply should_adjust_difficulty_spec in E.
Qed.

(** On a boundary, with both headers found and different timestamps, the
    call returns the end header's difficulty times the clamped ratio. *)
Lemma calculate_next_difficulty_on_boundary (da : DifficultyAdjustment.t)
    (height : Z) (now : Q) (start_block end_block : BlockHeader.t) :
  0 < height ->
  height mod DifficultyAdjustment.ADJUSTMENT_INTERVAL = 0 ->
  DifficultyAdjustment.find_block_by_height da
    (height - DifficultyAdjustment.ADJUSTMENT_INTERVAL) = Some start_block ->
  DifficultyAdjustment.find_block_by_height da (height - 1) = Some end_block ->
  let actual_timespan :=
    (BlockHeader.timestamp end_block - BlockHeader.timestamp start_block)%Q in
  ~ (actual_timespan == 0)%Q ->
  exists new_difficulty da',
    DifficultyAdjustment.calculate_next_difficulty da height now
    = Py.Ok (new_difficulty, da')
    /\ (new_difficulty
        == BlockHeader.difficulty end_block
           * DifficultyAdjustment.clamp
               (inject_Z DifficultyAdjustment.TARGET_TIMESPAN / actual_timespan)
               DifficultyAdjustment.MIN_ADJUSTMENT_FACTOR
               DifficultyAdjustment.MAX_ADJUSTMENT_FACTOR)%Q
    /\ DifficultyAdjustment.block_headers da'
       = DifficultyAdjustment.block_headers da.
Proof.
  intros Hpos Hmod Hstart Hend actual Hnz.
  unfold DifficultyAdjustment.calculate_next_difficulty.
  replace (DifficultyAdjustment.should_adjust_difficulty height) with true
    by (symmetry; by apply should_adjust_difficulty_spec).
  cbn [negb]. rewrite Hstart, Hend. unfold DifficultyAdjustment.py_div.
  fold actual. destruct (Qeq_bool actual 0) eqn:E.
  { by apply Qeq_bool_iff in E. }
  eexists _, _. split; [reflexivity|]. split; [|reflexivity].
  by rewrite py_clamp.
Qed.

(** C5, at the failing input. On a boundary whose two headers carry the
    same timestamp the call does not return: the ratio is a division by
    the zero timespan, made before the clamp. *)
Theorem calculate_next_difficulty_zero_timespan :
  DifficultyAdjustment.find_block_by_height Demo.stalled 0
  = Some Demo.first_header
  /\ DifficultyAdjustment.find_block_by_height Demo.stalled 2015
     = Some Demo.last_header
  /\ DifficultyAdjustment.calculate_next_difficulty Demo.stalled 2016 1700000000
     = Py.Raise Py.ZeroDivisionError.
Proof. by vm_compute. Qed.

(** * Further properties *)

(** ** The shape of a Merkle tree *)

Section MerkleShape.

Context `{host : Host}.

Lemma reduce_levels_done (level : list Merkle.MerkleNode) :
  (length level <= 1)%nat -> Merkle.reduce_levels level = level.
Proof.
  intros Hlen. funelim (Merkle.reduce_levels level); [done|lia].
Qed.

Lemma reduce_levels_step (level : list Merkle.MerkleNode) :
  (1 < length level)%nat ->
  Merkle.reduce_levels level = Merkle.reduce_levels (Merkle.next_level level).
Proof.
  intros Hlen. funelim (Merkle.reduce_levels level); [lia|done].
Qed.

Lemma next_level_size (level : list Merkle.MerkleNode) :
  length (Merkle.next_level level) = Nat.div2 (S (length level)).
Proof.
  induction level as [|a|a b rest IH] using pair_ind; [done|done|].
  simpl. by rewrite IH.
Qed.

Lemma next_level_perfect (k : nat) (level : list Merkle.MerkleNode) :
  Forall (Merkle.perfect k) level ->
  Forall (Merkle.perfect (S k)) (Merkle.next_level level).
Proof.
  induction level as [|a|a b rest IH] using pair_ind; intros Hall; simpl.
  - constructor.
  - inversion_clear Hall. repeat constructor; done.
  - inversion_clear Hall as [|? ? Ha Hrest].
    inversion_clear Hrest as [|? ? Hb Hrest'].
    constructor; [by constructor | by apply IH].
Qed.

(** The loop ends after [j] passes with a root whose leaves all lie
    [k + j - 1] steps down, [j] being the least with [length <= 2 ^ j]. *)
Lemma reduce_levels_perfect (k : nat) (level : list Merkle.MerkleNode) :
  level <> [] ->
  Forall (Merkle.perfect k) level ->
  exists r j,
    Merkle.reduce_levels level = [r]
    /\ Merkle.perfect (k + j) r
    /\ (length level <= 2 ^ j)%nat
    /\ ((1 <= j)%nat -> (2 ^ (j - 1) < length level)%nat).
Proof.
  revert k. funelim (Merkle.reduce_levels level); intros k Hne Hall.
  - destruct current_level as [|r [|b rest]]; [done| |simpl in *; lia].
    exists r, 0%nat. rewrite Nat.add_0_r. inversion_clear Hall.
    repeat split; [done|simpl; lia|lia].
  - match goal with
    | IH : forall _ : nat, _ |- _ =>
        destruct (IH (S k)) as (r & j & Hr & Hp & Hup & Hlow)
    end.
    + by apply next_level_nonempty.
    + by apply next_level_perfect.
    + rewrite next_level_size in Hup, Hlow.
      exists r, (S j). split; [done|].
      split; [by replace (k + S j)%nat with (S k + j)%nat by lia|].
      pose proof (Nat.div2_odd (S (length current_level))) as Hd.
      assert (Hb : (Nat.b2n (Nat.odd (S (length current_level))) <= 1)%nat)
        by (destruct (Nat.odd _); simpl; lia).
      split.
      * simpl. lia.
      * intros _. replace (S j - 1)%nat with j by lia.
        destruct j as [|j]; [simpl; lia|].
        specialize (Hlow ltac:(lia)).
        replace (S j - 1)%nat with j in Hlow by lia.
        simpl. lia.
Qed.

Lemma perfect_height (k : nat) (n : Merkle.MerkleNode) :
  Merkle.perfect k n -> Merkle._get_node_height n = Z.of_nat k /\ (1 <= k)%nat.
Proof.
  induction 1 as [tx|k l r Hl [IHl Hkl] Hr [IHr _]]; [done|].
  cbn. rewrite IHl, IHr. lia.
Qed.

Lemma perfect_built (k : nat) (n : Merkle.MerkleNode) :
  Merkle.perfect k n -> Merkle.built n.
Proof. induction 1; by constructor. Qed.

Lemma node_eq_parent_leaf (l r : Merkle.MerkleNode) (tx_hash : string) :
  Merkle.node_eq (Merkle.make_parent l r) (Merkle.make_leaf tx_hash) = false.
Proof.
  unfold Merkle.make_parent, Merkle.make_leaf. cbn.
  by rewrite andb_false_r.
Qed.

(** The search for a leaf in a perfect node appends one entry per level
    below the node. *)
Lemma perfect_path_length (k : nat) (n : Merkle.MerkleNode) (tx_hash : string)
    (acc : list string * list bool) :
  Merkle.perfect k n ->
  let r := Merkle._build_proof_path n (Merkle.make_leaf tx_hash) acc in
  r.1 = true ->
  length r.2.1 = (length acc.1 + (k - 1))%nat
  /\ length r.2.2 = (length acc.2 + (k - 1))%nat.
Proof.
  intros Hp. revert acc.
  induction Hp as [tx|k l r Hl IHl Hr IHr]; intros acc; cbv zeta;
    rewrite build_proof_path_unfold.
  - destruct (Merkle.node_eq _ _); cbn; [lia|done].
  - rewrite node_eq_parent_leaf.
    cbn [Merkle.is_leaf Merkle.left Merkle.right Merkle.make_parent]. cbv zeta.
    pose proof (perfect_height _ _ Hl) as [_ Hk].
    specialize (IHl acc). cbv zeta in IHl.
    destruct (build_proof_path_spec l (Merkle.make_leaf tx_hash) acc
                (perfect_built _ _ Hl)) as [Hlf _].
    destruct (Merkle._build_proof_path l _ acc) as [[|] accl];
      cbn [fst snd] in *.
    + intros _. destruct (IHl eq_refl) as [H1 H2].
      unfold Merkle.push; cbn [fst snd]. rewrite !length_app. simpl. lia.
    + rewrite (Hlf eq_refl). specialize (IHr acc). cbv zeta in IHr.
      destruct (Merkle._build_proof_path r _ acc) as [[|] accr];
        cbn [fst snd] in *; [|done].
      intros _. destruct (IHr eq_refl) as [H1 H2].
      unfold Merkle.push; cbn [fst snd]. rewrite !length_app. simpl. lia.
Qed.

End MerkleShape.

Section MerkleProofs.

Context `{host : Host}.

Lemma new_tree_root (txs : list string) :
  txs <> [] ->
  Merkle.new_tree txs
  = Merkle.mkTree txs (head (Merkle.reduce_levels (map Merkle.make_leaf txs)))
                  (map Merkle.make_leaf txs).
Proof. by destruct txs. Qed.

(** What [get_merkle_proof] returns for an id of the list, with the
    facts the properties below draw on. *)
Lemma get_merkle_proof_found (txs : list string) (id : string) :
  id ∈ txs ->
  exists r j hs ds,
    Merkle.root (Merkle.new_tree txs) = Some r
    /\ Merkle.get_merkle_proof (Merkle.new_tree txs) id
       = Py.Ok (Some (Merkle.mkProof id (Merkle.hash_value r) hs ds))
    /\ length hs = j /\ length ds = j
    /\ Merkle.climb (Merkle._double_sha256 id) hs ds = Merkle.hash_value r
    /\ Merkle.perfect (S j) r
    /\ (length txs <= 2 ^ j)%nat
    /\ ((1 <= j)%nat -> (2 ^ (j - 1) < length txs)%nat).
Proof.
  intros Hin.
  assert (Hne : txs <> []) by (intros ->; by apply elem_of_nil in Hin).
  set (target := Merkle.make_leaf id).
  set (lvs := map Merkle.make_leaf txs).
  assert (Hlne : lvs <> []) by (subst lvs; by destruct txs).
  assert (Hperf : Forall (Merkle.perfect 1) lvs).
  { apply Forall_forall. intros n Hn. apply list_elem_of_In, in_map_iff in Hn.
    destruct Hn as (x & <- & _). constructor. }
  destruct (reduce_levels_perfect 1 lvs Hlne Hperf)
    as (r & j & Hr & Hp & Hup & Hlow).
  destruct (reduce_levels_spec target lvs Hlne) as (r' & Hr' & Hbuilt & Hocc).
  { eapply Forall_impl; [exact Hperf|]. intros n. apply perfect_built. }
  { apply Exists_exists. exists target. split.
    - apply list_elem_of_In, in_map. by apply list_elem_of_In.
    - apply Merkle.occurs_here, node_eq_leaf. }
  assert (r' = r) as -> by congruence.
  pose proof (build_proof_path_finds r target ([], []) Hbuilt Hocc) as Hfound.
  destruct (build_proof_path_spec r target ([], []) Hbuilt) as [_ Hpath].
  destruct (Hpath Hfound) as (hs & ds & Hacc & Hlen & Hclimb).
  destruct (perfect_path_length _ r id ([], []) Hp Hfound) as [Hl1 Hl2].
  fold target in Hl1, Hl2. rewrite Hacc in Hl1, Hl2. simpl in Hacc, Hl1, Hl2.
  exists r, j, hs, ds.
  rewrite new_tree_root by done. subst lvs. rewrite Hr.
  rewrite length_map in Hup, Hlow.
  repeat split; try done; try lia.
  unfold Merkle.get_merkle_proof.
  cbn [Merkle.transactions Merkle.leaves Merkle.root head].
  rewrite existsb_eqb by done. cbn [negb].
  rewrite find_leaf by done. fold target. by rewrite Hacc.
Qed.

End MerkleProofs.

(** X1. An id that is not in the list has no proof: [get_merkle_proof]
    returns [None], without raising, also on the tree of no transaction. *)
Theorem merkle_proof_of_absent_id `{host : Host} (txs : list string)
    (id : string) :
  id ∉ txs ->
  Merkle.get_merkle_proof (Merkle.new_tree txs) id = Py.Ok None.
Proof.
  intros Hout. unfold Merkle.get_merkle_proof.
  replace (Merkle.transactions (Merkle.new_tree txs)) with txs
    by (by destruct txs).
  destruct (existsb (String.eqb id) txs) eqn:E; [|done].
  apply existsb_exists in E as (x & Hx & Heq).
  apply String.eqb_eq in Heq as <-. by apply list_elem_of_In in Hx.
Qed.

Lemma merkle_proof_of_absent_id_witness :
  Merkle.get_merkle_proof (Merkle.new_tree (host := Demo.host) ["a"; "b"]) "c"
  = Py.Ok None
  /\ Merkle.get_merkle_proof (Merkle.new_tree (host := Demo.host) []) "c"
     = Py.Ok None.
Proof.
  split; apply (merkle_proof_of_absent_id (host := Demo.host)).
  - intros Hin. apply list_elem_of_In in Hin. simpl in Hin.
    destruct Hin as [E|[E|[]]]; discriminate E.
  - apply not_elem_of_nil.
Defined.

(** X2. The proof of an id of the list names the id and the root of the
    tree, has as many directions as hashes, and is one shorter than the
    tree is high: every leaf lies at the same depth. *)
Theorem merkle_proof_shape `{host : Host} (txs : list string) (id : string) :
  id ∈ txs ->
  exists p,
    Merkle.get_merkle_proof (Merkle.new_tree txs) id = Py.Ok (Some p)
    /\ Merkle.target_hash p = id
    /\ Merkle.get_merkle_root (Merkle.new_tree txs) = Some (Merkle.merkle_root p)
    /\ length (Merkle.proof_hashes p) = length (Merkle.proof_directions p)
    /\ Z.of_nat (length (Merkle.proof_hashes p))
       = Merkle.get_tree_height (Merkle.new_tree txs) - 1.
Proof.
  intros Hin.
  destruct (get_merkle_proof_found txs id Hin)
    as (r & j & hs & ds & Hroot & Hget & Hhs & Hds & _ & Hp & _ & _).
  eexists. split; [exact Hget|]. cbn.
  unfold Merkle.get_merkle_root, Merkle.get_tree_height. rewrite Hroot.
  destruct (perfect_height _ _ Hp) as [-> _].
  repeat split; [congruence|lia].
Qed.

Lemma merkle_proof_shape_witness :
  exists p,
    Merkle.get_merkle_proof (Merkle.new_tree (host := Demo.host) ["a"; "b"; "c"]) "c"
    = Py.Ok (Some p)
    /\ length (Merkle.proof_hashes p) = 2%nat
    /\ Merkle.get_tree_height (Merkle.new_tree (host := Demo.host) ["a"; "b"; "c"])
       = 3.
Proof.
  destruct (merkle_proof_shape (host := Demo.host) ["a"; "b"; "c"] "c")
    as (p & Hget & _ & _ & _ & Hlen).
  - apply list_elem_of_In. simpl. tauto.
  - exists p. split; [exact Hget|].
    assert (Hh : Merkle.get_tree_height
                   (Merkle.new_tree (host := Demo.host) ["a"; "b"; "c"]) = 3)
      by (vm_compute; reflexivity).
    split; [lia|exact Hh].
Defined.

(** X3. The tree over [n >= 1] ids has as many leaves as ids and height
    [h] with [n <= 2 ^ (h - 1)], and [2 ^ (h - 2) < n] once [h >= 2]: one
    more than the logarithm of [n], rounded up. The empty tree has
    height 0. *)
Theorem merkle_tree_height `{host : Host} (txs : list string) :
  let stats := Merkle.get_statistics (Merkle.new_tree txs) in
  Merkle.leaf_count stats = Merkle.transaction_count stats
  /\ Merkle.transaction_count stats = Z.of_nat (length txs)
  /\ (txs = [] -> Merkle.tree_height stats = 0)
  /\ (txs <> [] ->
      let h := Merkle.tree_height stats in
      1 <= h
      /\ Z.of_nat (length txs) <= 2 ^ (h - 1)
      /\ (2 <= h -> 2 ^ (h - 2) < Z.of_nat (length txs))).
Proof.
  cbv zeta. destruct txs as [|x txs'] eqn:Htxs; [by repeat split|].
  rewrite <- Htxs.
  assert (Hin : x ∈ txs) by (rewrite Htxs; apply list_elem_of_here).
  destruct (get_merkle_proof_found txs x Hin)
    as (r & j & hs & ds & Hroot & _ & _ & _ & _ & Hp & Hup & Hlow).
  unfold Merkle.get_statistics; cbn.
  unfold Merkle.get_tree_height. rewrite Hroot.
  destruct (perfect_height _ _ Hp) as [-> _].
  rewrite new_tree_root by (by rewrite Htxs).
  cbn [Merkle.transactions Merkle.leaves]. rewrite length_map.
  split; [done|]. split; [done|]. split; [by rewrite Htxs|]. intros _.
  replace (Z.of_nat (S j) - 1) with (Z.of_nat j) by lia.
  split; [lia|]. split.
  - apply Nat2Z.inj_le in Hup. rewrite Nat2Z.inj_pow in Hup. exact Hup.
  - intros Hh. assert (Hj : (1 <= j)%nat) by lia.
    specialize (Hlow Hj). apply Nat2Z.inj_lt in Hlow.
    rewrite Nat2Z.inj_pow in Hlow.
    replace (Z.of_nat (S j) - 2) with (Z.of_nat (j - 1)) by lia. exact Hlow.
Qed.

Lemma merkle_tree_height_witness :
  Merkle.get_tree_height (Merkle.new_tree (host := Demo.host) ["a"; "b"; "c"]) = 3
  /\ 3 <= 2 ^ (3 - 1) /\ 2 ^ (3 - 2) < 3.
Proof.
  destruct (merkle_tree_height (host := Demo.host) ["a"; "b"; "c"])
    as (_ & _ & _ & Hh).
  assert (Hv : Merkle.get_tree_height
                 (Merkle.new_tree (host := Demo.host) ["a"; "b"; "c"]) = 3)
    by (vm_compute; reflexivity).
  specialize (Hh ltac:(discriminate)). cbv zeta in Hh.
  unfold Merkle.get_statistics in Hh. cbn [Merkle.tree_height] in Hh.
  rewrite Hv in Hh. split; [exact Hv|]. destruct Hh as (_ & H1 & H2).
  split; [exact H1 | apply H2; lia].
Defined.

Lemma next_level_repeat_last `{host : Host} (level : list Merkle.MerkleNode)
    (a : Merkle.MerkleNode) :
  Nat.Even (length level) ->
  Merkle.next_level (level ++ [a; a]) = Merkle.next_level (level ++ [a]).
Proof.
  induction level as [|b|b c rest IH] using pair_ind; intros Heven.
  - reflexivity.
  - destruct Heven as [m Hm]. simpl in Hm. lia.
  - simpl. f_equal. apply IH. destruct Heven as [m Hm]. simpl in Hm.
    exists (m - 1)%nat. lia.
Qed.

(** X4. A list of odd length, three ids or more, has the Merkle root of
    the list with its last id written twice: the loop pairs a last node
    of a level with itself. *)
Theorem merkle_root_repeats_last `{host : Host} (txs : list string) (x : string) :
  txs <> [] ->
  Nat.Even (length txs) ->
  Merkle.get_merkle_root (Merkle.new_tree (txs ++ [x; x]))
  = Merkle.get_merkle_root (Merkle.new_tree (txs ++ [x])).
Proof.
  intros Hne Heven.
  assert (Hlen : (2 <= length txs)%nat).
  { destruct Heven as [m Hm]. destruct txs; [done|]. simpl in Hm. simpl. lia. }
  rewrite !new_tree_root by (by destruct txs).
  unfold Merkle.get_merkle_root. cbn [Merkle.root].
  rewrite !map_app.
  rewrite (reduce_levels_step (_ ++ map Merkle.make_leaf [x; x]))
    by (rewrite length_app, length_map; simpl; lia).
  rewrite (reduce_levels_step (_ ++ map Merkle.make_leaf [x]))
    by (rewrite length_app, length_map; simpl; lia).
  simpl map at 2 4.
  rewrite next_level_repeat_last; [done|by rewrite length_map].
Qed.

Lemma merkle_root_repeats_last_witness :
  Merkle.get_merkle_root (Merkle.new_tree (host := Demo.host) ["a"; "b"; "c"; "c"])
  = Merkle.get_merkle_root (Merkle.new_tree (host := Demo.host) ["a"; "b"; "c"]).
Proof.
  apply (merkle_root_repeats_last (host := Demo.host) ["a"; "b"] "c").
  - discriminate.
  - exists 1%nat. reflexivity.
Defined.

(** X5. After [add_transaction] the tree is the one built over the
    extended list: it has one leaf more, and the new id and every earlier
    one has a proof that verifies against the new root. *)
Theorem merkle_add_transaction `{host : Host} (txs : list string)
    (x id : string) :
  id ∈ (txs ++ [x])%list ->
  let t := Merkle.add_transaction (Merkle.new_tree txs) x in
  Merkle.transactions t = (txs ++ [x])%list
  /\ Merkle.leaf_count (Merkle.get_statistics t) = Z.of_nat (length txs) + 1
  /\ exists p,
       Merkle.get_merkle_proof t id = Py.Ok (Some p)
       /\ Merkle.get_merkle_root t = Some (Merkle.merkle_root p)
       /\ Merkle.verify_merkle_proof p = true.
Proof.
  intros Hin. cbv zeta. unfold Merkle.add_transaction.
  replace (Merkle.transactions (Merkle.new_tree txs)) with txs
    by (by destruct txs).
  change (Merkle.build_tree (txs ++ [x])) with (Merkle.new_tree (txs ++ [x])).
  destruct (get_merkle_proof_found _ id Hin)
    as (r & j & hs & ds & Hroot & Hget & _ & _ & Hclimb & _ & _ & _).
  rewrite new_tree_root in * by (by destruct txs).
  cbn [Merkle.transactions Merkle.get_statistics Merkle.leaf_count Merkle.leaves].
  split; [done|]. split; [rewrite length_map, length_app; simpl; lia|].
  eexists. split; [exact Hget|].
  unfold Merkle.get_merkle_root, Merkle.verify_merkle_proof. rewrite Hroot.
  cbn. split; [done|]. rewrite Hclimb. apply String.eqb_refl.
Qed.

Lemma merkle_add_transaction_witness :
  exists p,
    Merkle.get_merkle_proof
      (Merkle.add_transaction (host := Demo.host)
         (Merkle.new_tree (host := Demo.host) ["a"; "b"]) "c")
      "c" = Py.Ok (Some p)
    /\ Merkle.verify_merkle_proof (host := Demo.host) p = true.
Proof.
  destruct (merkle_add_transaction (host := Demo.host) ["a"; "b"] "c" "c")
    as (_ & _ & p & Hget & _ & Hver).
  - apply list_elem_of_In. simpl. tauto.
  - by exists p.
Defined.

(** X6. An SPV client that has stored a block header with the root of a
    tree accepts, for that block, the tree's proof of each of its ids, and
    only for that id; for a block hash it has no header of it accepts
    nothing. *)
Theorem spv_accepts_tree_proof `{host : Host} (c : SPVClient.t)
    (block_hash : string) (height timestamp : Z) (txs : list string)
    (id : string) :
  id ∈ txs ->
  exists root p,
    Merkle.get_merkle_root (Merkle.new_tree txs) = Some root
    /\ Merkle.get_merkle_proof (Merkle.new_tree txs) id = Py.Ok (Some p)
    /\ let c' := SPVClient.add_block_header c block_hash root height timestamp in
       SPVClient.verify_transaction_inclusion c' id block_hash p = true
       /\ (forall other, other <> id ->
             SPVClient.verify_transaction_inclusion c' other block_hash p = false)
       /\ (forall unknown q, SPVClient.block_headers c' !! unknown = None ->
             SPVClient.verify_transaction_inclusion c' id unknown q = false).
Proof.
  intros Hin.
  destruct (get_merkle_proof_found txs id Hin)
    as (r & j & hs & ds & Hroot & Hget & _ & _ & Hclimb & _ & _ & _).
  eexists _, _. split; [|split; [exact Hget|]].
  { unfold Merkle.get_merkle_root. by rewrite Hroot. }
  cbv zeta. unfold SPVClient.verify_transaction_inclusion,
    SPVClient.add_block_header. cbn [SPVClient.block_headers].
  rewrite lookup_insert_eq. cbn.
  rewrite String.eqb_refl. cbn.
  unfold Merkle.verify_merkle_proof. cbn. rewrite Hclimb, String.eqb_refl. cbn.
  split; [by rewrite String.eqb_refl|]. split.
  - intros other Hne. apply not_eq_sym, String.eqb_neq in Hne. by rewrite Hne.
  - intros unknown q ->. reflexivity.
Qed.

Lemma spv_accepts_tree_proof_witness :
  exists root p,
    Merkle.get_merkle_proof (Merkle.new_tree (host := Demo.host) ["a"; "b"]) "a"
    = Py.Ok (Some p)
    /\ SPVClient.verify_transaction_inclusion (host := Demo.host)
         (SPVClient.add_block_header SPVClient.new "00ab" root 1 1700000000)
         "a" "00ab" p = true.
Proof.
  destruct (spv_accepts_tree_proof (host := Demo.host) SPVClient.new "00ab" 1
              1700000000 ["a"; "b"] "a")
    as (root & p & _ & Hget & Hok & _).
  - apply list_elem_of_In. simpl. tauto.
  - by exists root, p.
Defined.

(** ** Blocks and their Merkle trees *)

Lemma hex_nonempty (bs : string) : bs <> "" -> Merkle.hex bs <> "".
Proof. by destruct bs. Qed.

Lemma mine_block_keeps_tree `{host : Host} (fuel : nat) (difficulty : Z)
    (b b' : Block.t) :
  Block.mine_block fuel difficulty b = Some b' ->
  Block.merkle_tree b' = Block.merkle_tree b
  /\ Block.merkle_root b' = Block.merkle_root b
  /\ Block.transactions b' = Block.transactions b.
Proof.
  intros Hm. destruct (mine_block_exit _ _ _ _ Hm) as (_ & _ & _ & ->).
  by destruct b.
Qed.

Lemma collect_hashes_ok `{host : Host} (txs : list TxDict.t)
    (acc ids : list string) :
  Block.collect_hashes txs acc = Py.Ok ids ->
  ids = (acc ++ omap TxDict.transaction_id txs)%list.
Proof.
  revert acc. induction txs as [|d txs IH]; intros acc Hc; simpl in Hc.
  - injection Hc as <-. by rewrite app_nil_r.
  - destruct (TxDict.transaction_id d) as [i|] eqn:Hi; [|done].
    rewrite (IH _ Hc). cbn. rewrite Hi. by rewrite <- app_assoc.
Qed.

Lemma built_hash_nonempty `{host : Host} (n : Merkle.MerkleNode) :
  (forall s, sha256 s <> "") ->
  Merkle.built n -> Merkle.hash_value n <> "".
Proof.
  intros Hsha Hb. destruct Hb; cbn; apply hex_nonempty, Hsha.
Qed.

Lemma block_new_tree_root `{host : Host} (index : Z) (txs : list TxDict.t)
    (previous_hash : string) (timestamp : option string) (nonce : Z)
    (now : string) (b : Block.t) :
  Block.new index txs previous_hash timestamp nonce now = Py.Ok b ->
  txs <> [] ->
  let tree := Merkle.new_tree (omap TxDict.transaction_id txs) in
  Block.merkle_tree b = Some tree
  /\ Block.merkle_root b
     = match Merkle.get_merkle_root tree with
       | Some r => if String.eqb r "" then zeros 64 else r
       | None => zeros 64
       end.
Proof.
  intros Hnew Hne. cbv zeta.
  unfold Block.new, Block._calculate_merkle_root in Hnew.
  destruct txs as [|d0 txs'] eqn:Htxs; [done|]. rewrite <- Htxs in *.
  destruct (Block.collect_hashes txs []) as [ids|e] eqn:Hc; [|done].
  apply collect_hashes_ok in Hc. simpl in Hc. subst ids.
  cbn in Hnew. by injection Hnew as <-.
Qed.

(** A block that carries the tree over [ids], and its root, proves each
    of them. *)
Lemma tree_block_proof `{host : Host} (b : Block.t) (ids : list string)
    (id : string) :
  (forall s, sha256 s <> "") ->
  Block.merkle_tree b = Some (Merkle.new_tree ids) ->
  Block.merkle_root b
  = match Merkle.get_merkle_root (Merkle.new_tree ids) with
    | Some r => if String.eqb r "" then zeros 64 else r
    | None => zeros 64
    end ->
  id ∈ ids ->
  exists p,
    Block.get_merkle_proof b id = Py.Ok (Some p)
    /\ Block.verify_transaction_inclusion b id p = true.
Proof.
  intros Hsha Htree Hroot Hin.
  unfold Block.get_merkle_proof, Block.verify_transaction_inclusion.
  rewrite Htree, Hroot.
  destruct (get_merkle_proof_found ids id Hin)
    as (r & j & hs & ds & Hr & Hget & _ & _ & Hclimb & Hp & _).
  eexists. split; [exact Hget|]. cbn.
  unfold Merkle.get_merkle_root. rewrite Hr.
  pose proof (built_hash_nonempty r Hsha (perfect_built _ _ Hp)) as Hne.
  apply String.eqb_neq in Hne. rewrite Hne. rewrite !String.eqb_refl. cbn.
  unfold Merkle.verify_merkle_proof. cbn. rewrite Hclimb. apply String.eqb_refl.
Qed.

(** X7. In a block the constructor built, and in that block after
    mining, every transaction id has a Merkle proof that
    [verify_transaction_inclusion] accepts for that id, provided SHA-256
    never returns the empty digest, so that the root is not replaced by
    the zero sentinel. *)
Theorem block_inclusion_proof `{host : Host} (index : Z) (txs : list TxDict.t)
    (previous_hash : string) (timestamp : option string) (nonce : Z)
    (now : string) (b b' : Block.t) (fuel : nat) (difficulty : Z)
    (d : TxDict.t) (id : string) :
  (forall s, sha256 s <> "") ->
  Block.new index txs previous_hash timestamp nonce now = Py.Ok b ->
  Block.mine_block fuel difficulty b = Some b' ->
  d ∈ txs ->
  TxDict.transaction_id d = Some id ->
  exists p,
    Block.get_merkle_proof b' id = Py.Ok (Some p)
    /\ Block.verify_transaction_inclusion b' id p = true.
Proof.
  intros Hsha Hnew Hmine Hd Hid.
  destruct (mine_block_keeps_tree _ _ _ _ Hmine) as (Htree & Hroot & _).
  assert (Hne : txs <> []) by (intros ->; by apply elem_of_nil in Hd).
  destruct (block_new_tree_root _ _ _ _ _ _ _ Hnew Hne) as [Htree0 Hroot0].
  apply (tree_block_proof b' (omap TxDict.transaction_id txs) id Hsha).
  - by rewrite Htree.
  - by rewrite Hroot.
  - apply list_elem_of_omap. by exists d.
Qed.

Lemma get_merkle_proof_absent `{host : Host} (txs : list string) (id : string) :
  id ∉ txs ->
  Merkle.get_merkle_proof (Merkle.new_tree txs) id = Py.Ok None.
Proof.
  intros Hout. unfold Merkle.get_merkle_proof.
  replace (Merkle.transactions (Merkle.new_tree txs)) with txs
    by (by destruct txs).
  destruct (existsb (String.eqb id) txs) eqn:E; [|done].
  apply existsb_exists in E as (x & Hx & Heq).
  apply String.eqb_eq in Heq as <-. by apply list_elem_of_In in Hx.
Qed.

Lemma mine_block_difficulty_zero `{host : Host} (fuel : nat) (b : Block.t) :
  Block.mine_block fuel 0 b = Some b.
Proof.
  rewrite mine_block_unfold.
  replace (Block.meets_target 0 (Block.hash b)) with true; [done|].
  symmetry. apply meets_target_spec. unfold str_prefix, zeros. cbn.
  rewrite Z.min_l by lia. by destruct (Block.hash b).
Qed.

Lemma block_new_timestamp `{host : Host} (index : Z) (txs : list TxDict.t)
    (previous_hash : string) (timestamp : option string) (nonce : Z)
    (now : string) (b : Block.t) :
  Block.new index txs previous_hash timestamp nonce now = Py.Ok b ->
  Block.timestamp b
  = match timestamp with
    | Some s => if String.eqb s "" then now else s
    | None => now
    end.
Proof.
  unfold Block.new.
  destruct (Block._calculate_merkle_root txs) as [[tree root]|e]; [|done].
  cbn. by intros [= <-].
Qed.

Lemma demo_block_built :
  match Block.new (host := Demo.host) 1 [Transaction.to_dict Demo.spend]
                  "00ab" None 0 "1700000300" with
  | Py.Ok _ => true
  | Py.Raise _ => false
  end = true.
Proof. vm_compute. reflexivity. Qed.

Lemma block_inclusion_proof_witness :
  exists b p,
    Block.new (host := Demo.host) 1 [Transaction.to_dict Demo.spend] "00ab"
              None 0 "1700000300" = Py.Ok b
    /\ Block.get_merkle_proof b "t1" = Py.Ok (Some p)
    /\ Block.verify_transaction_inclusion (host := Demo.host) b "t1" p = true.
Proof.
  pose proof demo_block_built as Hb.
  destruct (Block.new (host := Demo.host) 1 [Transaction.to_dict Demo.spend]
                      "00ab" None 0 "1700000300") as [b|e] eqn:Hnew;
    [clear Hb|discriminate Hb].
  destruct (block_inclusion_proof (host := Demo.host) 1
              [Transaction.to_dict Demo.spend] "00ab" None 0 "1700000300"
              b b 0%nat 0 (Transaction.to_dict Demo.spend) "t1")
    as (p & Hget & Hver).
  - intros s. discriminate.
  - exact Hnew.
  - apply mine_block_difficulty_zero.
  - apply list_elem_of_In. simpl. tauto.
  - reflexivity.
  - by exists b, p.
Defined.

(** X8. A block that the constructor built, mined or not, is what
    [from_dict] makes of its [to_dict], whatever the clock says then,
    as long as its timestamp is not the empty string: the stored hash,
    root and nonce are taken over and the tree is rebuilt from the
    transactions. *)
Theorem block_dict_round_trip `{host : Host} (index : Z) (txs : list TxDict.t)
    (previous_hash : string) (timestamp : option string) (nonce : Z)
    (now later : string) (b b' : Block.t) (fuel : nat) (difficulty : Z) :
  Block.new index txs previous_hash timestamp nonce now = Py.Ok b ->
  Block.mine_block fuel difficulty b = Some b' ->
  Block.timestamp b' <> "" ->
  Block.from_dict (Block.to_dict b') later = Py.Ok b'.
Proof.
  intros Hnew Hmine Hts.
  destruct (mine_block_exit _ _ _ _ Hmine) as (_ & _ & _ & Hb').
  unfold Block.new in Hnew.
  destruct (Block._calculate_merkle_root txs) as [[tree root]|e] eqn:Hroot;
    [|done].
  cbn in Hnew. injection Hnew as <-. rewrite Hb' in *. cbn in Hts.
  unfold Block.from_dict, Block.from_fields, Block.to_dict, Block.new. cbn.
  apply String.eqb_neq in Hts. rewrite Hts, Hroot. reflexivity.
Qed.

Lemma block_dict_round_trip_witness :
  exists b,
    Block.new (host := Demo.host) 1 [Transaction.to_dict Demo.spend] "00ab"
              None 0 "1700000300" = Py.Ok b
    /\ Block.from_dict (host := Demo.host) (Block.to_dict b) "1700000999"
       = Py.Ok b.
Proof.
  pose proof demo_block_built as Hb.
  destruct (Block.new (host := Demo.host) 1 [Transaction.to_dict Demo.spend]
                      "00ab" None 0 "1700000300") as [b|e] eqn:Hnew;
    [clear Hb|discriminate Hb].
  exists b. split; [reflexivity|].
  apply (block_dict_round_trip (host := Demo.host) 1
           [Transaction.to_dict Demo.spend] "00ab" None 0 "1700000300"
           "1700000999" b b 0%nat 0 Hnew (mine_block_difficulty_zero 0 b)).
  rewrite (block_new_timestamp _ _ _ _ _ _ _ Hnew). discriminate.
Defined.

(** X9. In a block the constructor built, an id that none of its
    transaction dicts carries has no Merkle proof: [get_merkle_proof]
    returns [None]; so it does for every id in a block without
    transactions, which has no tree and the zero sentinel as root. *)
Theorem block_proof_of_absent_id `{host : Host} (index : Z)
    (txs : list TxDict.t) (previous_hash : string) (timestamp : option string)
    (nonce : Z) (now : string) (b : Block.t) (id : string) :
  Block.new index txs previous_hash timestamp nonce now = Py.Ok b ->
  (forall d, d ∈ txs -> TxDict.transaction_id d <> Some id) ->
  Block.get_merkle_proof b id = Py.Ok None
  /\ (txs = [] ->
      Block.merkle_tree b = None /\ Block.merkle_root b = zeros 64).
Proof.
  intros Hnew Hout. unfold Block.new, Block._calculate_merkle_root in Hnew.
  destruct txs as [|d0 txs'] eqn:Htxs.
  - cbn in Hnew. injection Hnew as <-. by repeat split.
  - rewrite <- Htxs in *. split; [|by rewrite Htxs].
    destruct (Block.collect_hashes txs []) as [ids|e] eqn:Hc; [|done].
    apply collect_hashes_ok in Hc. simpl in Hc.
    cbn in Hnew. injection Hnew as <-. unfold Block.get_merkle_proof. cbn.
    apply get_merkle_proof_absent.
    rewrite Hc. intros Hin. apply list_elem_of_omap in Hin as (d & Hd & Hid).
    by apply (Hout d).
Qed.

Lemma block_proof_of_absent_id_witness :
  exists b,
    Block.new (host := Demo.host) 1 [Transaction.to_dict Demo.spend] "00ab"
              None 0 "1700000300" = Py.Ok b
    /\ Block.get_merkle_proof b "t9" = Py.Ok None.
Proof.
  pose proof demo_block_built as Hb.
  destruct (Block.new (host := Demo.host) 1 [Transaction.to_dict Demo.spend]
                      "00ab" None 0 "1700000300") as [b|e] eqn:Hnew;
    [clear Hb|discriminate Hb].
  exists b. split; [reflexivity|].
  apply (block_proof_of_absent_id (host := Demo.host) 1
           [Transaction.to_dict Demo.spend] "00ab" None 0 "1700000300" b "t9"
           Hnew).
  intros d Hd. apply list_elem_of_In in Hd. simpl in Hd.
  destruct Hd as [<-|[]]. discriminate.
Defined.

(** ** Valid transactions *)

Section ValidityFacts.

Context `{host : Host}.


End ValidityFacts.

Lemma sum_unspent_inputs_spec (s : Binary64.utxo_dict)
    (tx : Binary64.Transaction.t) (acc : float) :
  match Binary64.Transaction.sum_unspent_inputs s
          (Binary64.Transaction.inputs tx) acc with
  | Some total =>
      (forall input_tx, input_tx ∈ Binary64.Transaction.inputs tx ->
         exists utxo, s !! TransactionInput.get_utxo_id input_tx = Some utxo
                      /\ Binary64.UTXO.is_spent utxo = false)
      /\ total
         = fold_left PrimFloat.add (Binary64.Spec.referenced_amounts s tx) acc
  | None =>
      exists input_tx, input_tx ∈ Binary64.Transaction.inputs tx
        /\ forall utxo,
             s !! TransactionInput.get_utxo_id input_tx = Some utxo ->
             Binary64.UTXO.is_spent utxo = true
  end.
Proof.
  unfold Binary64.Spec.referenced_amounts.
  revert acc.
  induction (Binary64.Transaction.inputs tx) as [|i ins IH]; intros acc; simpl.
  - split; [|done]. intros x Hx. by apply elem_of_nil in Hx.
  - destruct (s !! TransactionInput.get_utxo_id i) as [u|] eqn:Hu.
    + destruct (Binary64.UTXO.is_spent u) eqn:Hsp.
      * exists i. split; [apply elem_of_cons; by left|].
        intros u' Hu'. rewrite Hu in Hu'. by injection Hu' as <-.
      * specialize (IH (PrimFloat.add acc (Binary64.UTXO.amount u))).
        destruct (Binary64.Transaction.sum_unspent_inputs s ins _) as [total|].
        -- destruct IH as [Hall Htot]. split; [|done].
           intros x Hx. apply elem_of_cons in Hx as [->|Hx];
             [by exists u | by apply Hall].
        -- destruct IH as (x & Hx & Hbad). exists x.
           split; [apply elem_of_cons; by right | done].
    + exists i. split; [apply elem_of_cons; by left|].
      intros u' Hu'. rewrite Hu in Hu'. discriminate.
Qed.

(** X10. [_validate_utxo_constraints] accepts a transaction against a
    UTXO set exactly when every input names a UTXO of the set that is not
    marked spent and the outputs, as the builtin [sum] adds them, are at
    most the referenced amounts added one by one from 0.0, all in
    binary64. So outputs of 1e16 and 1.0 pass against a single UTXO of
    1e16. *)
Theorem validate_utxo_constraints_spec (sum : list float -> float)
    (tx : Binary64.Transaction.t) (s : Binary64.utxo_dict) :
  Binary64.Transaction._validate_utxo_constraints sum tx s = true
  <-> (forall input_tx, input_tx ∈ Binary64.Transaction.inputs tx ->
         exists utxo, s !! TransactionInput.get_utxo_id input_tx = Some utxo
                      /\ Binary64.UTXO.is_spent utxo = false)
      /\ PrimFloat.leb (sum (Binary64.Spec.output_amounts tx))
           (Binary64.Spec.running_sum (Binary64.Spec.referenced_amounts s tx))
         = true.
Proof.
  unfold Binary64.Transaction._validate_utxo_constraints,
    Binary64.Transaction.get_total_output_value, Binary64.py_ge,
    Binary64.Spec.output_amounts, Binary64.Spec.running_sum.
  pose proof (sum_unspent_inputs_spec s tx 0%float) as Hloop.
  destruct (Binary64.Transaction.sum_unspent_inputs s _ _) as [total|].
  - destruct Hloop as [Hall ->]. split; [by intros H | by intros [_ H]].
  - destruct Hloop as (x & Hx & Hbad). split; [discriminate|].
    intros [Hall _]. destruct (Hall x Hx) as (u & Hu & Hsp).
    rewrite (Hbad u Hu) in Hsp. discriminate.
Qed.

Lemma validate_utxo_constraints_spec_witness :
  Binary64.Transaction._validate_utxo_constraints Binary64.Spec.running_sum
    Binary64.Demo.overdraw Binary64.Demo.hoard = true
  /\ PrimFloat.leb
       (Binary64.Spec.running_sum [10000000000000000%float; 1%float])
       (Binary64.Spec.running_sum [10000000000000000%float]) = true.
Proof.
  assert (Hrun :
    Binary64.Transaction._validate_utxo_constraints Binary64.Spec.running_sum
      Binary64.Demo.overdraw Binary64.Demo.hoard = true) by reflexivity.
  split; [exact Hrun|].
  apply (validate_utxo_constraints_spec Binary64.Spec.running_sum
           Binary64.Demo.overdraw Binary64.Demo.hoard) in Hrun as [_ Hle].
  exact Hle.
Defined.

(** X11. A coinbase transaction as [create_coinbase_transaction] makes it
    is valid exactly when the reward is positive, with or without a UTXO
    set; so the genesis transaction, minted for 0, is not. It is coinbase
    and pays no fee. *)
Theorem coinbase_valid_iff_positive `{host : Host} (miner_address : string)
    (reward : Q) (height : option Z) (now : string)
    (utxo_set : option utxo_dict) (s : utxo_dict) :
  let tx :=
    Transaction.create_coinbase_transaction miner_address reward height now in
  (Transaction.is_valid tx utxo_set = true <-> (0 < reward)%Q)
  /\ Transaction.is_coinbase tx = true
  /\ Transaction.calculate_fee tx s = 0%Q
  /\ Transaction.is_valid
       (Transaction.create_coinbase_transaction "genesis" 0 None now) utxo_set
     = false.
Proof.
  cbv zeta. split; [|by repeat split].
  unfold Transaction.is_valid, Transaction.create_coinbase_transaction,
    Transaction.new. cbn.
  destruct (Qle_bool reward 0) eqn:E; cbn.
  - split; [done|]. intros Hpos. apply Qle_bool_iff in E.
    exfalso. by apply (Qlt_not_le _ _ Hpos).
  - split; [|done]. intros _. apply Qnot_le_lt. intros Hle.
    apply Qle_bool_iff in Hle. congruence.
Qed.

(** X12. [from_dict] gives back the transaction [to_dict] was taken from,
    timestamp and id included, whatever the clock says; on a dict that
    has its inputs, outputs and timestamp but no ['transaction_id'] it
    fails. *)
Theorem transaction_dict_round_trip `{host : Host} (tx : Transaction.t)
    (d : TxDict.t) (now : string) :
  Transaction.from_dict (Transaction.to_dict tx) now = Some tx
  /\ (TxDict.transaction_id d = None -> Transaction.from_dict d now = None).
Proof.
  unfold Transaction.from_dict, Transaction.to_dict, Transaction.new. cbn.
  split; [by destruct tx|]. by intros ->.
Qed.

Lemma coinbase_valid_iff_positive_witness :
  Transaction.is_valid (host := Demo.host)
    (Transaction.create_coinbase_transaction (host := Demo.host) "miner" 50
       (Some 1) "1700000500") None = true
  /\ Transaction.is_valid (host := Demo.host)
       (Transaction.create_coinbase_transaction (host := Demo.host) "genesis" 0
          None "1700000000") None = false.
Proof.
  destruct (coinbase_valid_iff_positive (host := Demo.host) "miner" 50 (Some 1)
              "1700000500" None ∅) as ([_ Hpos] & _ & _ & _).
  destruct (coinbase_valid_iff_positive (host := Demo.host) "miner" 50 (Some 1)
              "1700000000" None ∅) as (_ & _ & _ & Hgen).
  split; [apply Hpos; reflexivity | exact Hgen].
Defined.

Lemma transaction_dict_round_trip_witness :
  Transaction.from_dict (host := Demo.host) (Transaction.to_dict Demo.spend)
    "1700000999" = Some Demo.spend
  /\ Transaction.from_dict (host := Demo.host) Demo.anonymous_dict "1700000999"
     = None.
Proof.
  destruct (transaction_dict_round_trip (host := Demo.host) Demo.spend
              Demo.anonymous_dict "1700000999") as [Hrt Hnone].
  split; [exact Hrt | apply Hnone; reflexivity].
Defined.

(** ** Signing *)

Section SigningFacts.

Context `{host : Host}.

Variable sign_message : string -> string -> string.

Lemma is_coinbase_references (tx : Transaction.t)
    (ins : list TransactionInput.t) :
  map Transaction.reference ins = map Transaction.reference (Transaction.inputs tx) ->
  Transaction.is_coinbase (Transaction.with_inputs tx ins)
  = Transaction.is_coinbase tx.
Proof.
  unfold Transaction.is_coinbase. cbn [Transaction.with_inputs Transaction.inputs].
  generalize (Transaction.inputs tx) as ins'. intros ins' Href.
  assert (Hall : forallb (fun i => String.eqb (TransactionInput.transaction_id i) "")
                         ins
                 = forallb (fun i => String.eqb (TransactionInput.transaction_id i) "")
                           ins').
  { revert ins' Href. induction ins as [|i ins IH]; intros [|i' ins'] Href;
      simpl in Href; try done.
    injection Href as Ht Hi Hrest. simpl. rewrite Ht. f_equal. by apply IH. }
  destruct ins, ins'; try done.
Qed.

(** The data that is signed names the inputs by the UTXO they reference
    only, so it is the same before and after signatures are filled in. *)
Lemma signature_data_references (tx : Transaction.t)
    (ins : list TransactionInput.t) :
  map Transaction.reference ins = map Transaction.reference (Transaction.inputs tx) ->
  Transaction.get_transaction_data_for_signature (Transaction.with_inputs tx ins)
  = Transaction.get_transaction_data_for_signature tx.
Proof.
  intros Href. unfold Transaction.get_transaction_data_for_signature.
  rewrite (is_coinbase_references _ _ Href).
  cbn [Transaction.with_inputs Transaction.inputs Transaction.outputs
       Transaction.timestamp Transaction.block_height].
  unfold Transaction.signature_dict.
  assert (Hm : forall l l' : list TransactionInput.t,
            map Transaction.reference l = map Transaction.reference l' ->
            map (fun inp =>
                   JDict [("transaction_id",
                           JStr (TransactionInput.transaction_id inp));
                          ("output_index",
                           JInt (TransactionInput.output_index inp))]) l
            = map (fun inp =>
                     JDict [("transaction_id",
                             JStr (TransactionInput.transaction_id inp));
                            ("output_index",
                             JInt (TransactionInput.output_index inp))]) l').
  { induction l as [|a l IH]; intros [|a' l'] E; simpl in E; try done.
    injection E as Ht Hi Hrest. cbn. rewrite Ht, Hi. f_equal. by apply IH. }
  by rewrite (Hm _ _ Href).
Qed.

Lemma sign_inputs_result (wallet : Transaction.Wallet) (tx : Transaction.t)
    (signed todo : list TransactionInput.t) :
  map Transaction.reference (signed ++ todo) = map Transaction.reference (Transaction.inputs tx) ->
  Transaction.sign_inputs sign_message wallet tx signed todo
  = Transaction.with_inputs tx
      (signed ++ imap (fun k => Transaction.signed_input sign_message wallet tx (length signed + k)) todo).
Proof.
  revert signed. induction todo as [|i todo IH]; intros signed Href.
  - by rewrite app_nil_r.
  - cbn [Transaction.sign_inputs]. rewrite IH.
    + rewrite <- app_assoc. cbn [imap app]. f_equal. f_equal. f_equal.
      * unfold Transaction.signed_input, Transaction._get_input_signature_data.
        rewrite (signature_data_references _ _ Href). by rewrite Nat.add_0_r.
      * apply imap_ext. intros k x _. cbn. rewrite length_app. cbn.
        f_equal. lia.
    + rewrite <- Href, <- app_assoc. cbn. by rewrite !map_app.
Qed.


Lemma signed_inputs_references (wallet : Transaction.Wallet)
    (tx : Transaction.t) (f : nat -> nat) (l : list TransactionInput.t) :
  map Transaction.reference (imap (fun k => Transaction.signed_input sign_message wallet tx (f k)) l)
  = map Transaction.reference l.
Proof.
  revert f. induction l as [|i l IH]; intros f; [done|].
  cbn. f_equal. apply (IH (f ∘ S)).
Qed.

End SigningFacts.



(** ** The UTXO set *)

Lemma spend_inputs_other (ins : list TransactionInput.t) (s : UTXOSet.t)
    (k : string) :
  (forall input_tx, input_tx ∈ ins ->
     TransactionInput.get_utxo_id input_tx <> k) ->
  UTXOSet.spend_inputs s ins !! k = s !! k.
Proof.
  revert s. induction ins as [|i ins IH]; intros s Hk; simpl; [done|].
  assert (Hi : TransactionInput.get_utxo_id i <> k)
    by (apply Hk, list_elem_of_here).
  assert (Hrest : forall x, x ∈ ins -> TransactionInput.get_utxo_id x <> k)
    by (intros x Hx; by apply Hk, list_elem_of_further).
  destruct (s !! TransactionInput.get_utxo_id i); rewrite IH by done;
    [by rewrite lookup_delete_ne|done].
Qed.

(** X14. [update_from_transaction] touches nothing but the UTXOs its
    inputs reference and the ids of its own outputs: every other id is
    in the set after it exactly as before. *)
Theorem update_from_transaction_frame (s : UTXOSet.t) (tx : Transaction.t)
    (k : string) :
  (forall input_tx, input_tx ∈ Transaction.inputs tx ->
     TransactionInput.get_utxo_id input_tx <> k) ->
  (forall j, (j < length (Transaction.outputs tx))%nat ->
     k <> utxo_id_of (Transaction.transaction_id tx) (Z.of_nat j)) ->
  UTXOSet.update_from_transaction s tx !! k = s !! k.
Proof.
  intros Hin Hout. unfold UTXOSet.update_from_transaction.
  rewrite add_outputs_other by (intros j Hj; by apply Hout).
  by apply spend_inputs_other.
Qed.

Lemma update_from_transaction_frame_witness :
  UTXOSet.update_from_transaction
    (<["t7:0" := UTXO.new "t7" 0 3 "dave"]> (Blockchain.utxo_set Demo.ledger))
    Demo.spend !! "t7:0"
  = Some (UTXO.new "t7" 0 3 "dave").
Proof.
  rewrite (update_from_transaction_frame _ Demo.spend "t7:0").
  - reflexivity.
  - intros i Hi. apply list_elem_of_In in Hi. simpl in Hi.
    destruct Hi as [<-|[]]. discriminate.
  - intros j Hj. simpl in Hj. destruct j as [|[|j]]; [discriminate|discriminate|lia].
Defined.

Section BalanceFacts.

Lemma balance_of_cons (address : string) (u : UTXO.t) (l : list UTXO.t) :
  (Spec.balance_of address (u :: l)
   == (if UTXOSet.owned_unspent address u then UTXO.amount u else 0)
      + Spec.balance_of address l)%Q.
Proof.
  unfold Spec.balance_of. simpl. destruct (UTXOSet.owned_unspent address u); simpl;
    ring.
Qed.

Lemma balance_of_perm (address : string) (l l' : list UTXO.t) :
  l ≡ₚ l' -> (Spec.balance_of address l == Spec.balance_of address l')%Q.
Proof.
  induction 1 as [|x l l' _ IH|x y l|l l' l'' _ IH1 _ IH2].
  - reflexivity.
  - by rewrite !balance_of_cons, IH.
  - rewrite !balance_of_cons. ring.
  - by rewrite IH1.
Qed.

Lemma get_balance_balance_of (s : UTXOSet.t) (address : string) :
  (UTXOSet.get_balance s address
   == Spec.balance_of address (map snd (map_to_list s)))%Q.
Proof.
  unfold UTXOSet.get_balance, UTXOSet.get_utxos_by_address.
  apply py_sum_total.
Qed.

Lemma get_balance_insert (s : UTXOSet.t) (k : string) (u : UTXO.t)
    (address : string) :
  s !! k = None ->
  (UTXOSet.get_balance (<[k := u]> s) address
   == UTXOSet.get_balance s address
      + (if UTXOSet.owned_unspent address u then UTXO.amount u else 0))%Q.
Proof.
  intros Hk. rewrite !get_balance_balance_of.
  rewrite (balance_of_perm address _ (u :: map snd (map_to_list s))).
  - rewrite balance_of_cons. ring.
  - change (u :: map snd (map_to_list s))
      with (map snd ((k, u) :: map_to_list s)).
    apply Permutation_map. by apply map_to_list_insert.
Qed.

End BalanceFacts.

(** X16. The UTXO set stays well keyed: if every UTXO is stored under its
    own id and none is marked spent, this is so after
    [update_from_transaction], hence after any run of [_update_utxo_set];
    the empty set is. *)
Theorem utxo_set_stays_well_keyed (s : UTXOSet.t)
    (txs : list Transaction.t) :
  UTXOSet.well_keyed UTXOSet.empty
  /\ (UTXOSet.well_keyed s ->
      (forall tx, UTXOSet.well_keyed (UTXOSet.update_from_transaction s tx))
      /\ UTXOSet.well_keyed (Blockchain._update_utxo_set s txs)).
Proof.
  assert (Hspend : forall ins s0, UTXOSet.well_keyed s0 ->
                     UTXOSet.well_keyed (UTXOSet.spend_inputs s0 ins)).
  { induction ins as [|i ins IH]; intros s0 Hs0; simpl; [done|].
    destruct (s0 !! TransactionInput.get_utxo_id i); apply IH; [|done].
    intros k u Hk. apply lookup_delete_Some in Hk as [_ Hk]. by apply Hs0. }
  assert (Hadd : forall outs s0 tid n, UTXOSet.well_keyed s0 ->
                   UTXOSet.well_keyed (UTXOSet.add_outputs s0 tid n outs)).
  { induction outs as [|o outs IH]; intros s0 tid n Hs0; simpl; [done|].
    apply IH. intros k u Hk. unfold UTXOSet.add_utxo in Hk.
    apply lookup_insert_Some in Hk as [[<- <-]|[_ Hk]]; [done|by apply Hs0]. }
  assert (Hupd : forall s0 tx, UTXOSet.well_keyed s0 ->
                   UTXOSet.well_keyed (UTXOSet.update_from_transaction s0 tx)).
  { intros s0 tx Hs0. by apply Hadd, Hspend. }
  split; [intros k u Hk; unfold UTXOSet.empty in Hk;
          by rewrite lookup_empty in Hk|].
  intros Hs. split; [intros tx; by apply Hupd|].
  revert s Hs. induction txs as [|tx txs IH]; intros s Hs; simpl; [done|].
  by apply IH, Hupd.
Qed.

Lemma utxo_set_stays_well_keyed_witness :
  UTXOSet.well_keyed
    (UTXOSet.update_from_transaction (Blockchain.utxo_set Demo.ledger) Demo.spend).
Proof.
  destruct (utxo_set_stays_well_keyed (Blockchain.utxo_set Demo.ledger) [])
    as [_ Hkeep].
  apply Hkeep. intros k u Hk.
  change (Blockchain.utxo_set Demo.ledger)
    with ({[ "t0:0" := UTXO.new "t0" 0 50 "addr-key" ]} : UTXOSet.t) in Hk.
  apply lookup_singleton_Some in Hk as [<- <-]. done.
Defined.

(** ** Selecting UTXOs *)






(** ** What the mempool accepts *)

Section SpendFacts.

Context `{host : Host}.

Variable sign_message : string -> string -> string.

Lemma check_inputs_ids (s : UTXOSet.t) (used : gset string)
    (ins : list TransactionInput.t) (sel : list UTXO.t) (acc : Q) :
  map TransactionInput.get_utxo_id ins = map UTXO.get_utxo_id sel ->
  (forall u, u ∈ sel ->
     s !! UTXO.get_utxo_id u = Some u /\ UTXO.is_spent u = false
     /\ UTXO.get_utxo_id u ∉ used) ->
  exists total,
    Blockchain.check_inputs s used ins acc = Some total
    /\ (total == acc + Spec.funds sel)%Q.
Proof.
  revert sel acc. induction ins as [|i ins IH]; intros [|u sel] acc Hids Hsel;
    simpl in Hids; try done.
  - exists acc. split; [done|]. unfold Spec.funds. simpl. ring.
  - injection Hids as Hi Hids. simpl. rewrite Hi.
    destruct (Hsel u) as (-> & -> & Hfree); [apply list_elem_of_here|].
    rewrite bool_decide_eq_false_2 by done.
    destruct (IH sel (acc + UTXO.amount u)%Q Hids) as (total & -> & Htot).
    + intros v Hv. by apply Hsel, list_elem_of_further.
    + exists total. split; [done|]. rewrite Htot. unfold Spec.funds. simpl. ring.
Qed.

Lemma sum_unspent_inputs_ids (s : UTXOSet.t)
    (ins : list TransactionInput.t) (sel : list UTXO.t) (acc : Q) :
  map TransactionInput.get_utxo_id ins = map UTXO.get_utxo_id sel ->
  (forall u, u ∈ sel ->
     s !! UTXO.get_utxo_id u = Some u /\ UTXO.is_spent u = false) ->
  exists total,
    Transaction.sum_unspent_inputs s ins acc = Some total
    /\ (total == acc + Spec.funds sel)%Q.
Proof.
  revert sel acc. induction ins as [|i ins IH]; intros [|u sel] acc Hids Hsel;
    simpl in Hids; try done.
  - exists acc. split; [done|]. unfold Spec.funds. simpl. ring.
  - injection Hids as Hi Hids. simpl. rewrite Hi.
    destruct (Hsel u) as (-> & ->); [apply list_elem_of_here|].
    destruct (IH sel (acc + UTXO.amount u)%Q Hids) as (total & -> & Htot).
    + intros v Hv. by apply Hsel, list_elem_of_further.
    + exists total. split; [done|]. rewrite Htot. unfold Spec.funds. simpl. ring.
Qed.

Lemma verify_inputs_signed_in_set (wallet : Transaction.Wallet)
    (tx tx' : Transaction.t) (s : UTXOSet.t) (start : nat)
    (todo : list TransactionInput.t) :
  (forall m, verify_signature_static m
               (sign_message (Transaction.private_key_hex wallet) m)
               (Transaction.public_key_hex wallet) = true) ->
  (forall m, sign_message (Transaction.private_key_hex wallet) m <> "") ->
  Transaction.public_key_hex wallet <> "" ->
  Transaction.get_transaction_data_for_signature tx'
  = Transaction.get_transaction_data_for_signature tx ->
  (forall i, i ∈ todo ->
     exists u, s !! TransactionInput.get_utxo_id i = Some u
               /\ derive_address_from_public_key
                    (Transaction.public_key_hex wallet)
                  = UTXO.recipient_address u) ->
  Transaction.verify_inputs tx' (Some s) start
    (imap (fun k => Transaction.signed_input sign_message wallet tx (start + k))
          todo) = true.
Proof.
  intros Hver Hsig Hkey Hdata. revert start.
  induction todo as [|i todo IH]; intros start Hset; [done|].
  cbn [imap Transaction.verify_inputs Transaction.signed_input
       TransactionInput.signature TransactionInput.public_key].
  rewrite Nat.add_0_r.
  pose proof (Hsig (Transaction._get_input_signature_data tx start)) as Hs.
  apply String.eqb_neq in Hs, Hkey. rewrite Hs, Hkey. cbn [orb].
  destruct (Hset i) as (u & Hu & Haddr); [apply list_elem_of_here|].
  unfold Transaction._verify_input_address. cbv zeta.
  unfold TransactionInput.get_utxo_id at 1.
  cbn [TransactionInput.transaction_id TransactionInput.output_index
       TransactionInput.public_key Transaction.signed_input].
  fold (TransactionInput.get_utxo_id i).
  rewrite Hu. cbn [TransactionInput.public_key]. rewrite Haddr, String.eqb_refl.
  cbn [negb].
  replace (Transaction._get_input_signature_data tx' start)
    with (Transaction._get_input_signature_data tx start)
    by (unfold Transaction._get_input_signature_data; by rewrite Hdata).
  rewrite Hver. cbn [negb].
  rewrite <- (IH (S start)).
  - f_equal. apply imap_ext. intros k x _. cbn. f_equal. lia.
  - intros j Hj. by apply Hset, list_elem_of_further.
Qed.

Lemma references_utxo_ids (l l' : list TransactionInput.t) :
  map Transaction.reference l = map Transaction.reference l' ->
  map TransactionInput.get_utxo_id l = map TransactionInput.get_utxo_id l'.
Proof.
  revert l'. induction l as [|a l IH]; intros [|a' l'] E; simpl in E; try done.
  injection E as Ht Hi Hrest. cbn. unfold TransactionInput.get_utxo_id.
  rewrite Ht, Hi. f_equal. by apply IH.
Qed.

(** What [add_transaction] asks of a transaction whose inputs name the
    UTXOs [sel]. *)
Lemma add_transaction_accepts (bc : Blockchain.t) (tx : Transaction.t)
    (sel : list UTXO.t) :
  map TransactionInput.get_utxo_id (Transaction.inputs tx)
  = map UTXO.get_utxo_id sel ->
  (forall u, u ∈ sel ->
     Blockchain.utxo_set bc !! UTXO.get_utxo_id u = Some u
     /\ UTXO.is_spent u = false
     /\ UTXO.get_utxo_id u
        ∉ Blockchain.pending_used_utxos (Blockchain.pending_transactions bc)) ->
  Transaction.outputs tx <> [] ->
  existsb (fun output => Qle_bool (TransactionOutput.amount output) 0)
          (Transaction.outputs tx) = false ->
  (Spec.total (Spec.output_amounts tx) <= Spec.funds sel)%Q ->
  (Transaction.is_coinbase tx = false ->
   Transaction.verify_signature tx (Some (Blockchain.utxo_set bc)) = true) ->
  Blockchain.add_transaction bc tx
  = (true,
     Blockchain.set_pending bc (Blockchain.pending_transactions bc ++ [tx])%list
       (TransactionHistoryCache.invalidate_cache (Blockchain.history_cache bc))).
Proof.
  intros Hids Hsel Hout Hpos Hle Hsig.
  assert (Hout_le : forall t, (t == 0 + Spec.funds sel)%Q ->
            Qle_bool (py_sum (map TransactionOutput.amount
                                  (Transaction.outputs tx))) t = true).
  { intros t Ht. apply Qle_bool_iff. rewrite py_sum_total, Ht.
    rewrite Qplus_0_l. exact Hle. }
  assert (Hvalid : Transaction.is_valid tx (Some (Blockchain.utxo_set bc)) = true).
  { unfold Transaction.is_valid. destruct (Transaction.outputs tx) eqn:Eo; [done|].
    rewrite <- Eo in *. rewrite Hpos.
    destruct (Transaction.is_coinbase tx) eqn:Ecb.
    - rewrite Eo. done.
    - destruct (Transaction.inputs tx) eqn:Ei.
      { unfold Transaction.is_coinbase in Ecb. by rewrite Ei in Ecb. }
      rewrite <- Ei in *. rewrite (Hsig eq_refl). cbn [negb].
      unfold Transaction._validate_utxo_constraints,
        Transaction.get_total_output_value.
      destruct (sum_unspent_inputs_ids (Blockchain.utxo_set bc)
                  (Transaction.inputs tx) sel 0 Hids) as (tot & -> & Ht).
      { intros u Hu. by destruct (Hsel u Hu) as (? & ? & _). }
      by rewrite (Hout_le tot Ht). }
  unfold Blockchain.add_transaction. rewrite Hvalid. cbn [negb].
  destruct (Transaction.inputs tx) eqn:Ei; [done|]. rewrite <- Ei in *.
  unfold Blockchain._validate_transaction_utxos.
  destruct (check_inputs_ids (Blockchain.utxo_set bc)
              (Blockchain.pending_used_utxos (Blockchain.pending_transactions bc))
              (Transaction.inputs tx) sel 0 Hids Hsel) as (tot & -> & Ht).
  by rewrite (Hout_le tot Ht).
Qed.

End SpendFacts.

(** ** The validity of the chain *)

Section ChainFacts.

Context `{host : Host}.

Lemma from_dict_clock (d : TxDict.t) (now now' : string) :
  Transaction.from_dict d now = Transaction.from_dict d now'.
Proof. reflexivity. Qed.









End ChainFacts.


Lemma demo_digest_nonempty (s : string) : Demo.digest s <> "".
Proof. discriminate. Qed.

Lemma busy_run_mines :
  match Blockchain.mine_pending_transactions (host := Demo.host) 10
          "1700000500" "1700009999" Demo.busy "addr-key" with
  | Some (Py.Ok _) => true
  | _ => false
  end = true.
Proof. vm_compute. reflexivity. Qed.



(** X21. The constructor never fails. The new ledger holds the genesis
    block only: index 0, previous hash ["0"], nonce 0 (it is not mined),
    with its hash computed from its header and the genesis transaction
    as its one entry. Its mempool is empty, its chain is valid, its UTXO
    set is well keyed, and every balance is 0. *)
Theorem fresh_ledger `{host : Host} (difficulty : Z) (mining_reward : Q)
    (now_tx now_block now : string) :
  exists bc genesis_block,
    Blockchain.new difficulty mining_reward now_tx now_block = Py.Ok bc
    /\ Blockchain.chain bc = [genesis_block]
    /\ Block.index genesis_block = 0
    /\ Block.previous_hash genesis_block = "0"
    /\ Block.nonce genesis_block = 0
    /\ Block.hash genesis_block = Block.calculate_hash genesis_block
    /\ Block.transactions genesis_block
       = [Transaction.to_dict
            (Transaction.create_coinbase_transaction "genesis" 0 None now_tx)]
    /\ Blockchain.pending_transactions bc = []
    /\ Blockchain.difficulty bc = difficulty
    /\ Blockchain.mining_reward bc = mining_reward
    /\ Blockchain.is_chain_valid bc now = true
    /\ UTXOSet.well_keyed (Blockchain.utxo_set bc)
    /\ (forall address, (Blockchain.get_balance bc address == 0)%Q).
Proof.
  set (genesis_transaction :=
         Transaction.create_coinbase_transaction "genesis" 0 None now_tx).
  destruct (block_new_with_ids 0 [Transaction.to_dict genesis_transaction] "0"
              None 0 now_block (to_dict_has_id [genesis_transaction]))
    as (b & Hnew & Hindex & Htxs & Hprev & Hnonce & Hhash & _).
  unfold Blockchain.new. fold genesis_transaction. rewrite Hnew. cbn [mbind Py.bind]. unfold mbind; cbn [Py.bind].
  eexists _, _. split; [reflexivity|].
  cbn [Blockchain.chain Blockchain.pending_transactions Blockchain.difficulty
       Blockchain.mining_reward Blockchain.utxo_set].
  assert (Hb : Block.set_nonce_hash b (Block.nonce b) (Block.calculate_hash b) = b).
  { destruct b. cbn in *. by rewrite <- Hhash. }
  rewrite Hb.
  do 10 (split; [done|]).
  split.
  - intros k u. cbn. unfold UTXOSet.update_from_transaction. cbn.
    unfold UTXOSet.add_utxo. intros Hk.
    apply lookup_insert_Some in Hk as [[<- <-]|[_ Hk]]; [done|].
    unfold UTXOSet.empty in Hk. by rewrite lookup_empty in Hk.
  - intros address. unfold Blockchain.get_balance.
    cbn [Blockchain.utxo_set Blockchain._update_utxo_set].
    unfold UTXOSet.update_from_transaction. cbn.
    unfold UTXOSet.add_utxo, UTXOSet.empty.
    rewrite get_balance_insert by apply lookup_empty.
    unfold UTXOSet.get_balance, UTXOSet.get_utxos_by_address.
    rewrite map_to_list_empty. cbn.
    destruct (UTXOSet.owned_unspent _ _); reflexivity.
Qed.

Section MiningFacts.

Context `{host : Host}.

Lemma mine_pending_transactions_block (fuel : nat) (now_tx now_block : string)
    (bc : Blockchain.t) (address : string) (block : Block.t)
    (bc' : Blockchain.t) :
  Blockchain.mine_pending_transactions fuel now_tx now_block bc address
  = Some (Py.Ok (block, bc')) ->
  exists latest b0,
    last (Blockchain.chain bc) = Some latest
    /\ Block.new (Z.of_nat (length (Blockchain.chain bc)))
         (map Transaction.to_dict (Blockchain.pending_transactions bc)
          ++ [Transaction.to_dict
                (Blockchain.reward_transaction now_tx bc address)])%list
         (Block.hash latest) None 0 now_block = Py.Ok b0
    /\ Block.mine_block fuel (Blockchain.difficulty bc) b0 = Some block
    /\ Blockchain.chain bc' = (Blockchain.chain bc ++ [block])%list
    /\ Blockchain.utxo_set bc'
       = Blockchain._update_utxo_set (Blockchain.utxo_set bc)
           (Blockchain.pending_transactions bc
            ++ [Blockchain.reward_transaction now_tx bc address])%list
    /\ Blockchain.pending_transactions bc' = [].
Proof.
  unfold Blockchain.mine_pending_transactions, Blockchain.get_latest_block.
  destruct (last (Blockchain.chain bc)) as [latest|]; [|done].
  destruct (Block.new _ _ _ _ _ _) as [b0|e] eqn:Hnew; [|done].
  destruct (Block.mine_block _ _ _) as [b|] eqn:Hmine; [|done].
  intros [= <- <-]. by exists latest, b0.
Qed.

End MiningFacts.

(** X23. After [mine_pending_transactions], every transaction of the new
    block (the pending ones and the reward transaction) has a Merkle
    proof in that block which [verify_transaction_with_merkle_proof]
    accepts at the block's index, provided SHA-256 never returns the
    empty digest. A block index below 0 or past the end of the chain is
    refused whatever the proof. *)
Theorem mined_transactions_are_provable `{host : Host} (fuel : nat)
    (now_tx now_block : string) (bc : Blockchain.t) (miner : string)
    (block : Block.t) (bc' : Blockchain.t) (tx : Transaction.t) :
  (forall s, sha256 s <> "") ->
  Blockchain.mine_pending_transactions fuel now_tx now_block bc miner
  = Some (Py.Ok (block, bc')) ->
  tx ∈ (Blockchain.pending_transactions bc
        ++ [Blockchain.reward_transaction now_tx bc miner])%list ->
  (exists proof,
     Block.get_merkle_proof block (Transaction.transaction_id tx)
     = Py.Ok (Some proof)
     /\ Blockchain.verify_transaction_with_merkle_proof bc'
          (Transaction.transaction_id tx)
          (Z.of_nat (length (Blockchain.chain bc))) proof = true)
  /\ (forall proof block_index,
        block_index < 0
        \/ Z.of_nat (length (Blockchain.chain bc)) + 1 <= block_index ->
        Blockchain.verify_transaction_with_merkle_proof bc'
          (Transaction.transaction_id tx) block_index proof = false).
Proof.
  intros Hsha Hrun Htx.
  destruct (mine_pending_transactions_block _ _ _ _ _ _ _ Hrun)
    as (latest & b0 & _ & Hnew & Hmine & Hchain & _).
  unfold Blockchain.verify_transaction_with_merkle_proof. rewrite Hchain.
  split.
  - destruct (mine_block_keeps_tree _ _ _ _ Hmine) as (Htree & Hroot & _).
    destruct (block_new_tree_root _ _ _ _ _ _ _ Hnew) as [Htree0 Hroot0].
    { by destruct (map Transaction.to_dict (Blockchain.pending_transactions bc)). }
    destruct (tree_block_proof block _ (Transaction.transaction_id tx) Hsha
                (eq_trans Htree Htree0) (eq_trans Hroot Hroot0))
      as (proof & Hget & Hver).
    + apply list_elem_of_omap. exists (Transaction.to_dict tx).
      split; [|reflexivity].
      apply elem_of_app in Htx as [Htx|Htx]; apply elem_of_app.
      * left. apply list_elem_of_In, in_map, list_elem_of_In, Htx.
      * right. apply list_elem_of_singleton in Htx as ->.
        apply list_elem_of_here.
    + exists proof. split; [exact Hget|].
      rewrite length_app. cbn [length].
      replace (Z.of_nat (length (Blockchain.chain bc)) <? 0) with false
        by (symmetry; apply Z.ltb_ge; lia).
      replace (Z.of_nat (length (Blockchain.chain bc) + 1)
               <=? Z.of_nat (length (Blockchain.chain bc))) with false
        by (symmetry; apply Z.leb_gt; lia).
      cbn [orb]. rewrite Nat2Z.id.
      rewrite lookup_app_r by lia. rewrite Nat.sub_diag. exact Hver.
  - intros proof block_index Hout. rewrite length_app. cbn [length].
    destruct (block_index <? 0) eqn:Hneg; [done|]. apply Z.ltb_ge in Hneg.
    replace (Z.of_nat (length (Blockchain.chain bc) + 1) <=? block_index)
      with true; [done|].
    symmetry. apply Z.leb_le. lia.
Qed.

Lemma mined_transactions_are_provable_witness :
  exists block bc' proof,
    Blockchain.mine_pending_transactions (host := Demo.host) 10
      "1700000500" "1700009999" Demo.busy "addr-key"
    = Some (Py.Ok (block, bc'))
    /\ Block.get_merkle_proof block "t1" = Py.Ok (Some proof)
    /\ Blockchain.verify_transaction_with_merkle_proof (host := Demo.host)
         bc' "t1" 1 proof = true.
Proof.
  pose proof busy_run_mines as Hrun.
  destruct (Blockchain.mine_pending_transactions (host := Demo.host) 10
              "1700000500" "1700009999" Demo.busy "addr-key")
    as [[[block bc']|e]|] eqn:E; try discriminate Hrun.
  destruct (mined_transactions_are_provable (host := Demo.host) _ _ _ _ _ _ _
              Demo.spend (fun s => demo_digest_nonempty s) E)
    as ((proof & Hget & Hver) & _).
  - apply elem_of_app. left. apply list_elem_of_here.
  - exists block, bc', proof. split; [reflexivity|]. split; [exact Hget|].
    exact Hver.
Defined.

(** ** Difficulty *)

Lemma adjustment_factor_bounds (ratio : Q) :
  (1 # 4 <= py_max DifficultyAdjustment.MIN_ADJUSTMENT_FACTOR
              (py_min DifficultyAdjustment.MAX_ADJUSTMENT_FACTOR ratio)
   <= 4)%Q.
Proof.
  unfold py_max, py_min, DifficultyAdjustment.MIN_ADJUSTMENT_FACTOR,
    DifficultyAdjustment.MAX_ADJUSTMENT_FACTOR.
  destruct (Qle_bool 4 ratio) eqn:E1.
  - destruct (Qle_bool 4 (1 # 4)) eqn:E2; [done|]. split; [done|apply Qle_refl].
  - destruct (Qle_bool ratio (1 # 4)) eqn:E2.
    + split; [apply Qle_refl|done].
    + split.
      * apply Qlt_le_weak, Qnot_le_lt. intros H. apply Qle_bool_iff in H.
        congruence.
      * apply Qlt_le_weak, Qnot_le_lt. intros H. apply Qle_bool_iff in H.
        congruence.
Qed.

Lemma adjustment_factor_one (ratio : Q) :
  (ratio == 1)%Q ->
  (py_max DifficultyAdjustment.MIN_ADJUSTMENT_FACTOR
          (py_min DifficultyAdjustment.MAX_ADJUSTMENT_FACTOR ratio) == 1)%Q.
Proof.
  intros Hr.
  unfold py_max, py_min, DifficultyAdjustment.MIN_ADJUSTMENT_FACTOR,
    DifficultyAdjustment.MAX_ADJUSTMENT_FACTOR.
  destruct (Qle_bool 4 ratio) eqn:E1.
  { apply Qle_bool_iff in E1. lra. }
  destruct (Qle_bool ratio (1 # 4)) eqn:E2; [|done].
  apply Qle_bool_iff in E2. lra.
Qed.

Lemma adjustment_factor_low (ratio : Q) :
  (ratio <= 1 # 4)%Q ->
  py_max DifficultyAdjustment.MIN_ADJUSTMENT_FACTOR
         (py_min DifficultyAdjustment.MAX_ADJUSTMENT_FACTOR ratio) = (1 # 4)%Q.
Proof.
  intros Hr.
  unfold py_max, py_min, DifficultyAdjustment.MIN_ADJUSTMENT_FACTOR,
    DifficultyAdjustment.MAX_ADJUSTMENT_FACTOR.
  destruct (Qle_bool 4 ratio) eqn:E1.
  { apply Qle_bool_iff in E1. lra. }
  apply Qle_bool_iff in Hr. by rewrite Hr.
Qed.

Lemma div_negative (a b : Q) : (0 < a)%Q -> (b < 0)%Q -> (a / b < 0)%Q.
Proof.
  intros Ha Hb.
  assert (Hm : (b * (a / b) == a)%Q) by (apply Qmult_div_r; lra).
  apply Qnot_le_lt. intros Hle. nra.
Qed.

Lemma div_self (a b : Q) : (b == a)%Q -> ~ (b == 0)%Q -> (a / b == 1)%Q.
Proof. intros H Hb. rewrite <- H. field. exact Hb. Qed.

Lemma py_div_nonzero (a b : Q) :
  ~ (b == 0)%Q -> DifficultyAdjustment.py_div a b = Py.Ok (a / b)%Q.
Proof.
  intros Hb. unfold DifficultyAdjustment.py_div.
  destruct (Qeq_bool b 0) eqn:E; [|done]. by apply Qeq_bool_iff in E.
Qed.

Lemma py_div_zero (a b : Q) :
  (b == 0)%Q -> DifficultyAdjustment.py_div a b = Py.Raise Py.ZeroDivisionError.
Proof.
  intros Hb. unfold DifficultyAdjustment.py_div.
  apply Qeq_bool_iff in Hb. by rewrite Hb.
Qed.

(** X24. On a boundary with both headers found and a timespan other than
    zero, [calculate_next_difficulty] returns between a quarter of and
    four times the difficulty of the last header of the window (when
    that is not negative): the same difficulty when the window took
    exactly two weeks, a quarter when its timestamps run backwards. It
    appends one record to the history, with the height, the clock
    reading, the old and new difficulty and the timespan, and leaves the
    headers alone. *)
Theorem next_difficulty_bounds (da : DifficultyAdjustment.t) (height : Z)
    (now : Q) (start_block end_block : BlockHeader.t) :
  0 < height ->
  height mod DifficultyAdjustment.ADJUSTMENT_INTERVAL = 0 ->
  DifficultyAdjustment.find_block_by_height da
    (height - DifficultyAdjustment.ADJUSTMENT_INTERVAL) = Some start_block ->
  DifficultyAdjustment.find_block_by_height da (height - 1) = Some end_block ->
  let actual_timespan :=
    (BlockHeader.timestamp end_block - BlockHeader.timestamp start_block)%Q in
  let old := BlockHeader.difficulty end_block in
  ~ (actual_timespan == 0)%Q ->
  (0 <= old)%Q ->
  exists new_difficulty info,
    DifficultyAdjustment.calculate_next_difficulty da height now
    = Py.Ok (new_difficulty,
             DifficultyAdjustment.mk
               (DifficultyAdjustment.initial_difficulty da)
               (DifficultyAdjustment.block_headers da)
               (DifficultyAdjustment.difficulty_history da ++ [info]))
    /\ (old / 4 <= new_difficulty <= 4 * old)%Q
    /\ ((actual_timespan
         == inject_Z DifficultyAdjustment.TARGET_TIMESPAN)%Q ->
        (new_difficulty == old)%Q)
    /\ ((actual_timespan < 0)%Q -> (new_difficulty == old / 4)%Q)
    /\ DifficultyAdjustment.info_height info = height
    /\ DifficultyAdjustment.info_timestamp info = now
    /\ DifficultyAdjustment.old_difficulty info = old
    /\ DifficultyAdjustment.new_difficulty info = new_difficulty
    /\ DifficultyAdjustment.actual_timespan info = actual_timespan.
Proof.
  intros Hpos Hmod Hstart Hend actual_timespan old Hspan Hold.
  unfold DifficultyAdjustment.calculate_next_difficulty.
  replace (DifficultyAdjustment.should_adjust_difficulty height) with true
    by (symmetry; by apply should_adjust_difficulty_spec).
  cbn [negb]. rewrite Hstart, Hend. fold actual_timespan.
  rewrite (py_div_nonzero _ _ Hspan). unfold mbind. cbn [Py.bind].
  fold old.
  set (ratio := (inject_Z DifficultyAdjustment.TARGET_TIMESPAN
                 / actual_timespan)%Q).
  pose proof (adjustment_factor_bounds ratio) as [Hlo Hhi].
  set (factor := py_max _ _) in *.
  exists (old * factor)%Q. eexists. split; [reflexivity|].
  cbn [DifficultyAdjustment.info_height DifficultyAdjustment.info_timestamp
       DifficultyAdjustment.old_difficulty DifficultyAdjustment.new_difficulty
       DifficultyAdjustment.actual_timespan].
  split; [|split; [|split; [|done]]].
  - split.
    + change (old / 4)%Q with (old * (1 # 4))%Q.
      rewrite !(Qmult_comm old). by apply Qmult_le_compat_r.
    + rewrite (Qmult_comm old). by apply Qmult_le_compat_r.
  - intros Heq.
    assert (Hf : (factor == 1)%Q).
    { apply adjustment_factor_one. by apply div_self. }
    rewrite Hf. ring.
  - intros Hneg.
    assert (Hf : factor = (1 # 4)%Q).
    { apply adjustment_factor_low.
      assert (ratio < 0)%Q by (by apply div_negative). lra. }
    rewrite Hf. reflexivity.
Qed.

Lemma next_difficulty_bounds_witness :
  exists new_difficulty da',
    DifficultyAdjustment.calculate_next_difficulty
      Demo.on_time
      2016 1700000000
    = Py.Ok (new_difficulty, da')
    /\ (new_difficulty == 2)%Q
    /\ length (DifficultyAdjustment.difficulty_history da') = 1%nat.
Proof.
  destruct (next_difficulty_bounds
              Demo.on_time 2016 1700000000 Demo.first_header
              Demo.punctual_header)
    as (new_difficulty & info & Hrun & _ & Hsame & _).
  - reflexivity.
  - reflexivity.
  - reflexivity.
  - reflexivity.
  - discriminate.
  - discriminate.
  - eexists _, _. split; [exact Hrun|]. split; [|reflexivity].
    apply Hsame. reflexivity.
Defined.

(** X25. [predict_next_adjustment] works from the last header. It
    returns [None] when no header has the height at which the cycle of
    the last one starts, and raises [ZeroDivisionError] when that header
    carries the timestamp of the last one, as it does when the last
    header is itself the start of its cycle. A prediction it returns
    counts between 0 and 2015 blocks to the next boundary, and predicts
    between a quarter of and four times the current difficulty. *)
Theorem predict_next_adjustment_spec (da : DifficultyAdjustment.t)
    (last_header : BlockHeader.t) :
  last (DifficultyAdjustment.block_headers da) = Some last_header ->
  let height := BlockHeader.height last_header in
  let cycle_start_height :=
    height - height mod DifficultyAdjustment.ADJUSTMENT_INTERVAL in
  (DifficultyAdjustment.find_block_by_height da cycle_start_height = None ->
   DifficultyAdjustment.predict_next_adjustment da = Py.Ok None)
  /\ (forall cycle_start_block,
        DifficultyAdjustment.find_block_by_height da cycle_start_height
        = Some cycle_start_block ->
        (BlockHeader.timestamp last_header
         == BlockHeader.timestamp cycle_start_block)%Q ->
        DifficultyAdjustment.predict_next_adjustment da
        = Py.Raise Py.ZeroDivisionError)
  /\ (forall p,
        DifficultyAdjustment.predict_next_adjustment da = Py.Ok (Some p) ->
        let until := DifficultyAdjustment.blocks_until_adjustment p in
        let old := BlockHeader.difficulty last_header in
        0 <= until < DifficultyAdjustment.ADJUSTMENT_INTERVAL
        /\ (height + until) mod DifficultyAdjustment.ADJUSTMENT_INTERVAL = 0
        /\ DifficultyAdjustment.current_difficulty p = old
        /\ ((0 <= old)%Q ->
            (old / 4 <= DifficultyAdjustment.predicted_difficulty p
             <= 4 * old)%Q)).
Proof.
  intros Hlast height cycle_start_height.
  unfold DifficultyAdjustment.predict_next_adjustment. rewrite Hlast.
  fold height. fold cycle_start_height.
  assert (Hmod : 0 <= height mod DifficultyAdjustment.ADJUSTMENT_INTERVAL
                 < DifficultyAdjustment.ADJUSTMENT_INTERVAL)
    by (apply Z.mod_pos_bound; reflexivity).
  assert (Hblocks : (0 <? height - cycle_start_height + 1) = true)
    by (apply Z.ltb_lt; unfold cycle_start_height; lia).
  assert (Hnz : ~ (inject_Z (height - cycle_start_height + 1) == 0)%Q).
  { unfold Qeq. cbn. unfold cycle_start_height. lia. }
  split; [|split].
  - by intros ->.
  - intros start Hstart Hsame. rewrite Hstart, Hblocks.
    rewrite (py_div_nonzero _ _ Hnz). unfold mbind, res_bind. cbn [Py.bind].
    rewrite py_div_zero; [done|]. rewrite Hsame. field. exact Hnz.
  - intros p.
    destruct (DifficultyAdjustment.find_block_by_height da cycle_start_height)
      as [start|]; [|done].
    rewrite Hblocks, (py_div_nonzero _ _ Hnz). unfold mbind, res_bind. cbn [Py.bind].
    destruct (DifficultyAdjustment.py_div _ _) as [ratio|e]; [|done].
    cbn [Py.bind]. intros [= <-].
    cbn [DifficultyAdjustment.blocks_until_adjustment
         DifficultyAdjustment.current_difficulty
         DifficultyAdjustment.predicted_difficulty].
    pose proof (adjustment_factor_bounds ratio) as [Hlo Hhi].
    split; [|split; [|split; [done|]]].
    + destruct (_ =? _) eqn:E; [done|]. apply Z.eqb_neq in E. lia.
    + destruct (_ =? _) eqn:E.
      * apply Z.eqb_eq in E.
        assert (Hz : height mod DifficultyAdjustment.ADJUSTMENT_INTERVAL = 0)
          by lia.
        by rewrite Z.add_0_r.
      * replace (height + (DifficultyAdjustment.ADJUSTMENT_INTERVAL
                           - height mod DifficultyAdjustment.ADJUSTMENT_INTERVAL))
          with (cycle_start_height + 1 * DifficultyAdjustment.ADJUSTMENT_INTERVAL)
          by (unfold cycle_start_height; lia).
        rewrite Z.mod_add by done. unfold cycle_start_height.
        rewrite Zminus_mod_idemp_r. rewrite Z.sub_diag. reflexivity.
    + intros Hold. split.
      * change (BlockHeader.difficulty last_header / 4)%Q
          with (BlockHeader.difficulty last_header * (1 # 4))%Q.
        rewrite !(Qmult_comm (BlockHeader.difficulty last_header)).
        by apply Qmult_le_compat_r.
      * rewrite (Qmult_comm (BlockHeader.difficulty last_header)).
        by apply Qmult_le_compat_r.
Qed.

Lemma predict_next_adjustment_spec_witness :
  DifficultyAdjustment.predict_next_adjustment Demo.stalled
  = Py.Raise Py.ZeroDivisionError.
Proof.
  destruct (predict_next_adjustment_spec Demo.stalled Demo.last_header eq_refl)
    as (_ & Hraise & _).
  apply (Hraise Demo.first_header); reflexivity.
Defined.

(** X26. [find_block_by_height] after [add_block_header]: the first
    header with the height wins, so the new header is found under its
    height only if no earlier header has that height. *)
Theorem find_block_by_height_add (da : DifficultyAdjustment.t)
    (header : BlockHeader.t) (height : Z) :
  DifficultyAdjustment.find_block_by_height
    (DifficultyAdjustment.add_block_header da header) height
  = match DifficultyAdjustment.find_block_by_height da height with
    | Some earlier => Some earlier
    | None =>
        if BlockHeader.height header =? height then Some header else None
    end.
Proof.
  unfold DifficultyAdjustment.find_block_by_height,
    DifficultyAdjustment.add_block_header.
  cbn [DifficultyAdjustment.block_headers].
  induction (DifficultyAdjustment.block_headers da) as [|h l IH]; [done|].
  cbn. by destruct (BlockHeader.height h =? height).
Qed.

(** ** Selection by the UTXO set *)



(** ** Inputs that repeat *)

Section RepeatedInputs.

Context `{host : Host}.

Variable sign_message : string -> string -> string.

(** What [sign_transaction] makes of a transaction whose inputs name
    the UTXOs [sel] of the signer. *)
Lemma signed_transaction_shape (wallet : Transaction.Wallet)
    (built : Transaction.t) (s : UTXOSet.t) (sel : list UTXO.t) :
  (forall m, verify_signature_static m
               (sign_message (Transaction.private_key_hex wallet) m)
               (Transaction.public_key_hex wallet) = true) ->
  (forall m, sign_message (Transaction.private_key_hex wallet) m <> "") ->
  Transaction.public_key_hex wallet <> "" ->
  map TransactionInput.get_utxo_id (Transaction.inputs built)
  = map UTXO.get_utxo_id sel ->
  (forall u, u ∈ sel ->
     s !! UTXO.get_utxo_id u = Some u
     /\ derive_address_from_public_key (Transaction.public_key_hex wallet)
        = UTXO.recipient_address u) ->
  let tx := Transaction.sign_transaction sign_message built wallet in
  Transaction.outputs tx = Transaction.outputs built
  /\ Transaction.transaction_id tx = Transaction.transaction_id built
  /\ map TransactionInput.get_utxo_id (Transaction.inputs tx)
     = map UTXO.get_utxo_id sel
  /\ (Transaction.is_coinbase tx = false ->
      Transaction.verify_signature tx (Some s) = true).
Proof.
  intros Hver Hsig Hkey Hids Hin. cbv zeta.
  unfold Transaction.sign_transaction.
  destruct (Transaction.is_coinbase built) eqn:Hcb.
  { split; [done|]. split; [done|]. split; [done|]. congruence. }
  rewrite (sign_inputs_result sign_message wallet built [] _ eq_refl).
  cbn [app length Nat.add].
  set (ins' := imap _ _).
  assert (Href : map Transaction.reference ins'
                 = map Transaction.reference (Transaction.inputs built)).
  { subst ins'.
    apply (signed_inputs_references sign_message wallet built (fun k => k)). }
  split; [done|]. split; [done|]. split.
  { cbn [Transaction.with_inputs Transaction.inputs].
    rewrite <- Hids. by apply references_utxo_ids. }
  intros _. unfold Transaction.verify_signature.
  rewrite (is_coinbase_references _ _ Href), Hcb.
  cbn [Transaction.with_inputs Transaction.inputs].
  apply (verify_inputs_signed_in_set sign_message wallet built _ s 0%nat);
    try done.
  - by apply signature_data_references.
  - intros i Hi.
    assert (Hi' : TransactionInput.get_utxo_id i ∈ map UTXO.get_utxo_id sel).
    { rewrite <- Hids. apply list_elem_of_In, in_map, list_elem_of_In, Hi. }
    apply list_elem_of_In, in_map_iff in Hi' as (u & Hu & Hut).
    apply list_elem_of_In in Hut.
    destruct (Hin u Hut) as (Hlook & Hrec).
    exists u. by rewrite <- Hu.
Qed.

End RepeatedInputs.

(** X28. [add_transaction] accepts a transaction with two inputs, separate
    objects, that name the same UTXO: the UTXO is counted once per
    input, so the transaction may pay out twice its amount. Applying it
    removes the one UTXO and creates one of twice the amount. The owner's
    signatures are all it takes. *)
Theorem repeated_input_is_accepted `{host : Host}
    (sign_message : string -> string -> string) (bc : Blockchain.t)
    (wallet : Transaction.Wallet) (utxo : UTXO.t) (to_address now : string) :
  Blockchain.utxo_set bc !! UTXO.get_utxo_id utxo = Some utxo ->
  UTXO.is_spent utxo = false ->
  UTXO.get_utxo_id utxo
  ∉ Blockchain.pending_used_utxos (Blockchain.pending_transactions bc) ->
  (0 < UTXO.amount utxo)%Q ->
  (forall m, verify_signature_static m
               (sign_message (Transaction.private_key_hex wallet) m)
               (Transaction.public_key_hex wallet) = true) ->
  (forall m, sign_message (Transaction.private_key_hex wallet) m <> "") ->
  Transaction.public_key_hex wallet <> "" ->
  derive_address_from_public_key (Transaction.public_key_hex wallet)
  = UTXO.recipient_address utxo ->
  let input_tx :=
    TransactionInput.mk (UTXO.transaction_id utxo) (UTXO.output_index utxo)
                        "" "" in
  let tx :=
    Transaction.sign_transaction sign_message
      (Transaction.new [input_tx; input_tx]
         [TransactionOutput.mk (2 * UTXO.amount utxo) to_address] None now)
      wallet in
  Blockchain.add_transaction bc tx
  = (true,
     Blockchain.set_pending bc (Blockchain.pending_transactions bc ++ [tx])%list
       (TransactionHistoryCache.invalidate_cache (Blockchain.history_cache bc)))
  /\ UTXOSet.update_from_transaction (Blockchain.utxo_set bc) tx
     = <[utxo_id_of (Transaction.transaction_id tx) 0 :=
           UTXO.new (Transaction.transaction_id tx) 0 (2 * UTXO.amount utxo)
                    to_address]>
         (delete (UTXO.get_utxo_id utxo) (Blockchain.utxo_set bc)).
Proof.
  intros Hlook Hunspent Hfree Hpos Hver Hsig Hkey Haddr. cbv zeta.
  set (built := Transaction.new _ _ None now).
  destruct (signed_transaction_shape sign_message wallet built
              (Blockchain.utxo_set bc) [utxo; utxo] Hver Hsig Hkey)
    as (Houts & Hid & Hins & Hsigned).
  { reflexivity. }
  { intros u Hu. apply elem_of_cons in Hu as [->|Hu]; [done|].
    by apply list_elem_of_singleton in Hu as ->. }
  set (tx := Transaction.sign_transaction sign_message built wallet) in *.
  clearbody tx. split.
  - apply (add_transaction_accepts bc tx [utxo; utxo] Hins).
    + intros u Hu. apply elem_of_cons in Hu as [->|Hu]; [done|].
      by apply list_elem_of_singleton in Hu as ->.
    + by rewrite Houts.
    + rewrite Houts. cbn. apply orb_false_intro; [|done].
      apply not_true_iff_false. intros H. apply Qle_bool_iff in H. lra.
    + unfold Spec.output_amounts, Spec.funds. rewrite Houts. cbn. lra.
    + exact Hsigned.
  - unfold UTXOSet.update_from_transaction. rewrite Houts.
    cbn [UTXOSet.add_outputs Transaction.outputs].
    unfold UTXOSet.add_utxo. f_equal.
    destruct (Transaction.inputs tx) as [|i1 [|i2 [|i3 ins]]]; try done.
    injection Hins as H1 H2. cbn [UTXOSet.spend_inputs].
    rewrite H1, Hlook, H2, lookup_delete_eq. reflexivity.
Qed.

Lemma repeated_input_is_accepted_witness :
  let input_tx := TransactionInput.mk "t0" 0 "" "" in
  let tx :=
    Transaction.sign_transaction (host := Demo.host) Demo.signer
      (Transaction.new (host := Demo.host) [input_tx; input_tx]
         [TransactionOutput.mk (2 * 50) "mallory"] None "1700000100")
      Demo.wallet in
  (Blockchain.add_transaction (host := Demo.host) Demo.ledger tx).1 = true.
Proof.
  cbv zeta.
  destruct (repeated_input_is_accepted (host := Demo.host) Demo.signer
              Demo.ledger Demo.wallet (UTXO.new "t0" 0 50 "addr-key")
              "mallory" "1700000100") as [Hacc _].
  - reflexivity.
  - reflexivity.
  - vm_compute. discriminate.
  - reflexivity.
  - intros m. reflexivity.
  - intros m. discriminate.
  - discriminate.
  - reflexivity.
  - cbv zeta in Hacc.
    exact (f_equal fst Hacc).
Defined.
